(** * RSSA shear device: control and acquisition logic of [Final_v3.py]

  A shallow embedding of the motor pulse generator, the sensor sampler,
  the recording controls and the status refresh of the RSSA Raspberry Pi
  script, with the properties its specification states about them.

  Python [float] is IEEE binary64 and is modelled by Rocq's primitive
  floats, which compute with the same roundings.  Module-level globals
  become the fields of a state record; a function that mutates them
  becomes a state transformer; [try]/[except] becomes an explicit
  outcome. *)

From Stdlib Require Import ZArith List Lia Bool.
From Stdlib Require Import Floats Uint63 Sorted.
From stdpp Require Import base option list strings gmap pretty.
Set Warnings "-inexact-float".

(** ** Python numbers *)

Module Py.

(** [max(a, b)]: CPython keeps the first argument unless the second
    compares strictly greater. *)
Definition max (a b : float) : float :=
  if (a <? b)%float then b else a.

(** [float(n)] for an [int] (exact below 2^53, the only range used). *)
Definition float_of_int (n : Z) : float :=
  if (n <? 0)%Z then (- of_uint63 (Uint63.of_Z (- n)))%float
  else of_uint63 (Uint63.of_Z n).

(** [a / b] on floats: [ZeroDivisionError] (here [None]) on a zero
    divisor, the IEEE quotient otherwise. *)
Definition div (a b : float) : option float :=
  if (b =? 0)%float then None else Some (a / b)%float.

(** An [int] or a [float], where the source lets a name hold either. *)
Inductive number :=
| Int (n : Z)
| Float (x : float).

End Py.

(** ** Stepper motor: globals, pulse generator, direction commands *)

Module Motor.

(** A [threading.Thread] running [pulse_stepper]: inside its loop, or
    returned from it. *)
Inductive thread_status := Alive | Finished.

(** The module-level stepper variables, the three GPIO output levels
    ([true] is [GPIO.HIGH]) and the pulse threads created so far
    ([pulse_thread] refers to one of them by position). *)
Record motor_state := MotorState {
  stepper_running : bool;
  current_direction : string;
  current_speed : float;
  pulse_thread : option nat;
  last_step_time : float;
  step_history : list float;
  enable_pin : bool;
  direction_pin : bool;
  step_pin : bool;
  threads : list thread_status;
}.

Definition set_stepper_running v s :=
  MotorState v (current_direction s) (current_speed s) (pulse_thread s)
    (last_step_time s) (step_history s) (enable_pin s) (direction_pin s)
    (step_pin s) (threads s).
Definition set_current_direction v s :=
  MotorState (stepper_running s) v (current_speed s) (pulse_thread s)
    (last_step_time s) (step_history s) (enable_pin s) (direction_pin s)
    (step_pin s) (threads s).
Definition set_current_speed v s :=
  MotorState (stepper_running s) (current_direction s) v (pulse_thread s)
    (last_step_time s) (step_history s) (enable_pin s) (direction_pin s)
    (step_pin s) (threads s).
Definition set_pulse_thread v s :=
  MotorState (stepper_running s) (current_direction s) (current_speed s) v
    (last_step_time s) (step_history s) (enable_pin s) (direction_pin s)
    (step_pin s) (threads s).
Definition set_last_step_time v s :=
  MotorState (stepper_running s) (current_direction s) (current_speed s)
    (pulse_thread s) v (step_history s) (enable_pin s) (direction_pin s)
    (step_pin s) (threads s).
Definition set_step_history v s :=
  MotorState (stepper_running s) (current_direction s) (current_speed s)
    (pulse_thread s) (last_step_time s) v (enable_pin s) (direction_pin s)
    (step_pin s) (threads s).
Definition set_enable_pin v s :=
  MotorState (stepper_running s) (current_direction s) (current_speed s)
    (pulse_thread s) (last_step_time s) (step_history s) v (direction_pin s)
    (step_pin s) (threads s).
Definition set_direction_pin v s :=
  MotorState (stepper_running s) (current_direction s) (current_speed s)
    (pulse_thread s) (last_step_time s) (step_history s) (enable_pin s) v
    (step_pin s) (threads s).
Definition set_step_pin v s :=
  MotorState (stepper_running s) (current_direction s) (current_speed s)
    (pulse_thread s) (last_step_time s) (step_history s) (enable_pin s)
    (direction_pin s) v (threads s).
Definition set_threads v s :=
  MotorState (stepper_running s) (current_direction s) (current_speed s)
    (pulse_thread s) (last_step_time s) (step_history s) (enable_pin s)
    (direction_pin s) (step_pin s) v.

(** The state after the module body has run: driver disabled (enable
    HIGH), direction and step LOW, no thread. *)
Definition initial : motor_state :=
  MotorState false "Stop" (Py.float_of_int 0) None (Py.float_of_int 0) []
    true false false [].

(** [deque(maxlen=n).append(x)]: the oldest entries fall out. *)
Definition deque_append (maxlen : nat) (d : list float) (x : float)
  : list float :=
  drop (length (d ++ [x]) - maxlen) (d ++ [x]).

(** [update_speed]: the [tk.Scale] runs from 0 to 100 with the default
    resolution of 1 and hands its position over as a decimal string;
    [float] of it is the float of that integer. *)
Definition update_speed (speed : Z) (s : motor_state) : motor_state :=
  set_current_speed (Py.float_of_int speed) s.

(** Lines 97-98 of [pulse_stepper]: the pulse period for a speed that
    passed the [current_speed > 0] test. *)
Definition step_interval (current_speed : float) : option float :=
  q ← Py.div current_speed 100;
  step_interval ← Py.div 0.02 q;
  Some (Py.max step_interval 0.001).

(** One pass through the body of [while stepper_running:] at clock
    reading [now]; [None] when the body raises. *)
Definition pulse_body (now : float) (s : motor_state)
  : option motor_state :=
  if (0 <? current_speed s)%float then
    step_interval ← step_interval (current_speed s);
    if (step_interval <=? now - last_step_time s)%float then
      let s := set_step_pin true s in
      let s := set_step_history (deque_append 100 (step_history s) now) s in
      (* busy wait of step_pulse_duration *)
      let s := set_step_pin false s in
      Some (set_last_step_time now s)
    else Some s
  else Some s (* time.sleep(0.01) *).

(** Thread [t] gets the processor for one round of its loop: the test of
    [stepper_running], then the body.  A false test, or an exception in
    the body, ends the thread. *)
Definition pulse_step (t : nat) (now : float) (s : motor_state)
  : motor_state :=
  match threads s !! t with
  | Some Alive =>
      if stepper_running s then
        match pulse_body now s with
        | Some s' => s'
        | None => set_threads (<[t := Finished]> (threads s)) s
        end
      else set_threads (<[t := Finished]> (threads s)) s
  | _ => s
  end.

(** [pulse_thread.join()], reached only right after the caller cleared
    [stepper_running]: the caller waits while thread [t] comes to the
    test of its loop, finds the flag false and returns. *)
Definition thread_join (t : nat) (s : motor_state) : motor_state :=
  match threads s !! t with
  | Some Alive =>
      if stepper_running s then s
      else set_threads (<[t := Finished]> (threads s)) s
  | _ => s
  end.

(** [pulse_thread = threading.Thread(target=pulse_stepper)] and
    [pulse_thread.start()]. *)
Definition thread_start (s : motor_state) : motor_state :=
  let t := length (threads s) in
  set_threads (threads s ++ [Alive]) (set_pulse_thread (Some t) s).

(** [stop_motor].  Its last line assigns [current_direction] without a
    [global] declaration, so the module-level name keeps its value. *)
Definition stop_motor (s : motor_state) : motor_state :=
  set_enable_pin true (set_stepper_running false s).

(** [apply_direction], with the combobox text and the slider position it
    reads from the widgets as arguments. *)
Definition apply_direction (direction : string) (speed : Z)
  (s : motor_state) : motor_state :=
  if String.eqb direction "Stop" then stop_motor s
  else
    let s :=
      if stepper_running s then
        let s := set_stepper_running false s in
        match pulse_thread s with
        | Some t => thread_join t s
        | None => s
        end
      else s in
    let s :=
      if String.eqb direction "Forward" then
        set_current_direction "Forward" (set_direction_pin true s)
      else if String.eqb direction "Reverse" then
        set_current_direction "Reverse" (set_direction_pin false s)
      else s in
    let s := set_enable_pin false s in
    if (0 <? speed)%Z then thread_start (set_stepper_running true s)
    else s.

(** What reaches the motor globals: the three motor widgets on the UI
    thread, and the scheduler letting a pulse thread run. *)
Inductive event :=
| MoveSlider (speed : Z)
| ApplyDirection (direction : string) (speed : Z)
| EmergencyStop
| PulseStep (t : nat) (now : float).

Definition step (s : motor_state) (e : event) : motor_state :=
  match e with
  | MoveSlider speed => update_speed speed s
  | ApplyDirection direction speed => apply_direction direction speed s
  | EmergencyStop => stop_motor s
  | PulseStep t now => pulse_step t now s
  end.

Definition run (es : list event) (s : motor_state) : motor_state :=
  foldl step s es.

(** The pulse loops that have not returned. *)
Definition alive (s : motor_state) (t : nat) : bool :=
  match threads s !! t with
  | Some Alive => true
  | _ => false
  end.

Definition active_loops (s : motor_state) : list nat :=
  List.filter (alive s) (seq 0 (length (threads s))).

(** *** Status refresh, motor line *)

(** Lines 416-420 of [update_status]. *)
Definition steps_per_sec (step_history : list float) : Py.number :=
  if (1 <? length step_history)%nat then
    let time_span :=
      (List.last step_history 0 - List.hd 0 step_history)%float in
    if (0 <? time_span)%float then
      Py.Float (Py.float_of_int (Z.of_nat (length step_history) - 1)
                / time_span)
    else Py.Int 0
  else Py.Int 0.

(** The motor line of the status label before formatting: the three
    values of the f-string, or the fixed text
    ["Motor Status: Stopped | Speed: 0 | Steps/sec: 0"]. *)
Inductive motor_line :=
| Moving (direction : string) (speed : float) (rate : Py.number)
| Stopped.

Definition update_status (s : motor_state) : motor_line :=
  if stepper_running s then
    Moving (current_direction s) (current_speed s)
      (steps_per_sec (step_history s))
  else Stopped.

(** The number shown after ["Steps/sec:"]. *)
Definition shown_rate (l : motor_line) : Py.number :=
  match l with
  | Moving _ _ rate => rate
  | Stopped => Py.Int 0
  end.

(** The period as the specification words it:
    max(0.001, 0.02 / (speed / 100)). *)
Definition spec_period (speed : float) : float :=
  Py.max 0.001 (0.02 / (speed / 100))%float.

(** Steps per second as the specification words it:
    (count - 1) / (newest - oldest) with at least two samples and a
    positive span, else 0. *)
Definition spec_steps_per_sec (buffer : list float) : Py.number :=
  match buffer with
  | oldest :: _ :: _ =>
      let newest := List.last buffer oldest in
      if (0 <? newest - oldest)%float then
        Py.Float (Py.float_of_int (Z.of_nat (length buffer) - 1)
                  / (newest - oldest))
      else Py.Int 0
  | _ => Py.Int 0
  end.

(** Three float comparisons on a slider position: the inner quotient is
    not zero, and the outer one lies above the clamp. *)
Definition quotient_in_range (s : Z) : bool :=
  let q := (0.02 / (Py.float_of_int s / 100))%float in
  negb (Py.float_of_int s / 100 =? 0)%float
  && negb (q <? 0.001)%float && (0.001 <? q)%float.

Definition faster_is_shorter (s s' : Z) : bool :=
  (0.02 / (Py.float_of_int s' / 100)
   <? 0.02 / (Py.float_of_int s / 100))%float.


(** *** What the motor handlers keep *)

(** Between two handlers: the ring buffer is within its capacity, the
    step line is low, the driver is enabled whenever the running flag is
    set, and [last_step_time] is the newest timestamp of the buffer. *)
Definition motor_ok (s : motor_state) : Prop :=
  (length (step_history s) ≤ 100)%nat
  ∧ step_pin s = false
  ∧ (stepper_running s = true → enable_pin s = false)
  ∧ (step_history s ≠ [] →
     List.last (step_history s) 0%float = last_step_time s).

(** At most the thread [pulse_thread] refers to is in its loop. *)
Definition only_referenced_loop (s : motor_state) : Prop :=
  ∀ u, alive s u = true → pulse_thread s = Some u.

(** A direction other than Stop is applied in time: the running flag is
    still set, or no pulse loop is left. *)
Definition applied_in_time (s : motor_state) (e : event) : Prop :=
  match e with
  | ApplyDirection direction _ =>
      direction = "Stop" ∨ stepper_running s = true
      ∨ ∀ u, alive s u = false
  | _ => True
  end.

Fixpoint all_in_time (es : list event) (s : motor_state) : Prop :=
  match es with
  | [] => True
  | e :: es => applied_in_time s e ∧ all_in_time es (step s e)
  end.

End Motor.

(** ** Sensor acquisition: globals, sampler, recording controls *)

Module Sensor.

(** The exceptions the sensor code can meet; [str(e)] is the message. *)
Inductive exn :=
| ValueError (msg : string)
| OSError (msg : string)
| IndexError (msg : string)
| AttributeError (msg : string)
| DeviceError (msg : string).

Definition str_exn (e : exn) : string :=
  match e with
  | ValueError m | OSError m | IndexError m | AttributeError m
  | DeviceError m => m
  end.

Definition is_ValueError (e : exn) : bool :=
  match e with ValueError _ => true | _ => false end.

(** A statement sequence either completes with a value or raises; the
    state reached is kept in both cases, as Python keeps every
    assignment made before a [raise]. *)
Inductive outcome (A : Type) :=
| Ok (a : A)
| Raise (e : exn).
Arguments Ok {A} a.
Arguments Raise {A} e.

Definition M (S A : Type) : Type := S → outcome A * S.

#[export] Instance M_ret {S} : MRet (M S) := λ A a s, (Ok a, s).
#[export] Instance M_bind {S} : MBind (M S) := λ A B k m s,
  match m s with
  | (Ok a, s') => k a s'
  | (Raise e, s') => (Raise e, s')
  end.

Definition gets {S A} (f : S → A) : M S A := λ s, (Ok (f s), s).
Definition modify {S} (f : S → S) : M S unit := λ s, (Ok tt, f s).
Definition raise {S A} (e : exn) : M S A := λ s, (Raise e, s).

(** [try: m  except <class> as e: h e]; an exception outside the class
    passes through. *)
Definition try_except {S A} (m : M S A) (catches : exn → bool)
  (h : exn → M S A) : M S A := λ s,
  match m s with
  | (Ok a, s') => (Ok a, s')
  | (Raise e, s') => if catches e then h e s' else (Raise e, s')
  end.

Definition any_exception (e : exn) : bool := true.

Definition when {S} (b : bool) (m : M S unit) : M S unit :=
  if b then m else mret tt.

(** The builtins of Python the sensor code calls on floats. *)
Class Builtins := {
  (** [round(x, ndigits)] *)
  py_round : float → Z → float;
  (** [float(text)]: the float, or the message of its [ValueError] *)
  py_float : string → string + float;
  (** [str(x)] *)
  py_str : float → string;
}.

(** The MCP3008 behind [AnalogIn(mcp, P<ch>).voltage]: one conversion
    either raises or yields a voltage, and moves the outside world on. *)
Class Adc (W : Type) := {
  voltage : nat → W → (exn + float) * W;
}.

(** A CSV field and a CSV row as handed to [csv_writer.writerow]. *)
Inductive cell :=
| CStr (s : string)
| CNum (x : float).

Definition row := list cell.

(** A file object returned by [open(name, 'w')]: rows written and not
    yet flushed sit in its buffer. *)
Record fileobj := FileObj {
  f_name : string;
  f_closed : bool;
  f_buffer : list row;
}.

(** A [messagebox] call: kind, title, message. *)
Inductive dialog :=
| WarningBox (title message : string)
| ErrorBox (title message : string).

Section State.

Context {W : Type}.

(** The module-level sensor variables (the two lists of [sensor_data]
    as two fields), the widgets the handlers read or write, and what
    lies outside the process: the file objects it created
    ([output_file] and [csv_writer] refer to them by position), the rows
    on disk under each file name, the message boxes shown, the lines
    printed, and the converter. *)
Record state := State {
  selected_channels : list nat;
  delta_t : float;
  start_time : float;
  sensor_data_time : list float;
  sensor_data_voltages : list (list float);
  is_recording : bool;
  output_file : option nat;
  csv_writer : option nat;
  last_reading_time : float;
  channel_vars : list Z;
  interval_entry : string;
  file_label : string;
  record_button : string;
  objects : list fileobj;
  disk : gmap string (list row);
  dialogs : list dialog;
  stdout : list string;
  adc : W;
}.

Definition set_selected_channels (v : list nat) (s : state) : state :=
  State v (delta_t s) (start_time s) (sensor_data_time s)
    (sensor_data_voltages s) (is_recording s) (output_file s)
    (csv_writer s) (last_reading_time s) (channel_vars s)
    (interval_entry s) (file_label s) (record_button s) (objects s)
    (disk s) (dialogs s) (stdout s) (adc s).
Definition set_delta_t (v : float) (s : state) : state :=
  State (selected_channels s) v (start_time s) (sensor_data_time s)
    (sensor_data_voltages s) (is_recording s) (output_file s)
    (csv_writer s) (last_reading_time s) (channel_vars s)
    (interval_entry s) (file_label s) (record_button s) (objects s)
    (disk s) (dialogs s) (stdout s) (adc s).
Definition set_start_time (v : float) (s : state) : state :=
  State (selected_channels s) (delta_t s) v (sensor_data_time s)
    (sensor_data_voltages s) (is_recording s) (output_file s)
    (csv_writer s) (last_reading_time s) (channel_vars s)
    (interval_entry s) (file_label s) (record_button s) (objects s)
    (disk s) (dialogs s) (stdout s) (adc s).
Definition set_sensor_data_time (v : list float) (s : state) : state :=
  State (selected_channels s) (delta_t s) (start_time s) v
    (sensor_data_voltages s) (is_recording s) (output_file s)
    (csv_writer s) (last_reading_time s) (channel_vars s)
    (interval_entry s) (file_label s) (record_button s) (objects s)
    (disk s) (dialogs s) (stdout s) (adc s).
Definition set_sensor_data_voltages (v : list (list float)) (s : state) : state :=
  State (selected_channels s) (delta_t s) (start_time s)
    (sensor_data_time s) v (is_recording s) (output_file s) (csv_writer s)
    (last_reading_time s) (channel_vars s) (interval_entry s)
    (file_label s) (record_button s) (objects s) (disk s) (dialogs s)
    (stdout s) (adc s).
Definition set_is_recording (v : bool) (s : state) : state :=
  State (selected_channels s) (delta_t s) (start_time s)
    (sensor_data_time s) (sensor_data_voltages s) v (output_file s)
    (csv_writer s) (last_reading_time s) (channel_vars s)
    (interval_entry s) (file_label s) (record_button s) (objects s)
    (disk s) (dialogs s) (stdout s) (adc s).
Definition set_output_file (v : option nat) (s : state) : state :=
  State (selected_channels s) (delta_t s) (start_time s)
    (sensor_data_time s) (sensor_data_voltages s) (is_recording s) v
    (csv_writer s) (last_reading_time s) (channel_vars s)
    (interval_entry s) (file_label s) (record_button s) (objects s)
    (disk s) (dialogs s) (stdout s) (adc s).
Definition set_csv_writer (v : option nat) (s : state) : state :=
  State (selected_channels s) (delta_t s) (start_time s)
    (sensor_data_time s) (sensor_data_voltages s) (is_recording s)
    (output_file s) v (last_reading_time s) (channel_vars s)
    (interval_entry s) (file_label s) (record_button s) (objects s)
    (disk s) (dialogs s) (stdout s) (adc s).
Definition set_last_reading_time (v : float) (s : state) : state :=
  State (selected_channels s) (delta_t s) (start_time s)
    (sensor_data_time s) (sensor_data_voltages s) (is_recording s)
    (output_file s) (csv_writer s) v (channel_vars s) (interval_entry s)
    (file_label s) (record_button s) (objects s) (disk s) (dialogs s)
    (stdout s) (adc s).
Definition set_channel_vars (v : list Z) (s : state) : state :=
  State (selected_channels s) (delta_t s) (start_time s)
    (sensor_data_time s) (sensor_data_voltages s) (is_recording s)
    (output_file s) (csv_writer s) (last_reading_time s) v
    (interval_entry s) (file_label s) (record_button s) (objects s)
    (disk s) (dialogs s) (stdout s) (adc s).
Definition set_interval_entry (v : string) (s : state) : state :=
  State (selected_channels s) (delta_t s) (start_time s)
    (sensor_data_time s) (sensor_data_voltages s) (is_recording s)
    (output_file s) (csv_writer s) (last_reading_time s) (channel_vars s) v
    (file_label s) (record_button s) (objects s) (disk s) (dialogs s)
    (stdout s) (adc s).
Definition set_file_label (v : string) (s : state) : state :=
  State (selected_channels s) (delta_t s) (start_time s)
    (sensor_data_time s) (sensor_data_voltages s) (is_recording s)
    (output_file s) (csv_writer s) (last_reading_time s) (channel_vars s)
    (interval_entry s) v (record_button s) (objects s) (disk s) (dialogs s)
    (stdout s) (adc s).
Definition set_record_button (v : string) (s : state) : state :=
  State (selected_channels s) (delta_t s) (start_time s)
    (sensor_data_time s) (sensor_data_voltages s) (is_recording s)
    (output_file s) (csv_writer s) (last_reading_time s) (channel_vars s)
    (interval_entry s) (file_label s) v (objects s) (disk s) (dialogs s)
    (stdout s) (adc s).
Definition set_objects (v : list fileobj) (s : state) : state :=
  State (selected_channels s) (delta_t s) (start_time s)
    (sensor_data_time s) (sensor_data_voltages s) (is_recording s)
    (output_file s) (csv_writer s) (last_reading_time s) (channel_vars s)
    (interval_entry s) (file_label s) (record_button s) v (disk s)
    (dialogs s) (stdout s) (adc s).
Definition set_disk (v : gmap string (list row)) (s : state) : state :=
  State (selected_channels s) (delta_t s) (start_time s)
    (sensor_data_time s) (sensor_data_voltages s) (is_recording s)
    (output_file s) (csv_writer s) (last_reading_time s) (channel_vars s)
    (interval_entry s) (file_label s) (record_button s) (objects s) v
    (dialogs s) (stdout s) (adc s).
Definition set_dialogs (v : list dialog) (s : state) : state :=
  State (selected_channels s) (delta_t s) (start_time s)
    (sensor_data_time s) (sensor_data_voltages s) (is_recording s)
    (output_file s) (csv_writer s) (last_reading_time s) (channel_vars s)
    (interval_entry s) (file_label s) (record_button s) (objects s)
    (disk s) v (stdout s) (adc s).
Definition set_stdout (v : list string) (s : state) : state :=
  State (selected_channels s) (delta_t s) (start_time s)
    (sensor_data_time s) (sensor_data_voltages s) (is_recording s)
    (output_file s) (csv_writer s) (last_reading_time s) (channel_vars s)
    (interval_entry s) (file_label s) (record_button s) (objects s)
    (disk s) (dialogs s) v (adc s).
Definition set_adc (v : W) (s : state) : state :=
  State (selected_channels s) (delta_t s) (start_time s)
    (sensor_data_time s) (sensor_data_voltages s) (is_recording s)
    (output_file s) (csv_writer s) (last_reading_time s) (channel_vars s)
    (interval_entry s) (file_label s) (record_button s) (objects s)
    (disk s) (dialogs s) (stdout s) v.

Abbreviation Act := (M state).

(** Python truthiness of a name holding [None] or an object. *)
Definition truthy {A} (x : option A) : bool :=
  match x with Some _ => true | None => false end.

Definition print (line : string) : Act unit :=
  modify (λ s, set_stdout (stdout s ++ [line]) s).

Definition messagebox (d : dialog) : Act unit :=
  modify (λ s, set_dialogs (dialogs s ++ [d]) s).

(** *** File objects *)

Definition closed_file : exn := ValueError "I/O operation on closed file.".

Definition get_object (o : nat) : Act fileobj := λ s,
  match objects s !! o with
  | Some f => (Ok f, s)
  | None => (Raise (AttributeError "no such object"), s)
  end.

Definition put_object (o : nat) (f : fileobj) : Act unit :=
  modify (λ s, set_objects (<[o := f]> (objects s)) s).

(** [csv.writer(f).writerow(r)]: the row goes to the buffer of [f]. *)
Definition writerow (o : nat) (r : row) : Act unit :=
  f ← get_object o;
  if f_closed f then raise closed_file
  else put_object o (FileObj (f_name f) false (f_buffer f ++ [r])).

(** [f.flush()]: the buffered rows reach the disk. *)
Definition flush (o : nat) : Act unit :=
  f ← get_object o;
  if f_closed f then raise closed_file
  else
    modify (λ s, set_disk
      (<[f_name f := default [] (disk s !! f_name f) ++ f_buffer f]>
         (disk s)) s);;
    put_object o (FileObj (f_name f) false []).

(** [f.close()]: flushes, then no further write is accepted. *)
Definition close (o : nat) : Act unit :=
  f ← get_object o;
  if f_closed f then mret tt
  else flush o;; put_object o (FileObj (f_name f) true []).

(** [open(name, 'w', newline='')]: creates or truncates the file; the
    file system refuses with the message [open_error] if it gives one. *)
Definition open_w (name : string) (open_error : option string)
  : Act nat :=
  match open_error with
  | Some msg => raise (OSError msg)
  | None =>
      o ← gets (λ s, length (objects s));
      modify (λ s, set_disk (<[name := []]> (disk s)) s);;
      modify (λ s, set_objects (objects s ++ [FileObj name false []]) s);;
      mret o
  end.

(** [csv_writer.writerow(r)] and [output_file.flush()] through the two
    globals. *)
Definition csv_writer_writerow (r : row) : Act unit :=
  w ← gets csv_writer;
  match w with
  | Some o => writerow o r
  | None => raise (AttributeError "'NoneType' object has no attribute 'writerow'")
  end.

Definition output_file_flush : Act unit :=
  f ← gets output_file;
  match f with
  | Some o => flush o
  | None => raise (AttributeError "'NoneType' object has no attribute 'flush'")
  end.

(** [['Time (s)'] + [f'Ch{ch} Voltage (V)' for ch in selected_channels]] *)
Definition header_row (channels : list nat) : row :=
  CStr "Time (s)"
    :: map (λ ch, CStr ("Ch" +:+ pretty ch +:+ " Voltage (V)")) channels.

(** *** Handlers of the sensor tab *)

(** [browse_output_file]; [filename] is what the save dialog returned
    (empty when cancelled). *)
Definition browse_output_file (filename : string)
  (open_error : option string) : Act unit :=
  if String.eqb filename "" then mret tt
  else
    try_except
      (old ← gets output_file;
       match old with Some o => close o | None => mret tt end;;
       o ← open_w filename open_error;
       modify (set_output_file (Some o));;
       modify (set_csv_writer (Some o));;
       modify (set_file_label ("Output File: " +:+ filename));;
       recording ← gets is_recording;
       when recording
         (channels ← gets selected_channels;
          csv_writer_writerow (header_row channels);;
          output_file_flush))
      any_exception
      (λ e,
         messagebox
           (ErrorBox "File Error" ("Could not open file: " +:+ str_exn e));;
         modify (set_output_file None)).

(** Lines 328-337 of [toggle_recording], past the check for a sink;
    [now] is the reading of [time.time()]. *)
Definition start_recording (now : float) : Act unit :=
  modify (set_start_time now);;
  modify (set_sensor_data_time []);;
  modify (set_sensor_data_voltages []);;
  channels ← gets selected_channels;
  csv_writer_writerow (header_row channels);;
  output_file_flush;;
  modify (set_is_recording true);;
  modify (set_record_button "Stop Recording").

(** [toggle_recording]; the last two arguments answer the save dialog
    should it be opened. *)
Definition toggle_recording (now : float) (filename : string)
  (open_error : option string) : Act unit :=
  recording ← gets is_recording;
  if negb recording then
    file ← gets output_file;
    if negb (truthy file) then
      browse_output_file filename open_error;;
      file ← gets output_file;
      if negb (truthy file) then mret tt
      else start_recording now
    else start_recording now
  else
    modify (set_is_recording false);;
    modify (set_record_button "Start Recording").

(** [[i for i, var in enumerate(channel_vars) if var.get() == 1]] *)
Definition checked (vars : list Z) : list nat :=
  (List.filter (λ iv : nat * Z, (iv.2 =? 1)%Z) (imap pair vars)).*1.

(** [update_selected_channels], up to the redraw of the plot legend. *)
Definition update_selected_channels : Act unit :=
  vars ← gets channel_vars;
  modify (set_selected_channels (checked vars));;
  channels ← gets selected_channels;
  when (bool_decide (channels = []))
    (messagebox
       (WarningBox "Channel Selection"
          "At least one channel must be selected");;
     match vars with
     | [] => raise (IndexError "list index out of range")
     | _ => modify (set_channel_vars (<[0%nat := 1%Z]> vars))
     end;;
     modify (set_selected_channels [0%nat])).

(** A click on the checkbox of channel [i]: Tk flips its [IntVar]
    between 0 and 1 and then runs the command. *)
Definition click_channel (i : nat) : Act unit :=
  modify (λ s, set_channel_vars
    (alter (λ v, if (v =? 1)%Z then 0%Z else 1%Z) i (channel_vars s)) s);;
  update_selected_channels.

Definition clear_plot_data : Act unit :=
  modify (set_sensor_data_time []);;
  modify (set_sensor_data_voltages []).

Section Builtin.

Context `{!Builtins}.

(** [update_acquisition_interval] *)
Definition update_acquisition_interval : Act unit :=
  try_except
    (text ← gets interval_entry;
     new_delta ←
       match py_float text with
       | inr x => mret x
       | inl msg => raise (ValueError msg)
       end;
     if (new_delta <=? 0)%float then
       raise (ValueError "Interval must be positive")
     else modify (set_delta_t new_delta))
    is_ValueError
    (λ e,
       messagebox
         (ErrorBox "Invalid Interval"
            ("Please enter a valid positive number: " +:+ str_exn e));;
       old ← gets delta_t;
       modify (set_interval_entry (py_str old))).

Context `{!Adc W}.

(** [AnalogIn(mcp, getattr(MCP, f"P{ch}")).voltage] *)
Definition read_channel (ch : nat) : Act float := λ s,
  match voltage ch (adc s) with
  | (inr v, w) => (Ok v, set_adc w s)
  | (inl e, w) => (Raise e, set_adc w s)
  end.

(** The [for] loop of [read_sensors], entered with the readings
    gathered so far. *)
Fixpoint read_sensors_loop (readings : list float) (channels : list nat)
  : Act (list float) :=
  match channels with
  | [] => mret readings
  | ch :: channels =>
      readings ←
        try_except
          (v ← read_channel ch; mret (readings ++ [v]))
          any_exception
          (λ e,
             print ("Error reading channel " +:+ pretty ch +:+ ": "
                    +:+ str_exn e);;
             mret (readings ++ [0%float]));
      read_sensors_loop readings channels
  end.

Definition read_sensors (channels : list nat) : Act (list float) :=
  read_sensors_loop [] channels.

(** What [read_sensors] is to record for the outcome of one conversion,
    and the state one conversion on [ch] is to leave: the converter
    moved on, and a line printed if it failed. *)
Definition recorded (r : exn + float) : float :=
  match r with inr v => v | inl _ => 0%float end.

Definition after_conversion (ch : nat) (s : state) : state :=
  match voltage ch (adc s) with
  | (inr _, w) => set_adc w s
  | (inl e, w) =>
      set_stdout
        (stdout s ++ ["Error reading channel " +:+ pretty ch +:+ ": "
                      +:+ str_exn e])
        (set_adc w s)
  end.

(** One round of the [while not stop_acquisition] loop, with
    [current_time] the clock reading at its top; the closing
    [time.sleep] touches no state. *)
Definition sensor_tick (current_time : float) : Act unit :=
  last ← gets last_reading_time;
  interval ← gets delta_t;
  let elapsed_time := (current_time - last)%float in
  when (interval <=? elapsed_time)%float
    (try_except
       (channels ← gets selected_channels;
        readings ← read_sensors channels;
        start ← gets start_time;
        let current_time_relative := (current_time - start)%float in
        modify (λ s, set_sensor_data_time
          (sensor_data_time s ++ [py_round current_time_relative 3]) s);;
        modify (λ s, set_sensor_data_voltages
          (sensor_data_voltages s ++ [readings]) s);;
        recording ← gets is_recording;
        file ← gets output_file;
        writer ← gets csv_writer;
        when (recording && truthy file && truthy writer)
          (csv_writer_writerow
             (CNum (py_round current_time_relative 3)
                :: map (λ v, CNum (py_round v 3)) readings);;
           output_file_flush);;
        modify (set_last_reading_time current_time))
       any_exception
       (λ e, print ("Error in acquisition loop: " +:+ str_exn e))).

(** What reaches the sensor globals: the widgets of the sensor tab and
    the rounds of the sampler thread. *)
Inductive event :=
| ClickChannel (i : nat)
| TypeInterval (text : string)
| ClickUpdateInterval
| ClickRecord (now : float) (filename : string) (open_error : option string)
| ClickBrowse (filename : string) (open_error : option string)
| ClickClear
| Tick (current_time : float).

Definition handler (e : event) : Act unit :=
  match e with
  | ClickChannel i => click_channel i
  | TypeInterval text => modify (set_interval_entry text)
  | ClickUpdateInterval => update_acquisition_interval
  | ClickRecord now filename open_error =>
      toggle_recording now filename open_error
  | ClickBrowse filename open_error =>
      browse_output_file filename open_error
  | ClickClear => clear_plot_data
  | Tick current_time => sensor_tick current_time
  end.

(** One event is a whole handler or a whole round of the sampler, run
    with no statement of the other thread in between; where the other
    thread does come in between is the matter of the split handlers
    further down.  Tk reports an exception escaping a callback and
    carries on, so the state a handler reached stands either way. *)
Definition step (s : state) (e : event) : state := (handler e s).2.

Definition run (es : list event) (s : state) : state := foldl step s es.

End Builtin.

(** The sensor globals and widgets once the window is built and the
    sampler thread has made its first assignment, over a given disk and
    converter; [t0] and [t1] are the clock readings at import and at the
    start of the sampler. *)
Definition initial (t0 t1 : float) (files : gmap string (list row)) (w : W)
  : state :=
  State [0%nat] 0.1 t0 [] [] false None None t1
    [1; 0; 0; 0; 0; 0; 0; 0]%Z "0.1" "Output File: Not selected"
    "Start Recording"
    [] files [] [] w.

(** The state [start_recording] is to leave when file object [o], with
    the fields of [f], is the sink. *)
Definition started_on (now : float) (o : nat) (f : fileobj) (s : state)
  : state :=
  set_record_button "Stop Recording"
    (set_is_recording true
       (set_objects (<[o := FileObj (f_name f) false []]> (objects s))
          (set_disk
             (<[f_name f := default [] (disk s !! f_name f)
                             ++ (f_buffer f
                                 ++ [header_row (selected_channels s)])]>
                (disk s))
             (set_sensor_data_voltages []
                (set_sensor_data_time [] (set_start_time now s)))))).

(** The state [browse_output_file] is to leave while idle, the file
    system willing: the file created empty, or emptied, is the sink and
    nothing is written. *)
Definition browsed (filename : string) (s : state) : state :=
  set_file_label ("Output File: " +:+ filename)
    (set_csv_writer (Some (length (objects s)))
       (set_output_file (Some (length (objects s)))
          (set_objects (objects s ++ [FileObj filename false []])
             (set_disk (<[filename := []]> (disk s)) s)))).

(** The sink is sound: the writer is bound to the file object
    [output_file] refers to, and that object is open. *)
Definition sink_ok (s : state) : Prop :=
  ∀ o, output_file s = Some o →
       csv_writer s = Some o
       ∧ ∃ f, objects s !! o = Some f ∧ f_closed f = false.

(** The selection is sound: some channel is selected and the eight
    checkbox variables are there. *)
Definition selection_ok (s : state) : Prop :=
  selected_channels s ≠ [] ∧ length (channel_vars s) = 8%nat.

(** A handler preserves a property of the state when the state it
    leaves has it whenever the state it started from had it, whether it
    completes or raises. *)
Definition preserves {A} (I : state → Prop) (m : Act A) : Prop :=
  ∀ s, I s → I (m s).2.

(** A handler keeps the selection when it preserves every value of the
    selected channels and the checkbox variables. *)
Definition keeps_selection {A} (m : Act A) : Prop :=
  ∀ b, preserves (λ s, (selected_channels s, channel_vars s) = b) m.

(** The rows on disk under the name of the file [output_file] refers
    to. *)
Definition output_rows (s : state) : option (list row) :=
  o ← output_file s;
  f ← objects s !! o;
  disk s !! f_name f.

(** *** What the sensor handlers keep *)

(** The two lists of [sensor_data] go together: one reading row per
    time stamp. *)
Definition series_ok (s : state) : Prop :=
  length (sensor_data_time s) = length (sensor_data_voltages s).

(** The selection lists the ticked boxes. *)
Definition selection_ticked (s : state) : Prop :=
  selected_channels s = checked (channel_vars s).

(** A handler keeps the series when it preserves every value of its two
    lists. *)
Definition keeps_series {A} (m : Act A) : Prop :=
  ∀ b, preserves (λ s, (sensor_data_time s, sensor_data_voltages s) = b) m.


(** The state the first step of [browse_output_file] leaves: the old
    sink, if there is one, closed. *)
Definition old_sink_closed (s : state) : state :=
  match output_file s with
  | Some o => (close o s).2
  | None => s
  end.

(** The files are settled: the sink is sound, nothing waits in a buffer,
    and no file object other than the sink is open. *)
Definition files_ok (s : state) : Prop :=
  sink_ok s
  ∧ ∀ o f, objects s !! o = Some f →
           f_buffer f = [] ∧ (f_closed f = false → output_file s = Some o).

(** The file [name] still has the rows [rows] on disk, in place, with
    whatever was added after them. *)
Definition on_disk (name : string) (rows : list row) (s : state) : Prop :=
  ∃ more, disk s !! name = Some (rows ++ more).

(** The event answers a save dialog with [name]. *)
Definition asks_for (name : string) (e : event) : Prop :=
  match e with
  | ClickBrowse filename _ | ClickRecord _ filename _ => filename = name
  | _ => False
  end.

(** A handler keeps the files when it preserves every value of the sink,
    the writer and the file objects. *)
Definition keeps_files {A} (m : Act A) : Prop :=
  ∀ b, preserves (λ s, (output_file s, csv_writer s, objects s) = b) m.

(** *** The plot *)

(** What a line of the plot shows: the two sequences last handed to its
    [set_data]. *)
Record line2d := Line2D {
  xdata : list float;
  ydata : list float;
}.

Definition of_sum {S A} (r : exn + A) : M S A :=
  match r with
  | inr a => mret a
  | inl e => raise e
  end.

(** [channels.index(i)] *)
Definition py_index (i : nat) (channels : list nat) : exn + nat :=
  match list_find (λ ch, ch = i) channels with
  | Some (k, _) => inr k
  | None => inl (ValueError (pretty i +:+ " is not in list"))
  end.

(** [[v[ch_index] for v in voltages]] *)
Definition column (ch_index : nat) (voltages : list (list float))
  : exn + list float :=
  match mapM (λ v : list float, v !! ch_index) voltages with
  | Some ys => inr ys
  | None => inl (IndexError "list index out of range")
  end.

(** [for i in indices: body i] *)
Fixpoint for_each {S} (body : nat → M S unit) (indices : list nat)
  : M S unit :=
  match indices with
  | [] => mret tt
  | i :: indices => body i;; for_each body indices
  end.

(** The body of the loop of [update_plot] at line [i]. *)
Definition plot_line (s : state) (i : nat) : M (list line2d) unit :=
  when (bool_decide (i ∈ selected_channels s))
    (ch_index ← of_sum (py_index i (selected_channels s));
     let times := sensor_data_time s in
     voltages ← of_sum (column ch_index (sensor_data_voltages s));
     modify (<[i := Line2D times voltages]>)).

(** [update_plot], up to the rescaling and redrawing of the axes; it
    reads the sensor globals and acts on [self.lines]. *)
Definition update_plot (s : state) : M (list line2d) unit :=
  when (0 <? length (sensor_data_time s))%nat
    (n ← gets length;
     for_each (plot_line s) (seq 0 n)).

(** The lines of [clear_plot_data]: every line emptied. *)
Definition clear_lines (lines : list line2d) : list line2d :=
  (λ _, Line2D [] []) <$> lines.

Definition index_error : exn := IndexError "list index out of range".
(** *** Where the other thread comes in *)

(** The events above are whole handlers and whole rounds.  The source
    takes no lock, and there are places where the other thread does run
    between two statements and meets a state no whole event leaves: a
    message box holds the handler that shows it until it is dismissed,
    while the sampler goes on; and a handler can run between the two
    appends of a round.  Each of these is split there in two. *)

Section Midway.

Context `{!Builtins} `{!Adc W}.

(** [browse_output_file] up to the error box of line 364; the result
    tells whether the box is up. *)
Definition browse_output_file_to_box (filename : string)
  (open_error : option string) : Act bool :=
  if String.eqb filename "" then mret false
  else
    try_except
      (old ← gets output_file;
       match old with Some o => close o | None => mret tt end;;
       o ← open_w filename open_error;
       modify (set_output_file (Some o));;
       modify (set_csv_writer (Some o));;
       modify (set_file_label ("Output File: " +:+ filename));;
       recording ← gets is_recording;
       when recording
         (channels ← gets selected_channels;
          csv_writer_writerow (header_row channels);;
          output_file_flush);;
       mret false)
      any_exception
      (λ e,
         messagebox
           (ErrorBox "File Error" ("Could not open file: " +:+ str_exn e));;
         mret true).

(** Line 365, once the box is dismissed. *)
Definition browse_output_file_from_box : Act unit :=
  modify (set_output_file None).

(** [update_selected_channels] up to the warning box of line 282; the
    result tells whether the box is up. *)
Definition update_selected_channels_to_box : Act bool :=
  vars ← gets channel_vars;
  modify (set_selected_channels (checked vars));;
  channels ← gets selected_channels;
  if bool_decide (channels = []) then
    messagebox
      (WarningBox "Channel Selection"
         "At least one channel must be selected");;
    mret true
  else mret false.

(** Lines 283-284, once the box is dismissed. *)
Definition update_selected_channels_from_box : Act unit :=
  vars ← gets channel_vars;
  match vars with
  | [] => raise (IndexError "list index out of range")
  | _ => modify (set_channel_vars (<[0%nat := 1%Z]> vars))
  end;;
  modify (set_selected_channels [0%nat]).

Definition click_channel_to_box (i : nat) : Act bool :=
  modify (λ s, set_channel_vars
    (alter (λ v, if (v =? 1)%Z then 0%Z else 1%Z) i (channel_vars s)) s);;
  update_selected_channels_to_box.

(** A round of the sampler up to line 129, the append of the time
    stamp.  The result holds the locals [readings] and
    [current_time_relative] of a round that goes on, and nothing if the
    round was not due. *)
Definition sensor_tick_to_time (current_time : float)
  : Act (option (list float * float)) :=
  last ← gets last_reading_time;
  interval ← gets delta_t;
  let elapsed_time := (current_time - last)%float in
  if (interval <=? elapsed_time)%float then
    try_except
      (channels ← gets selected_channels;
       readings ← read_sensors channels;
       start ← gets start_time;
       let current_time_relative := (current_time - start)%float in
       modify (λ s, set_sensor_data_time
         (sensor_data_time s ++ [py_round current_time_relative 3]) s);;
       mret (Some (readings, current_time_relative)))
      any_exception
      (λ e, print ("Error in acquisition loop: " +:+ str_exn e);;
            mret None)
  else mret None.

(** The same round from line 130, the append of the readings, to its
    end. *)
Definition sensor_tick_from_time (current_time : float)
  (readings : list float) (current_time_relative : float) : Act unit :=
  try_except
    (modify (λ s, set_sensor_data_voltages
       (sensor_data_voltages s ++ [readings]) s);;
     recording ← gets is_recording;
     file ← gets output_file;
     writer ← gets csv_writer;
     when (recording && truthy file && truthy writer)
       (csv_writer_writerow
          (CNum (py_round current_time_relative 3)
             :: map (λ v, CNum (py_round v 3)) readings);;
        output_file_flush);;
     modify (set_last_reading_time current_time))
    any_exception
    (λ e, print ("Error in acquisition loop: " +:+ str_exn e)).

(** The event clears the series: a click on Clear Plot Data or on the
    record button. *)
Definition clears_series (e : event) : Prop :=
  match e with
  | ClickClear | ClickRecord _ _ _ => True
  | _ => False
  end.

End Midway.

End State.
Arguments state W : clear implicits.

End Sensor.

(** ** The window: status labels, plot lines, periodic refresh *)

Module App.

Import Sensor.

Section App.

Context {W : Type} `{!Builtins} `{!Adc W}.

(** The sensor line of the status label before formatting: the values
    of the f-string, or the fixed text
    ["Sensor Status: Active | Last Reading: None"]. *)
Inductive sensor_line :=
| LastReading (recording : bool) (last_time : float)
    (readings : list (nat * float))
| NoReading.

(** The two halves of the program, the widgets [update_status] and
    [update_plot] write, and the number of [update_status] callbacks
    that [master.after] has scheduled and Tk has not run yet. *)
Record app := Window {
  motor : Motor.motor_state;
  sensor : state W;
  lines : list line2d;
  motor_status_label : Motor.motor_line;
  sensor_status_label : sensor_line;
  scheduled : nat;
}.

Definition set_motor v a :=
  Window v (sensor a) (lines a) (motor_status_label a)
    (sensor_status_label a) (scheduled a).
Definition set_sensor v a :=
  Window (motor a) v (lines a) (motor_status_label a)
    (sensor_status_label a) (scheduled a).
Definition set_lines v a :=
  Window (motor a) (sensor a) v (motor_status_label a)
    (sensor_status_label a) (scheduled a).
Definition set_motor_status_label v a :=
  Window (motor a) (sensor a) (lines a) v (sensor_status_label a)
    (scheduled a).
Definition set_sensor_status_label v a :=
  Window (motor a) (sensor a) (lines a) (motor_status_label a) v
    (scheduled a).
Definition set_scheduled v a :=
  Window (motor a) (sensor a) (lines a) (motor_status_label a)
    (sensor_status_label a) v.

(** [l[-1]] *)
Definition py_last {A} (l : list A) : exn + A :=
  match last l with
  | Some x => inr x
  | None => inl index_error
  end.

(** Running code that acts on [self.lines] inside the window. *)
Definition on_lines {A} (m : M (list line2d) A) : M app A := λ a,
  let (r, ls) := m (lines a) in (r, set_lines ls a).

(** [update_status]; the call of [master.after] that ends it is reached
    only if nothing before it raises. *)
Definition update_status : M app unit :=
  m ← gets motor;
  modify (set_motor_status_label (Motor.update_status m));;
  s ← gets sensor;
  sensor_text ←
    (if (0 <? length (sensor_data_time s))%nat then
       last_time ← of_sum (py_last (sensor_data_time s));
       last_readings ← of_sum (py_last (sensor_data_voltages s));
       mret (LastReading (is_recording s) last_time
               (zip (selected_channels s) last_readings))
     else mret NoReading);
  modify (set_sensor_status_label sensor_text);;
  s ← gets sensor;
  on_lines (update_plot s);;
  modify (λ a, set_scheduled (S (scheduled a)) a).

(** What happens to the window: an event of the motor half, an event of
    the sensor half, or Tk running a scheduled [update_status]. *)
Inductive event :=
| OnMotor (e : Motor.event)
| OnSensor (e : Sensor.event)
| Refresh.

(** [clear_plot_data] also empties every line; an exception escaping
    [update_status] is reported by Tk and the state reached stands. *)
Definition step (a : app) (e : event) : app :=
  match e with
  | OnMotor e => set_motor (Motor.step (motor a) e) a
  | OnSensor e =>
      let a := set_sensor (Sensor.step (sensor a) e) a in
      match e with
      | ClickClear => set_lines (clear_lines (lines a)) a
      | _ => a
      end
  | Refresh =>
      match scheduled a with
      | O => a
      | S n => (update_status (set_scheduled n a)).2
      end
  end.

Definition run (es : list event) (a : app) : app := foldl step a es.

End App.

Arguments app W : clear implicits.

End App.

(** ** A test bench *)

(** Concrete builtins and a concrete converter to run the model on.  The
    bench only handles floats with at most three decimals, which
    [round(x, 3)] returns as they are; it types the texts and prints the
    floats listed here, with CPython's answers. *)
Module Bench.

Import Sensor.

Definition bench_float (text : string) : string + float :=
  if String.eqb text "0.5" then inr 0.5%float
  else if String.eqb text "2" then inr 2%float
  else if String.eqb text "0" then inr 0%float
  else if String.eqb text "-1" then inr (-1)%float
  else if String.eqb text "nan" then inr nan
  else inl ("could not convert string to float: '" +:+ text +:+ "'").

Definition bench_str (x : float) : string :=
  if PrimFloat.Leibniz.eqb x 0.1 then "0.1"
  else if PrimFloat.Leibniz.eqb x 0.5 then "0.5"
  else if PrimFloat.Leibniz.eqb x 2 then "2.0"
  else "nan".

#[export] Instance builtins : Builtins := {|
  py_round := λ x _, x;
  py_float := bench_float;
  py_str := bench_str;
|}.

(** The converter of the bench: the world is the number of conversions
    made so far; channel 1 is broken, channel [ch] otherwise reads
    [(ch+1)/4 + n/8] volts at conversion [n]. *)
#[export] Instance converter : Adc nat := {|
  voltage := λ ch n,
    (if Nat.eqb ch 1 then inl (DeviceError "no reply from MCP3008")
     else inr (Py.float_of_int (Z.of_nat ch + 1) / 4
               + Py.float_of_int (Z.of_nat n) / 8)%float,
     S n);
|}.

(** The application just started, at clock reading 1000, on an empty
    disk. *)
Definition started : state nat := initial 1000 1000.5 ∅ 0%nat.

(** The bench with channels 0, 1 and 2 ticked, and then recording into
    run.csv since clock reading 1010. *)
Definition three_channels : state nat :=
  run [ClickChannel 1; ClickChannel 2] started.

Definition recording : state nat :=
  run [ClickRecord 1010 "run.csv" None] three_channels.


(** The eight lines of the plot as [setup_sensor_controls] builds them,
    all empty. *)
Definition lines0 : list line2d := replicate 8 (Line2D [] []).


(** The bench after the round at 1011 with channel 0 alone, and the box
    of channel 2 ticked after it. *)
Definition widened : state nat :=
  run [Tick 1011; ClickChannel 2] started.

(** The window over a state of the sensor half: motor at rest, plot and
    labels as built, one refresh scheduled. *)
Definition window (s : state nat) : App.app nat :=
  App.Window Motor.initial s lines0 Motor.Stopped App.NoReading 1.

End Bench.

(** * Properties of the motor side *)

Section MotorProperties.

Import Motor.

Local Open Scope Z_scope.

(** ** The pulse period *)

(** The two divisions go through and the clamp leaves the quotient alone
    as soon as the float comparisons of [quotient_in_range] come out
    right. *)
Lemma step_interval_quotient (x : float) :
  (x / 100 =? 0)%float = false →
  (0.02 / (x / 100) <? 0.001)%float = false →
  step_interval x = Some (0.02 / (x / 100))%float.
Proof.
  intros Hq Hclamp. unfold step_interval, Py.div.
  replace (100 =? 0)%float with false by reflexivity.
  cbn [mbind option_bind]. rewrite Hq. cbn [mbind option_bind].
  unfold Py.max. rewrite Hclamp. reflexivity.
Qed.

Lemma spec_period_quotient (x : float) :
  (0.001 <? 0.02 / (x / 100))%float = true →
  spec_period x = (0.02 / (x / 100))%float.
Proof. intros H. unfold spec_period, Py.max. rewrite H. reflexivity. Qed.

Lemma slider_positions (f : Z → bool) :
  forallb f (seqZ 1 100) = true → ∀ s, 0 < s ≤ 100 → f s = true.
Proof.
  intros Hall s Hs. rewrite forallb_forall in Hall. apply Hall.
  apply list_elem_of_In, elem_of_seqZ. lia.
Qed.

Lemma quotient_in_range_slider (s : Z) :
  0 < s ≤ 100 → quotient_in_range s = true.
Proof. apply slider_positions. vm_compute. reflexivity. Qed.

Lemma faster_is_shorter_slider (s s' : Z) :
  0 < s → s < s' ≤ 100 → faster_is_shorter s s' = true.
Proof.
  intros Hs Hs'.
  assert (Hall : forallb (λ a, forallb (λ b, (b <=? a) || faster_is_shorter a b)
                                 (seqZ 1 100)) (seqZ 1 100) = true)
    by (vm_compute; reflexivity).
  pose proof (slider_positions _ Hall s ltac:(lia)) as Hrow.
  cbv beta in Hrow.
  pose proof (slider_positions _ Hrow s' ltac:(lia)) as Hcell.
  cbv beta in Hcell. apply orb_true_iff in Hcell as [Hle | Hlt]; [lia | done].
Qed.

(** C1: at every slider position s in (0,100] the period the pulse
    generator computes is max(0.001, 0.02/(s/100)); the clamp leaves the
    quotient 0.02/(s/100) as it is; and a higher position in [1,100] gives
    a strictly shorter period. *)
Theorem pulse_period_of_speed (st : motor_state) (s : Z) :
  0 < s ≤ 100 →
  let speed := current_speed (update_speed s st) in
  step_interval speed = Some (spec_period speed)
  ∧ step_interval speed = Some (0.02 / (speed / 100))%float
  ∧ ∀ s' p p',
      s < s' ≤ 100 →
      step_interval speed = Some p →
      step_interval (current_speed (update_speed s' st)) = Some p' →
      (p' <? p)%float = true.
Proof.
  intros Hs. cbv zeta.
  change (current_speed (update_speed s st)) with (Py.float_of_int s).
  pose proof (quotient_in_range_slider s Hs) as Hq.
  unfold quotient_in_range in Hq. cbv zeta in Hq.
  apply andb_true_iff in Hq as [Hq Hbig].
  apply andb_true_iff in Hq as [Hnz Hclamp].
  apply negb_true_iff in Hnz, Hclamp.
  rewrite (step_interval_quotient _ Hnz Hclamp).
  rewrite (spec_period_quotient _ Hbig).
  split; [done | split; [done |]].
  intros s' p p' Hs' [= <-] Hp'.
  change (current_speed (update_speed s' st)) with (Py.float_of_int s') in Hp'.
  pose proof (quotient_in_range_slider s' ltac:(lia)) as Hq'.
  unfold quotient_in_range in Hq'. cbv zeta in Hq'.
  apply andb_true_iff in Hq' as [Hq' _].
  apply andb_true_iff in Hq' as [Hnz' Hclamp'].
  apply negb_true_iff in Hnz', Hclamp'.
  rewrite (step_interval_quotient _ Hnz' Hclamp') in Hp'.
  injection Hp' as <-.
  apply (faster_is_shorter_slider s s'); lia.
Qed.

(** The theorem at positions 50 and 100: periods 0.04 s and 0.02 s. *)
Lemma pulse_period_of_speed_witness :
  0 < 50 ≤ 100
  ∧ 50 < 100 ≤ 100
  ∧ step_interval (current_speed (update_speed 50 initial))
    = Some (spec_period (current_speed (update_speed 50 initial)))
  ∧ step_interval (current_speed (update_speed 50 initial)) = Some 0.04%float
  ∧ step_interval (current_speed (update_speed 100 initial)) = Some 0.02%float
  ∧ (0.02 <? 0.04)%float = true.
Proof.
  assert (H50 : 0 < 50 ≤ 100) by lia.
  assert (H100 : 50 < 100 ≤ 100) by lia.
  assert (Hp : step_interval (current_speed (update_speed 50 initial))
               = Some 0.04%float) by (vm_compute; reflexivity).
  assert (Hp' : step_interval (current_speed (update_speed 100 initial))
                = Some 0.02%float) by (vm_compute; reflexivity).
  destruct (pulse_period_of_speed initial 50 H50) as (Hspec & _ & Hfaster).
  repeat (split; [assumption |]).
  exact (Hfaster 100 0.04%float 0.02%float H100 Hp Hp').
Defined.

(** Outside the slider's positions the formula can fail: at the smallest
    positive float the inner quotient underflows to zero and the outer
    division raises. *)
Lemma step_interval_underflow : step_interval 5e-324 = None.
Proof. vm_compute. reflexivity. Qed.


(** ** The steps-per-second estimate *)

Lemma last_cons_default (x d d' : float) (l : list float) :
  List.last (x :: l) d = List.last (x :: l) d'.
Proof.
  revert x. induction l as [| y l IH]; intros x; [reflexivity |].
  change (List.last (y :: l) d = List.last (y :: l) d'). apply IH.
Qed.

Lemma steps_per_sec_spec (h : list float) :
  steps_per_sec h = spec_steps_per_sec h.
Proof.
  destruct h as [| oldest [| second rest]]; [reflexivity | reflexivity |].
  unfold steps_per_sec, spec_steps_per_sec.
  change (1 <? length (oldest :: second :: rest))%nat with true.
  cbv iota. change (List.hd 0%float (oldest :: second :: rest)) with oldest.
  rewrite (last_cons_default oldest 0%float oldest). reflexivity.
Qed.

(** C7, with the running flag: while the flag is set, the status refresh shows
    (count-1)/(newest-oldest) when the ring buffer holds at least two
    timestamps of positive span and 0 otherwise, so 10.0 for
    [0.0, 0.1, 0.2] and 0 below two entries; with the flag clear it shows
    0 whatever the buffer holds. *)
Theorem status_rate_when_running (s : motor_state) :
  (stepper_running s = true →
     shown_rate (update_status s) = spec_steps_per_sec (step_history s)
     ∧ (step_history s = [0.0; 0.1; 0.2]%float →
        shown_rate (update_status s) = Py.Float 10)
     ∧ ((length (step_history s) < 2)%nat →
        shown_rate (update_status s) = Py.Int 0))
  ∧ (stepper_running s = false → shown_rate (update_status s) = Py.Int 0).
Proof.
  unfold update_status. split; intros Hrun; rewrite Hrun; [| reflexivity].
  cbn [shown_rate]. rewrite steps_per_sec_spec.
  split; [reflexivity | split].
  - intros ->. vm_compute. reflexivity.
  - intros Hlen. destruct (step_history s) as [| a [| b l]];
      [reflexivity | reflexivity | cbn in Hlen; lia].
Qed.

(** The theorem on a running motor with the buffer [0.0, 0.1, 0.2], and
    on the motor as it starts, stopped with an empty buffer. *)
Lemma status_rate_when_running_witness :
  let s := set_step_history [0.0; 0.1; 0.2]%float
             (set_stepper_running true initial) in
  stepper_running s = true
  ∧ step_history s = [0.0; 0.1; 0.2]%float
  ∧ shown_rate (update_status s) = Py.Float 10
  ∧ stepper_running initial = false
  ∧ (length (step_history initial) < 2)%nat
  ∧ shown_rate (update_status initial) = Py.Int 0.
Proof.
  cbv zeta.
  set (s := set_step_history [0.0; 0.1; 0.2]%float
              (set_stepper_running true initial)).
  assert (Hrun : stepper_running s = true) by reflexivity.
  assert (Hbuf : step_history s = [0.0; 0.1; 0.2]%float) by reflexivity.
  assert (Hstop : stepper_running initial = false) by reflexivity.
  destruct (proj1 (status_rate_when_running s) Hrun) as (_ & Hten & _).
  repeat (split; [assumption |]).
  split; [exact (Hten Hbuf) |].
  split; [exact Hstop |]. split; [cbn; lia |].
  exact (proj2 (status_rate_when_running initial) Hstop).
Defined.

(** C7 without the running flag does not hold: once the motor is
    stopped with three pulses half a second apart in the buffer, the
    formula gives 2.0 and the status line shows 0; and the same with the
    buffer [0.0, 0.1, 0.2] itself. *)
Lemma status_rate_stopped_counterexample :
  let s := run [MoveSlider 50; ApplyDirection "Forward" 50;
                PulseStep 0 1; PulseStep 0 1.5; PulseStep 0 2;
                EmergencyStop] initial in
  let s' := set_step_history [0.0; 0.1; 0.2]%float initial in
  (step_history s = [1; 1.5; 2]%float
   ∧ spec_steps_per_sec (step_history s) = Py.Float 2
   ∧ shown_rate (update_status s) = Py.Int 0
   ∧ shown_rate (update_status s) ≠ spec_steps_per_sec (step_history s))
  ∧ (spec_steps_per_sec (step_history s') = Py.Float 10
     ∧ shown_rate (update_status s') = Py.Int 0
     ∧ shown_rate (update_status s') ≠ Py.Float 10).
Proof.
  vm_compute. repeat split; discriminate.
Qed.

(** ** One pulse loop at a time *)

Lemma alive_set_threads (s : motor_state) (l : list thread_status) (t : nat) :
  alive (set_threads l s) t
  = match l !! t with Some Alive => true | _ => false end.
Proof. reflexivity. Qed.

(** The path of [apply_direction] that finds the running flag set: the
    thread [pulse_thread] refers to has returned from its loop by the
    time the handler is done, whatever thread it started meanwhile. *)
Lemma apply_direction_joins (direction : string) (speed : Z)
  (s : motor_state) (t : nat) :
  direction ≠ "Stop" →
  stepper_running s = true →
  pulse_thread s = Some t →
  threads s !! t = Some Alive →
  alive (apply_direction direction speed s) t = false.
Proof.
  intros Hdir Hrun Hthread Halive. unfold apply_direction.
  destruct (String.eqb_spec direction "Stop") as [| _]; [done |].
  rewrite Hrun. cbn [pulse_thread set_stepper_running]. rewrite Hthread.
  unfold thread_join. cbn [threads stepper_running set_stepper_running].
  rewrite Halive.
  assert (Hlt : (t < length (threads s))%nat)
    by (apply lookup_lt_is_Some; eauto).
  assert (Hfin : (<[t := Finished]> (threads s)) !! t = Some Finished)
    by (apply list_lookup_insert_eq; done).
  destruct (String.eqb direction "Forward"),
    (String.eqb direction "Reverse"), (0 <? speed);
    unfold thread_start, alive; cbn;
    rewrite ?lookup_app_l by (rewrite length_insert; done);
    rewrite Hfin; reflexivity.
Qed.

(** On that path no more than one loop is left: if only the thread
    [pulse_thread] refers to was in its loop, then after the handler only
    the thread it started, if any, is. *)
Lemma apply_direction_one_loop (direction : string) (speed : Z)
  (s : motor_state) (t : nat) :
  direction ≠ "Stop" →
  stepper_running s = true →
  pulse_thread s = Some t →
  (∀ u, alive s u = true → u = t) →
  ∀ u, alive (apply_direction direction speed s) u = true →
       u = length (threads s) ∧ 0 < speed.
Proof.
  intros Hdir Hrun Hthread Honly u. unfold apply_direction.
  destruct (String.eqb_spec direction "Stop") as [| _]; [done |].
  rewrite Hrun. cbn [pulse_thread set_stepper_running]. rewrite Hthread.
  set (joined := thread_join t (set_stepper_running false s)).
  assert (Hjoined : ∀ v, alive joined v = false).
  { intros v. subst joined. unfold thread_join.
    cbn [threads stepper_running set_stepper_running].
    destruct (threads s !! t) as [[|] |] eqn:Ht.
    - rewrite alive_set_threads.
      destruct (decide (v = t)) as [-> | Hne].
      + rewrite list_lookup_insert_eq; [done |].
        apply lookup_lt_is_Some; eauto.
      + rewrite list_lookup_insert_ne by done.
        specialize (Honly v). unfold alive in Honly.
        destruct (threads s !! v) as [[|] |]; [| done | done].
        exfalso. apply Hne, Honly. reflexivity.
    - specialize (Honly v). unfold alive in *.
      cbn [threads set_stepper_running].
      destruct (threads s !! v) as [[|] |] eqn:Hv; [| done | done].
      rewrite (Honly eq_refl) in Hv. congruence.
    - specialize (Honly v). unfold alive in *.
      cbn [threads set_stepper_running].
      destruct (threads s !! v) as [[|] |] eqn:Hv; [| done | done].
      rewrite (Honly eq_refl) in Hv. congruence. }
  assert (Hlen : length (threads joined) = length (threads s)).
  { subst joined. unfold thread_join.
    cbn [threads stepper_running set_stepper_running].
    destruct (threads s !! t) as [[|] |]; cbn; rewrite ?length_insert; done. }
  assert (Hany : ∀ s' : motor_state, threads s' = threads joined →
            alive (if 0 <? speed
                   then thread_start (set_stepper_running true
                                        (set_enable_pin false s'))
                   else set_enable_pin false s') u = true →
            u = length (threads s) ∧ 0 < speed).
  { intros s' Hs'. destruct (Z.ltb_spec 0 speed) as [Hpos | Hnpos].
    - unfold thread_start, alive. cbn. rewrite Hs'. intros Hu.
      destruct (decide (u < length (threads joined))%nat) as [Hin | Hout].
      + rewrite lookup_app_l in Hu by done.
        specialize (Hjoined u). unfold alive in Hjoined.
        destruct (threads joined !! u) as [[|] |]; done.
      + destruct (decide (u = length (threads joined))) as [-> | Hne];
          [lia |].
        rewrite lookup_ge_None_2 in Hu; [done |].
        rewrite length_app. cbn. lia.
    - unfold alive. cbn. rewrite Hs'. intros Hu.
      specialize (Hjoined u). unfold alive in Hjoined.
      destruct (threads joined !! u) as [[|] |]; done. }
  destruct (String.eqb direction "Forward");
    [| destruct (String.eqb direction "Reverse")];
    apply Hany; reflexivity.
Qed.

(** C3: the emergency stop clears the flag without joining, so a
    direction applied next finds the flag clear, skips the join and
    starts a second loop while the first, not yet back at its test, is
    still in its own; the first then sees the flag set again and both
    go on pulsing. *)
Theorem stop_then_apply_two_loops :
  let s := run [MoveSlider 50; ApplyDirection "Forward" 50;
                EmergencyStop; ApplyDirection "Reverse" 50] initial in
  active_loops s = [0; 1]%nat
  ∧ stepper_running s = true
  ∧ pulse_thread s = Some 1%nat
  ∧ (∀ now, active_loops (pulse_step 0 now s) = [0; 1]%nat
            ∧ active_loops (pulse_step 1 now s) = [0; 1]%nat)
  ∧ step_history (run [PulseStep 0 1; PulseStep 1 2] s) = [1; 2]%float.
Proof.
  assert (Hs : run [MoveSlider 50; ApplyDirection "Forward" 50;
                    EmergencyStop; ApplyDirection "Reverse" 50] initial
               = MotorState true "Reverse" 50 (Some 1%nat) 0 [] false false
                   false [Alive; Alive])
    by (vm_compute; reflexivity).
  cbv zeta. rewrite Hs. clear Hs.
  split; [reflexivity |]. split; [reflexivity |]. split; [reflexivity |].
  split; [| vm_compute; reflexivity].
  assert (Hp : step_interval 50 = Some 0.04%float)
    by (vm_compute; reflexivity).
  intros now. unfold pulse_step, pulse_body.
  cbn [threads stepper_running current_speed last_step_time lookup
       list_lookup].
  change (0 <? 50)%float with true. rewrite Hp. cbn [mbind option_bind].
  destruct (0.04 <=? now - 0)%float; split; reflexivity.
Qed.

End MotorProperties.

(** * Properties of the sensor side *)

Section SensorProperties.

Import Sensor.

Context {W : Type} `{!Builtins} `{!Adc W}.

Implicit Types s : state W.

(** The state a handler leaves behind. *)
Local Abbreviation exec m s := (snd (m s)).

Local Abbreviation preserves := (Sensor.preserves (W:=W)).
Local Abbreviation keeps_selection := (Sensor.keeps_selection (W:=W)).

(** ** Channel selection *)

Lemma ticked_from_nil (f : nat → nat) (vars : list Z) :
  (List.filter (λ iv : nat * Z, (iv.2 =? 1)%Z)
     (imap (λ i v, (f i, v)) vars)).*1 = []
  ↔ Forall (λ v, v ≠ 1%Z) vars.
Proof.
  revert f. induction vars as [| v vars IH]; intros f; cbn.
  - split; [constructor | done].
  - destruct (Z.eqb_spec v 1) as [-> | Hne]; cbn.
    + split; [done | intros Hall; inversion Hall; done].
    + rewrite (IH (f ∘ S)). split.
      * intros Hall. constructor; done.
      * intros Hall. inversion Hall; done.
Qed.

Lemma checked_nil (vars : list Z) :
  checked vars = [] ↔ Forall (λ v, v ≠ 1%Z) vars.
Proof. apply (ticked_from_nil id). Qed.

Lemma checked_first_only (vars : list Z) :
  Forall (λ v, v ≠ 1%Z) vars → checked (1%Z :: vars) = [0%nat].
Proof.
  intros Hall. unfold checked. cbn. f_equal.
  apply (ticked_from_nil S). exact Hall.
Qed.

(** Unfolding a handler down to the state it returns. *)
Ltac act :=
  cbv [mbind M_bind mret M_ret gets modify raise when try_except
       messagebox print any_exception];
  cbn.

Lemma update_selected_channels_some s :
  checked (channel_vars s) ≠ [] →
  update_selected_channels s
  = (Ok tt, set_selected_channels (checked (channel_vars s)) s).
Proof.
  intros Hsome. unfold update_selected_channels. act.
  rewrite bool_decide_eq_false_2 by done. reflexivity.
Qed.

Lemma update_selected_channels_none s (v : Z) (vars : list Z) :
  channel_vars s = v :: vars →
  checked (v :: vars) = [] →
  update_selected_channels s
  = (Ok tt,
     set_selected_channels [0%nat]
       (set_channel_vars (1%Z :: vars)
          (set_dialogs
             (dialogs s ++ [WarningBox "Channel Selection"
                              "At least one channel must be selected"])
             (set_selected_channels [] s)))).
Proof.
  intros Hvars Hnone. unfold update_selected_channels. act.
  rewrite Hvars, Hnone. reflexivity.
Qed.

(** C4: a click on a channel checkbox always leaves a non-empty
    selection, equal to the list of ticked boxes; when the click leaves
    no box ticked the handler ticks channel 0 again and the selection is
    exactly [0]. *)
Theorem selection_never_empty s (i : nat) :
  channel_vars s ≠ [] →
  let r := click_channel i s in
  r.1 = Ok tt
  ∧ selected_channels r.2 ≠ []
  ∧ selected_channels r.2 = checked (channel_vars r.2)
  ∧ (Forall (λ v, v ≠ 1%Z)
       (alter (λ v, if (v =? 1)%Z then 0%Z else 1%Z) i (channel_vars s)) →
     selected_channels r.2 = [0%nat]
     ∧ channel_vars r.2 !! 0%nat = Some 1%Z).
Proof.
  intros Hvars. cbv zeta.
  set (vars := alter (λ v, if (v =? 1)%Z then 0%Z else 1%Z) i (channel_vars s)).
  set (s1 := set_channel_vars vars s).
  assert (Hclick : click_channel i s = update_selected_channels s1)
    by reflexivity.
  rewrite Hclick.
  assert (Hvars' : vars ≠ []).
  { subst vars. intros Hnil. apply Hvars.
    apply (f_equal length) in Hnil. rewrite length_alter in Hnil.
    destruct (channel_vars s); [done | discriminate]. }
  destruct (decide (checked vars = [])) as [Hnone | Hsome].
  - destruct vars as [| v rest] eqn:Hv; [done |].
    rewrite (update_selected_channels_none s1 v rest) by done.
    cbn [fst snd selected_channels channel_vars set_selected_channels
         set_channel_vars set_dialogs].
    apply checked_nil in Hnone. inversion Hnone as [| ? ? _ Hrest]; subst.
    rewrite (checked_first_only rest Hrest). done.
  - rewrite (update_selected_channels_some s1) by done.
    cbn [fst snd selected_channels channel_vars set_selected_channels].
    split; [done |]. split; [done |]. split; [done |].
    intros Hall. apply checked_nil in Hall. done.
Qed.


(** ** The sampling interval *)

Lemma positive_not_le_zero (x : float) :
  (0 <? x)%float = true → (x <=? 0)%float = false.
Proof.
  rewrite FloatAxioms.ltb_spec, FloatAxioms.leb_spec.
  change (Prim2SF 0) with (S754_zero false).
  unfold SFltb, SFleb.
  destruct (Prim2SF x) as [[|] | [|] | | [|] m e]; cbn; congruence.
Qed.

(** The texts the handler tells apart: one that does not parse, or
    parses to a value of 0 or less, is rejected: the stored interval
    keeps its value, an error box is shown and the entry is set back to
    the stored interval; one that parses to a positive value replaces
    the stored interval. *)
Lemma interval_validation s :
  let r := update_acquisition_interval s in
  r.1 = Ok tt
  ∧ (((∃ msg, py_float (interval_entry s) = inl msg)
      ∨ ∃ x, py_float (interval_entry s) = inr x ∧ (x <=? 0)%float = true) →
     delta_t r.2 = delta_t s
     ∧ (∃ message,
          dialogs r.2 = dialogs s ++ [ErrorBox "Invalid Interval" message])
     ∧ interval_entry r.2 = py_str (delta_t s))
  ∧ (∀ x, py_float (interval_entry s) = inr x → (0 <? x)%float = true →
     delta_t r.2 = x
     ∧ dialogs r.2 = dialogs s
     ∧ interval_entry r.2 = interval_entry s).
Proof.
  cbv zeta. unfold update_acquisition_interval. act.
  destruct (py_float (interval_entry s)) as [msg | x] eqn:Hparse; cbn.
  - split; [done |]. split; [| intros ? [=]]. intros _. eauto.
  - destruct (x <=? 0)%float eqn:Hle; cbn.
    + split; [done |]. split; [intros _; eauto |].
      intros ? [= <-] Hpos. apply positive_not_le_zero in Hpos. congruence.
    + split; [done |]. split.
      * intros [[? [=]] | (y & [= <-] & Hy)]. congruence.
      * intros ? [= <-] _. done.
Qed.

(** A text that parses to NaN is neither 0 or less nor positive; the
    handler takes it, and the stored interval becomes NaN. *)
Lemma interval_nan_is_stored s :
  py_float (interval_entry s) = inr nan →
  exec update_acquisition_interval s = set_delta_t nan s.
Proof.
  intros Hnan. unfold update_acquisition_interval. act.
  rewrite Hnan. reflexivity.
Qed.

(** No comparison with NaN holds. *)
Lemma nan_not_le (y : float) : (nan <=? y)%float = false.
Proof.
  rewrite FloatAxioms.leb_spec.
  replace (Prim2SF nan) with S754_nan by reflexivity.
  reflexivity.
Qed.

(** C9 does not hold for a text that parses to NaN, as "nan" does: the
    value is not a positive number, yet the test [new_delta <= 0] lets
    it through; the handler completes, stores NaN as the interval,
    shows no error box and leaves the entry as typed.  From then on no
    round of the sampler is due, whatever the clock reads. *)
Theorem interval_nan_is_accepted s :
  py_float (interval_entry s) = inr nan →
  let r := update_acquisition_interval s in
  (0 <? nan)%float = false
  ∧ (nan <=? 0)%float = false
  ∧ r.1 = Ok tt
  ∧ delta_t r.2 = nan
  ∧ dialogs r.2 = dialogs s
  ∧ interval_entry r.2 = interval_entry s
  ∧ ∀ now, sensor_tick now r.2 = (Ok tt, r.2).
Proof.
  intros Hnan. cbv zeta.
  split; [reflexivity |]. split; [reflexivity |].
  assert (Hrun : update_acquisition_interval s = (Ok tt, set_delta_t nan s)).
  { unfold update_acquisition_interval. act. rewrite Hnan. reflexivity. }
  rewrite Hrun. cbn [fst snd delta_t dialogs interval_entry set_delta_t].
  repeat (split; [reflexivity |]).
  intros now. unfold sensor_tick. cbv [mbind M_bind gets when].
  cbn [delta_t last_reading_time set_delta_t].
  rewrite nan_not_le. reflexivity.
Qed.

(** ** Rows and flushes *)

Lemma state_eta s :
  set_objects (objects s) (set_disk (disk s) s) = s.
Proof. destruct s; reflexivity. Qed.

(** Writing a row and flushing touches the file objects and the disk
    only, whether it succeeds or raises. *)
Lemma writerow_flush_frame (r : row) s :
  ∃ res objs d,
    (csv_writer_writerow r;; output_file_flush) s
    = (res, set_objects objs (set_disk d s)).
Proof.
  unfold csv_writer_writerow, output_file_flush, writerow, flush,
    get_object, put_object. act.
  destruct (csv_writer s) as [o |]; cbn;
    [| eexists _, _, _; rewrite state_eta; reflexivity].
  destruct (objects s !! o) as [f |]; cbn;
    [| eexists _, _, _; rewrite state_eta; reflexivity].
  destruct (f_closed f); cbn;
    [eexists _, _, _; rewrite state_eta; reflexivity |].
  destruct (output_file s) as [o' |]; cbn;
    [| eexists _, _, (disk s); reflexivity].
  destruct (<[o:=_]> (objects s) !! o') as [f' |]; cbn;
    [| eexists _, _, (disk s); reflexivity].
  destruct (f_closed f'); cbn; eexists _, _, _; reflexivity.
Qed.

(** With the writer and [output_file] on the same open file object, the
    row goes through the buffer to the disk: the file on disk gains what
    was buffered and the row, and the buffer is left empty. *)
Lemma writerow_flush_open (r : row) s (o : nat) (f : fileobj) :
  csv_writer s = Some o →
  output_file s = Some o →
  objects s !! o = Some f →
  f_closed f = false →
  (csv_writer_writerow r;; output_file_flush) s
  = (Ok tt,
     set_objects (<[o := FileObj (f_name f) false []]> (objects s))
       (set_disk
          (<[f_name f := default [] (disk s !! f_name f)
                          ++ (f_buffer f ++ [r])]> (disk s))
          s)).
Proof.
  intros Hw Hf Ho Hopen.
  assert (Hlt : (o < length (objects s))%nat)
    by (apply lookup_lt_is_Some; eauto).
  unfold csv_writer_writerow, output_file_flush, writerow, flush,
    get_object, put_object. act.
  rewrite Hw, Ho. cbn. rewrite Hopen. cbn. rewrite Hf. cbn.
  rewrite list_lookup_insert_eq by done. cbn.
  rewrite list_insert_insert_eq. reflexivity.
Qed.

(** ** Reading the channels *)

(** One turn of the loop of [read_sensors], by the outcome of the
    conversion. *)
Lemma read_sensors_loop_cons (readings : list float) (ch : nat)
  (channels : list nat) s :
  read_sensors_loop readings (ch :: channels) s
  = match voltage ch (adc s) with
    | (inr v, w) => read_sensors_loop (readings ++ [v]) channels (set_adc w s)
    | (inl e, w) =>
        read_sensors_loop (readings ++ [0%float]) channels
          (set_stdout
             (stdout s ++ ["Error reading channel " +:+ pretty ch +:+ ": "
                           +:+ str_exn e])
             (set_adc w s))
    end.
Proof.
  cbn [read_sensors_loop]. unfold read_channel. act.
  destruct (voltage ch (adc s)) as [[e | v] w]; reflexivity.
Qed.

(** The loop never raises; it only adds to the readings it was entered
    with, and of the state it touches the converter and the printed
    lines only. *)
Lemma read_sensors_loop_frame (channels : list nat) :
  ∀ (readings : list float) s,
  ∃ (more : list float) (w : W) (lines : list string),
    read_sensors_loop readings channels s
    = (Ok (readings ++ more), set_stdout lines (set_adc w s))
    ∧ read_sensors channels s
      = (Ok more, set_stdout lines (set_adc w s))
    ∧ length more = length channels.
Proof.
  induction channels as [| ch channels IH]; intros readings s.
  - exists [], (adc s), (stdout s). rewrite app_nil_r.
    destruct s; done.
  - unfold read_sensors. rewrite !read_sensors_loop_cons.
    destruct (voltage ch (adc s)) as [[e | v] w].
    + set (s1 := set_stdout _ _).
      destruct (IH (readings ++ [0%float]) s1) as (more & w' & lines & H1 & H2 & Hlen).
      destruct (IH ([] ++ [0%float]) s1) as (more' & w'' & lines' & H1' & H2' & _).
      rewrite H2 in H2'. injection H2' as <- <- <-.
      exists (0%float :: more), w', lines.
      rewrite H1, H1', <- app_assoc. cbn. rewrite Hlen. done.
    + set (s1 := set_adc w s).
      destruct (IH (readings ++ [v]) s1) as (more & w' & lines & H1 & H2 & Hlen).
      destruct (IH ([] ++ [v]) s1) as (more' & w'' & lines' & H1' & H2' & _).
      rewrite H2 in H2'. injection H2' as <- <- <-.
      exists (v :: more), w', lines.
      rewrite H1, H1', <- app_assoc. cbn. rewrite Hlen. done.
Qed.

Lemma read_sensors_nil s : read_sensors [] s = (Ok [], s).
Proof. reflexivity. Qed.

Lemma read_sensors_cons (ch : nat) (channels : list nat) s :
  ∃ more s',
    read_sensors channels (after_conversion ch s) = (Ok more, s')
    ∧ read_sensors (ch :: channels) s
      = (Ok (recorded (voltage ch (adc s)).1 :: more), s').
Proof.
  unfold read_sensors at 2. rewrite read_sensors_loop_cons.
  unfold after_conversion.
  destruct (voltage ch (adc s)) as [[e | v] w]; cbn [fst recorded];
    match goal with |- context [read_sensors channels ?s1] =>
      destruct (read_sensors_loop_frame channels ([] ++ [recorded (inl e)]) s1)
        as (more & w' & lines & H1 & H2 & _)
      || destruct (read_sensors_loop_frame channels ([] ++ [v]) s1)
        as (more & w' & lines & H1 & H2 & _)
    end; eexists _, _; (split; [exact H2 | exact H1]).
Qed.

Lemma read_sensors_app (pre post : list nat) :
  ∀ s, ∃ before after s1 s2,
    read_sensors pre s = (Ok before, s1)
    ∧ read_sensors post s1 = (Ok after, s2)
    ∧ read_sensors (pre ++ post) s = (Ok (before ++ after), s2).
Proof.
  induction pre as [| ch pre IH]; intros s.
  - destruct (read_sensors_loop_frame post [] s)
      as (after & w & lines & _ & Hpost & _).
    exists [], after, s, (set_stdout lines (set_adc w s)). done.
  - destruct (read_sensors_cons ch pre s) as (more & s1 & Hpre & Hcons).
    destruct (read_sensors_cons ch (pre ++ post) s)
      as (more' & s2 & Hall & Hcons').
    destruct (IH (after_conversion ch s))
      as (before & after & s1' & s2' & Hb & Ha & Hba).
    rewrite Hpre in Hb. injection Hb as <- <-.
    rewrite Hall in Hba. injection Hba as -> <-.
    exists (recorded (voltage ch (adc s)).1 :: more), after, s1, s2.
    rewrite <- app_comm_cons. done.
Qed.

(** C10: [read_sensors] returns, for any list of channels, as many
    readings as channels; the reading at position k is the voltage the
    conversion on the channel at position k returned, made when the
    channels before it had been read, or 0.0 if that conversion raised;
    for no channel it is the empty list. *)
Theorem read_sensors_positions (channels : list nat) s :
  ∃ readings,
    (read_sensors channels s).1 = Ok readings
    ∧ length readings = length channels
    ∧ (channels = [] → readings = [])
    ∧ ∀ k ch, channels !! k = Some ch →
        readings !! k
        = Some (match (voltage ch (adc (read_sensors (take k channels) s).2)).1
                with
                | inr v => v
                | inl _ => 0%float
                end).
Proof.
  destruct (read_sensors_loop_frame channels [] s)
    as (readings & w & lines & _ & Hread & Hlen).
  exists readings. rewrite Hread. split; [done |]. split; [done |].
  split; [intros ->; by destruct readings |].
  intros k ch Hk.
  pose proof (take_drop_middle channels k ch Hk) as Hsplit.
  destruct (read_sensors_app (take k channels) (ch :: drop (S k) channels) s)
    as (before & after & s1 & s2 & Hb & Ha & Hba).
  rewrite Hsplit, Hread in Hba. injection Hba as -> _.
  destruct (read_sensors_loop_frame (take k channels) [] s)
    as (before' & w1 & lines1 & _ & Hb' & Hlenb).
  rewrite Hb in Hb'. injection Hb' as <- ->.
  destruct (read_sensors_cons ch (drop (S k) channels)
              (set_stdout lines1 (set_adc w1 s)))
    as (more & s' & _ & Hcons).
  rewrite Ha in Hcons. injection Hcons as -> _.
  rewrite Hb. cbn [snd].
  rewrite lookup_app_r by (rewrite Hlenb, length_take; lia).
  rewrite Hlenb, length_take.
  assert (Hk' : (k < length channels)%nat)
    by (apply lookup_lt_is_Some; eauto).
  replace (k - k `min` length channels)%nat with 0%nat by lia.
  reflexivity.
Qed.

(** Position by position: what [read_sensors] returns at position k is
    the outcome of the conversion on the channel at position k, made on
    the converter as the first k channels left it. *)
Lemma read_sensors_lookup (channels : list nat) s (readings : list float)
  s' :
  read_sensors channels s = (Ok readings, s') →
  ∀ k ch, channels !! k = Some ch →
    readings !! k
    = Some (match (voltage ch (adc (read_sensors (take k channels) s).2)).1
            with
            | inr v => v
            | inl _ => 0%float
            end).
Proof.
  intros Hread k ch Hk.
  pose proof (take_drop_middle channels k ch Hk) as Hsplit.
  destruct (read_sensors_app (take k channels) (ch :: drop (S k) channels) s)
    as (before & after & s1 & s2 & Hb & Ha & Hba).
  rewrite Hsplit, Hread in Hba. injection Hba as -> _.
  destruct (read_sensors_loop_frame (take k channels) [] s)
    as (before' & w1 & lines1 & _ & Hb' & Hlenb).
  rewrite Hb in Hb'. injection Hb' as <- ->.
  destruct (read_sensors_cons ch (drop (S k) channels)
              (set_stdout lines1 (set_adc w1 s)))
    as (more & s'' & _ & Hcons).
  rewrite Ha in Hcons. injection Hcons as -> _.
  rewrite Hb. cbn [snd].
  rewrite lookup_app_r by (rewrite Hlenb, length_take; lia).
  rewrite Hlenb, length_take.
  assert (Hk' : (k < length channels)%nat)
    by (apply lookup_lt_is_Some; eauto).
  replace (k - k `min` length channels)%nat with 0%nat by lia.
  reflexivity.
Qed.

(** A round of the sampler that is due: the readings and the rounded
    elapsed time join the series, a row is written and flushed if a
    recording is on, and only an exception in that stops
    [last_reading_time] from moving. *)
Lemma sensor_tick_due (now : float) s (readings : list float) s1 :
  (delta_t s <=? now - last_reading_time s)%float = true →
  read_sensors (selected_channels s) s = (Ok readings, s1) →
  sensor_tick now s
  = let elapsed := py_round (now - start_time s1) 3 in
    let s2 :=
      set_sensor_data_voltages (sensor_data_voltages s1 ++ [readings])
        (set_sensor_data_time (sensor_data_time s1 ++ [elapsed]) s1) in
    if is_recording s1 && truthy (output_file s1) && truthy (csv_writer s1)
    then
      match (csv_writer_writerow
               (CNum elapsed :: map (λ v, CNum (py_round v 3)) readings);;
             output_file_flush) s2 with
      | (Ok _, s3) => (Ok tt, set_last_reading_time now s3)
      | (Raise e, s3) =>
          (Ok tt,
           set_stdout
             (stdout s3 ++ ["Error in acquisition loop: " +:+ str_exn e]) s3)
      end
    else (Ok tt, set_last_reading_time now s2).
Proof.
  intros Hdue Hread. unfold sensor_tick.
  cbv [mbind M_bind mret M_ret gets modify raise when try_except
       print any_exception].
  rewrite Hdue, Hread. cbn [fst snd].
  cbn [is_recording output_file csv_writer set_sensor_data_voltages
       set_sensor_data_time].
  destruct (is_recording s1 && truthy (output_file s1)
            && truthy (csv_writer s1)); [| reflexivity].
  cbn [sensor_data_voltages set_sensor_data_time].
  destruct (csv_writer_writerow _ _) as [[[] | e] s'];
    [destruct (output_file_flush s') as [[[] | e] s''] |]; reflexivity.
Qed.

(** Whatever becomes of the row, a due round appends the readings to the
    series. *)
Lemma sensor_tick_series (now : float) s (readings : list float) s1 :
  (delta_t s <=? now - last_reading_time s)%float = true →
  read_sensors (selected_channels s) s = (Ok readings, s1) →
  sensor_data_voltages (exec (sensor_tick now) s)
  = sensor_data_voltages s ++ [readings].
Proof.
  intros Hdue Hread. rewrite (sensor_tick_due now s readings s1 Hdue Hread).
  destruct (read_sensors_loop_frame (selected_channels s) [] s)
    as (readings' & w & lines & _ & Hread' & _).
  rewrite Hread in Hread'. injection Hread' as <- ->.
  cbv zeta.
  match goal with |- context [if ?b then _ else _] => destruct b end;
    [| reflexivity].
  match goal with |- context [(csv_writer_writerow ?r;; output_file_flush) ?s2] =>
    destruct (writerow_flush_frame r s2) as (res & objs & d & Hrow);
    rewrite Hrow
  end.
  destruct res as [[] | e]; reflexivity.
Qed.


(** C6: when the conversion on one selected channel raises, [read_sensors]
    records 0.0 at its position and goes on: the channels before and
    after it are read as they would be on their own, the reading at
    every position is what the conversion on the channel at that
    position returned (its voltage, or 0.0 if that conversion raised
    too), and the round of the sampler is not cut short, the list of
    readings being appended to the series. *)
Theorem failed_read_is_isolated (pre post : list nat) (ch : nat) s (e : exn) :
  let s1 := (read_sensors pre s).2 in
  (voltage ch (adc s1)).1 = inl e →
  ∃ before after,
    (read_sensors pre s).1 = Ok before
    ∧ (read_sensors post (after_conversion ch s1)).1 = Ok after
    ∧ (read_sensors (pre ++ ch :: post) s).1 = Ok (before ++ 0%float :: after)
    ∧ length before = length pre
    ∧ length after = length post
    ∧ (∀ now,
        selected_channels s = pre ++ ch :: post →
        (delta_t s <=? now - last_reading_time s)%float = true →
        sensor_data_voltages (exec (sensor_tick now) s)
        = sensor_data_voltages s ++ [before ++ 0%float :: after])
    ∧ ∀ k c,
        (pre ++ ch :: post) !! k = Some c →
        (before ++ 0%float :: after) !! k
        = Some (match (voltage c
                         (adc (read_sensors (take k (pre ++ ch :: post))
                                 s).2)).1
                with
                | inr v => v
                | inl _ => 0%float
                end).
Proof.
  cbv zeta. intros Hfail.
  destruct (read_sensors_app pre (ch :: post) s)
    as (before & rest & s1 & s2 & Hpre & Hrest & Hall).
  rewrite Hpre in Hfail. cbn [snd] in Hfail.
  destruct (read_sensors_cons ch post s1) as (after & s2' & Hpost & Hcons).
  rewrite Hrest in Hcons. injection Hcons as -> <-.
  rewrite Hfail in Hall. cbn [recorded] in Hall.
  destruct (read_sensors_loop_frame pre [] s)
    as (before' & w1 & lines1 & _ & Hpre' & Hlenb).
  rewrite Hpre in Hpre'. injection Hpre' as <- ->.
  destruct (read_sensors_loop_frame post []
              (after_conversion ch (set_stdout lines1 (set_adc w1 s))))
    as (after' & w2 & lines2 & _ & Hpost' & Hlena).
  rewrite Hpost in Hpost'. injection Hpost' as <- ->.
  exists before, after. rewrite Hpre, Hall. cbn [fst snd]. rewrite Hpost.
  split; [done |]. split; [done |]. split; [done |]. split; [done |].
  split; [done |]. split.
  - intros now Hsel Hdue.
    eapply sensor_tick_series; [exact Hdue |]. rewrite Hsel. exact Hall.
  - exact (read_sensors_lookup _ _ _ _ Hall).
Qed.

(** C8: a due round of the sampler that finds a recording on writes one
    row, the elapsed time then one voltage per selected channel, each
    through round(., 3), and flushes it at once: the row is on disk after
    everything written before it and the buffer is empty.  A round that
    finds no recording on writes nothing. *)
Theorem recorded_row_is_flushed (now : float) s :
  (delta_t s <=? now - last_reading_time s)%float = true →
  ∃ readings,
    (read_sensors (selected_channels s) s).1 = Ok readings
    ∧ length readings = length (selected_channels s)
    ∧ (∀ o f,
         is_recording s = true →
         output_file s = Some o →
         csv_writer s = Some o →
         objects s !! o = Some f →
         f_closed f = false →
         disk (exec (sensor_tick now) s) !! f_name f
         = Some (default [] (disk s !! f_name f) ++ f_buffer f
                 ++ [CNum (py_round (now - start_time s) 3)
                     :: map (λ v, CNum (py_round v 3)) readings])
         ∧ objects (exec (sensor_tick now) s) !! o
           = Some (FileObj (f_name f) false [])
         ∧ last_reading_time (exec (sensor_tick now) s) = now)
    ∧ (is_recording s = false →
       disk (exec (sensor_tick now) s) = disk s
       ∧ objects (exec (sensor_tick now) s) = objects s).
Proof.
  intros Hdue.
  destruct (read_sensors_loop_frame (selected_channels s) [] s)
    as (readings & w & lines & _ & Hread & Hlen).
  exists readings. rewrite Hread. split; [done |]. split; [done |].
  rewrite (sensor_tick_due now s readings _ Hdue Hread). cbv zeta.
  cbn [is_recording output_file csv_writer start_time sensor_data_time
       sensor_data_voltages set_stdout set_adc].
  split.
  - intros o f Hrec Hfile Hwriter Hobj Hopen.
    rewrite Hrec, Hfile, Hwriter. cbn [andb truthy].
    erewrite writerow_flush_open by done.
    cbn [snd disk objects set_last_reading_time set_objects set_disk
         set_sensor_data_voltages set_sensor_data_time set_stdout set_adc
         last_reading_time].
    rewrite lookup_insert_eq.
    rewrite list_lookup_insert_eq by (apply lookup_lt_is_Some; eauto).
    done.
  - intros Hrec. rewrite Hrec. done.
Qed.

(** ** Recording on and off *)

Lemma toggle_recording_stop (now : float) (filename : string)
  (open_error : option string) s :
  is_recording s = true →
  toggle_recording now filename open_error s
  = (Ok tt, set_record_button "Start Recording" (set_is_recording false s)).
Proof.
  intros Hrec. unfold toggle_recording. act. rewrite Hrec. reflexivity.
Qed.

Lemma toggle_recording_cancelled (now : float)
  (open_error : option string) s :
  is_recording s = false →
  output_file s = None →
  toggle_recording now "" open_error s = (Ok tt, s).
Proof.
  intros Hrec Hfile. unfold toggle_recording, browse_output_file.
  cbv [mbind M_bind mret M_ret gets modify].
  rewrite Hrec. cbn [negb]. rewrite Hfile. cbn [negb truthy String.eqb].
  rewrite Hfile. reflexivity.
Qed.

Lemma start_recording_open (now : float) s (o : nat) (f : fileobj) :
  output_file s = Some o →
  csv_writer s = Some o →
  objects s !! o = Some f →
  f_closed f = false →
  start_recording now s = (Ok tt, started_on now o f s).
Proof.
  intros Hfile Hwriter Hobj Hopen.
  pose proof (writerow_flush_open (header_row (selected_channels s))
    (set_sensor_data_voltages []
       (set_sensor_data_time [] (set_start_time now s)))
    o f Hwriter Hfile Hobj Hopen) as Hrow.
  unfold start_recording.
  cbv [mbind M_bind mret M_ret gets modify] in Hrow |- *.
  cbn [selected_channels set_sensor_data_voltages set_sensor_data_time
       set_start_time] in Hrow |- *.
  destruct (csv_writer_writerow _ _) as [[[] | e] s1] eqn:Hw.
  - rewrite Hrow. reflexivity.
  - discriminate Hrow.
Qed.

Lemma toggle_recording_start (now : float) (filename : string)
  (open_error : option string) s (o : nat) (f : fileobj) :
  is_recording s = false →
  output_file s = Some o →
  csv_writer s = Some o →
  objects s !! o = Some f →
  f_closed f = false →
  toggle_recording now filename open_error s = (Ok tt, started_on now o f s).
Proof.
  intros Hrec Hfile Hwriter Hobj Hopen. unfold toggle_recording.
  cbv [mbind M_bind mret M_ret gets modify].
  rewrite Hrec. cbn [negb]. rewrite Hfile. cbn [negb truthy].
  by apply start_recording_open.
Qed.

Lemma browse_output_file_idle (filename : string) s :
  filename ≠ "" →
  is_recording s = false →
  output_file s = None →
  browse_output_file filename None s = (Ok tt, browsed filename s).
Proof.
  intros Hname Hrec Hfile. unfold browse_output_file, open_w. act.
  destruct (String.eqb_spec filename "") as [| _]; [done |].
  rewrite Hfile. cbn. rewrite Hrec. reflexivity.
Qed.

Lemma toggle_recording_prompt (now : float) (filename : string) s :
  filename ≠ "" →
  is_recording s = false →
  output_file s = None →
  toggle_recording now filename None s
  = (Ok tt,
     started_on now (length (objects s)) (FileObj filename false [])
       (browsed filename s)).
Proof.
  intros Hname Hrec Hfile. unfold toggle_recording.
  cbv [mbind M_bind mret M_ret gets modify].
  rewrite Hrec. cbn [negb]. rewrite Hfile. cbn [negb truthy].
  rewrite (browse_output_file_idle filename s Hname Hrec Hfile).
  unfold browsed at 1.
  cbn [output_file set_file_label set_csv_writer set_output_file negb truthy].
  apply start_recording_open; try reflexivity.
  unfold browsed.
  cbn [objects set_file_label set_csv_writer set_output_file set_objects].
  rewrite lookup_app_r by done. rewrite Nat.sub_diag. reflexivity.
Qed.

(** C5: starting a recording on the sink that is open, or on the one the
    prompt gives when there is none, sets the time origin to the current
    time, empties the series, writes and flushes the header row, which
    is the cell "Time (s)" followed by one cell "Ch<n> Voltage (V)" for
    each selected channel n, in the order of the selection, and raises
    the flag; with no sink and
    none chosen the state is left as it was; stopping clears the flag
    (and relabels the button) and leaves the file open. *)
Theorem recording_toggle (now : float) (filename : string)
  (open_error : option string) s :
  let r := toggle_recording now filename open_error s in
  (is_recording s = true →
     r = (Ok tt, set_record_button "Start Recording" (set_is_recording false s))
     ∧ is_recording r.2 = false
     ∧ output_file r.2 = output_file s
     ∧ objects r.2 = objects s
     ∧ disk r.2 = disk s)
  ∧ (is_recording s = false → output_file s = None → filename = "" →
     r = (Ok tt, s))
  ∧ (∀ o f,
       is_recording s = false →
       output_file s = Some o →
       csv_writer s = Some o →
       objects s !! o = Some f →
       f_closed f = false →
       r.1 = Ok tt
       ∧ is_recording r.2 = true
       ∧ start_time r.2 = now
       ∧ sensor_data_time r.2 = []
       ∧ sensor_data_voltages r.2 = []
       ∧ disk r.2 !! f_name f
         = Some (default [] (disk s !! f_name f) ++ f_buffer f
                 ++ [CStr "Time (s)"
                       :: map (λ ch, CStr ("Ch" +:+ pretty ch
                                           +:+ " Voltage (V)"))
                            (selected_channels s)])
       ∧ output_file r.2 = Some o
       ∧ objects r.2 !! o = Some (FileObj (f_name f) false []))
  ∧ (is_recording s = false → output_file s = None →
     filename ≠ "" → open_error = None →
       r.1 = Ok tt
       ∧ is_recording r.2 = true
       ∧ start_time r.2 = now
       ∧ sensor_data_time r.2 = []
       ∧ sensor_data_voltages r.2 = []
       ∧ disk r.2 !! filename
         = Some [CStr "Time (s)"
                   :: map (λ ch, CStr ("Ch" +:+ pretty ch
                                       +:+ " Voltage (V)"))
                        (selected_channels s)]
       ∧ ∃ o, output_file r.2 = Some o
              ∧ objects r.2 !! o = Some (FileObj filename false [])).
Proof.
  cbv zeta.
  change (CStr "Time (s)"
            :: map (λ ch, CStr ("Ch" +:+ pretty ch +:+ " Voltage (V)"))
                 (selected_channels s))
    with (header_row (selected_channels s)).
  split; [| split; [| split]].
  - intros Hrec. rewrite toggle_recording_stop by done. done.
  - intros Hrec Hfile ->. by apply toggle_recording_cancelled.
  - intros o f Hrec Hfile Hwriter Hobj Hopen.
    rewrite (toggle_recording_start now filename open_error s o f) by done.
    unfold started_on.
    cbn [fst snd is_recording start_time sensor_data_time output_file
         sensor_data_voltages disk objects set_record_button set_is_recording
         set_objects set_disk set_sensor_data_voltages set_sensor_data_time
         set_start_time].
    rewrite lookup_insert_eq.
    rewrite list_lookup_insert_eq by (apply lookup_lt_is_Some; eauto).
    done.
  - intros Hrec Hfile Hname ->.
    rewrite toggle_recording_prompt by done.
    unfold started_on, browsed.
    cbn [fst snd is_recording start_time sensor_data_time output_file
         sensor_data_voltages disk objects selected_channels f_name f_buffer
         set_record_button set_is_recording set_file_label set_csv_writer
         set_output_file
         set_objects set_disk set_sensor_data_voltages set_sensor_data_time
         set_start_time].
    rewrite !lookup_insert_eq. cbn [default app].
    repeat (split; [reflexivity |]).
    exists (length (objects s)). split; [reflexivity |].
    apply list_lookup_insert_eq. rewrite length_app. cbn. lia.
Qed.

(** C2, as the code has it: toggling the recording off and on again
    without browsing writes the header a second time; after start, stop,
    start the file holds two header rows, each naming the channels
    selected at that start. *)
Theorem restart_writes_header_again (t1 t2 t3 : float) (filename : string)
  (open_error : option string) s (o : nat) (f : fileobj) :
  is_recording s = false →
  output_file s = Some o →
  csv_writer s = Some o →
  objects s !! o = Some f →
  f_closed f = false →
  let s1 := exec (toggle_recording t1 filename open_error) s in
  let s2 := exec (toggle_recording t2 filename open_error) s1 in
  let s3 := exec (toggle_recording t3 filename open_error) s2 in
  let header := header_row (selected_channels s) in
  is_recording s1 = true ∧ is_recording s2 = false ∧ is_recording s3 = true
  ∧ disk s1 !! f_name f
    = Some (default [] (disk s !! f_name f) ++ f_buffer f ++ [header])
  ∧ disk s2 = disk s1
  ∧ disk s3 !! f_name f
    = Some (default [] (disk s !! f_name f) ++ f_buffer f
            ++ [header; header]).
Proof.
  intros Hrec Hfile Hwriter Hobj Hopen. cbv zeta.
  assert (Hlt : (o < length (objects s))%nat)
    by (apply lookup_lt_is_Some; eauto).
  rewrite (toggle_recording_start t1 filename open_error s o f) by done.
  cbn [snd].
  rewrite (toggle_recording_stop t2 filename open_error (started_on t1 o f s))
    by reflexivity.
  cbn [snd].
  set (s2 := set_record_button _ (set_is_recording false _)).
  assert (Hobj2 : objects s2 !! o = Some (FileObj (f_name f) false [])).
  { subst s2. unfold started_on.
    cbn [objects set_record_button set_is_recording set_objects].
    by apply list_lookup_insert_eq. }
  rewrite (toggle_recording_start t3 filename open_error s2 o
             (FileObj (f_name f) false [])) by done.
  cbn [snd]. unfold started_on at 1 3.
  cbn [is_recording disk set_record_button set_is_recording set_objects
       set_disk f_name f_buffer].
  rewrite !lookup_insert_eq.
  subst s2. unfold started_on.
  cbn [is_recording disk selected_channels set_record_button set_is_recording
       set_objects set_disk set_sensor_data_voltages set_sensor_data_time
       set_start_time].
  cbn [f_name f_buffer]. rewrite lookup_insert_eq. cbn [default app].
  repeat (split; [reflexivity |]). f_equal.
  rewrite lookup_insert_eq. cbn [from_option id]. rewrite <- !app_assoc.
  reflexivity.
Qed.

(** ** What whole handlers and rounds keep *)

Section Preserves.

Context (I : state W → Prop).

Lemma preserves_ret {A} (a : A) : preserves I (mret a).
Proof. intros s Hs. exact Hs. Qed.

Lemma preserves_gets {A} (f : state W → A) : preserves I (gets f).
Proof. intros s Hs. exact Hs. Qed.

Lemma preserves_raise {A} (e : exn) : preserves I (raise e : M (state W) A).
Proof. intros s Hs. exact Hs. Qed.

Lemma preserves_get_object (o : nat) : preserves I (get_object o).
Proof.
  intros s Hs. unfold get_object. destruct (objects s !! o); exact Hs.
Qed.

Lemma preserves_modify (f : state W → state W) :
  (∀ s, I s → I (f s)) → preserves I (modify f).
Proof. intros Hf s. apply Hf. Qed.

Lemma preserves_bind {A C} (m : M (state W) A) (k : A → M (state W) C) :
  preserves I m → (∀ a, preserves I (k a)) → preserves I (m ≫= k).
Proof.
  intros Hm Hk s Hs. specialize (Hm s Hs). cbv [mbind M_bind].
  destruct (m s) as [[a | e] s1]; [| exact Hm].
  apply Hk, Hm.
Qed.

Lemma preserves_try_except {A} (m : M (state W) A) (catches : exn → bool)
  (h : exn → M (state W) A) :
  preserves I m → (∀ e, preserves I (h e)) →
  preserves I (try_except m catches h).
Proof.
  intros Hm Hh s Hs. specialize (Hm s Hs). unfold try_except.
  destruct (m s) as [[a | e] s1]; [exact Hm |].
  destruct (catches e); [| exact Hm].
  apply Hh, Hm.
Qed.

Lemma preserves_when (b : bool) (m : M (state W) unit) :
  preserves I m → preserves I (when b m).
Proof. intros Hm. destruct b; [exact Hm | apply preserves_ret]. Qed.

End Preserves.

(** Going through a handler rule by rule; what is left are its
    assignments to globals. *)
Ltac preserves_steps :=
  repeat match goal with
    | |- preserves _ (mret _) => apply preserves_ret
    | |- preserves _ (gets _) => apply preserves_gets
    | |- preserves _ (raise _) => apply preserves_raise
    | |- preserves _ (get_object _) => apply preserves_get_object
    | |- preserves _ (when _ _) => apply preserves_when
    | |- preserves _ (_ ≫= _) => apply preserves_bind; [| intros ?]
    | |- preserves _ (try_except _ _ _) =>
        apply preserves_try_except; [| intros ?]
    | |- preserves _ (modify _) => apply preserves_modify; intros ?
    | |- preserves _ (if ?b then _ else _) => destruct b
    | |- preserves _ (match ?x with _ => _ end) => destruct x
    end.

(** *** The selection *)

Lemma browse_output_file_selection (filename : string)
  (open_error : option string) :
  keeps_selection (browse_output_file filename open_error).
Proof.
  intros b.
  unfold browse_output_file, close, flush, open_w, csv_writer_writerow,
    output_file_flush, writerow, flush, put_object, messagebox.
  preserves_steps; exact id.
Qed.

Lemma toggle_recording_selection (now : float) (filename : string)
  (open_error : option string) :
  keeps_selection (toggle_recording now filename open_error).
Proof.
  intros b.
  unfold toggle_recording, start_recording, csv_writer_writerow,
    output_file_flush, writerow, flush, put_object.
  preserves_steps; try exact id; apply browse_output_file_selection.
Qed.

Lemma update_acquisition_interval_selection :
  keeps_selection update_acquisition_interval.
Proof.
  intros b. unfold update_acquisition_interval, messagebox.
  preserves_steps; exact id.
Qed.

Lemma read_sensors_preserves (I : state W → Prop) (channels : list nat) :
  (∀ s w lines, I s → I (set_stdout lines (set_adc w s))) →
  preserves I (read_sensors channels).
Proof.
  intros Hframe s Hs.
  destruct (read_sensors_loop_frame channels [] s)
    as (readings & w & lines & _ & -> & _).
  by apply Hframe.
Qed.

Lemma sensor_tick_selection (now : float) :
  keeps_selection (sensor_tick now).
Proof.
  intros b.
  unfold sensor_tick, csv_writer_writerow, output_file_flush, writerow,
    flush, put_object, print.
  preserves_steps; try exact id. by apply read_sensors_preserves.
Qed.

Lemma click_channel_selection_ok (i : nat) :
  preserves selection_ok (click_channel i).
Proof.
  intros s [_ Hlen]. unfold selection_ok.
  set (vars := alter (λ v, if (v =? 1)%Z then 0%Z else 1%Z) i (channel_vars s)).
  change (click_channel i s)
    with (update_selected_channels (set_channel_vars vars s)).
  assert (Hlen' : length vars = 8%nat) by (subst vars; by rewrite length_alter).
  destruct (decide (checked vars = [])) as [Hnone | Hsome].
  - destruct vars as [| v rest] eqn:Hv; [done |].
    rewrite (update_selected_channels_none _ v rest) by done. done.
  - rewrite update_selected_channels_some by done. done.
Qed.

Lemma step_selection_ok s (e : event) :
  selection_ok s → selection_ok (step s e).
Proof.
  intros Hs. unfold step. destruct e as [i | text | | now fn err | fn err | | now];
    cbn [handler].
  - by apply click_channel_selection_ok.
  - exact Hs.
  - unfold selection_ok.
    pose proof (update_acquisition_interval_selection _ s eq_refl) as [= -> ->].
    exact Hs.
  - unfold selection_ok.
    pose proof (toggle_recording_selection now fn err _ s eq_refl) as [= -> ->].
    exact Hs.
  - unfold selection_ok.
    pose proof (browse_output_file_selection fn err _ s eq_refl) as [= -> ->].
    exact Hs.
  - exact Hs.
  - unfold selection_ok.
    pose proof (sensor_tick_selection now _ s eq_refl) as [= -> ->].
    exact Hs.
Qed.

(** *** The sink *)

Lemma sink_ok_none s : output_file s = None → sink_ok s.
Proof. intros Hnone o Ho. congruence. Qed.

Lemma sink_ok_put_open s (o : nat) (name : string) (buffer : list row) :
  sink_ok s →
  sink_ok (set_objects (<[o := FileObj name false buffer]> (objects s)) s).
Proof.
  intros Hok o' Ho'. destruct (Hok o' Ho') as (Hw & f & Hf & Hopen).
  split; [exact Hw |]. cbn [objects set_objects].
  destruct (decide (o = o')) as [-> | Hne].
  - exists (FileObj name false buffer). split; [| reflexivity].
    apply list_lookup_insert_eq, lookup_lt_is_Some. eauto.
  - exists f. by rewrite list_lookup_insert_ne.
Qed.

Lemma csv_writer_writerow_sink (r : row) :
  preserves sink_ok (csv_writer_writerow r).
Proof.
  unfold csv_writer_writerow, writerow, put_object.
  preserves_steps. apply sink_ok_put_open.
Qed.

Lemma output_file_flush_sink : preserves sink_ok output_file_flush.
Proof.
  unfold output_file_flush, flush, put_object.
  preserves_steps; [intros Hok; exact Hok | apply sink_ok_put_open].
Qed.

(** The steps of a handler that only write rows and flush, or assign
    globals the sink does not depend on. *)
Ltac sink_steps :=
  preserves_steps;
  first [ apply csv_writer_writerow_sink | apply output_file_flush_sink
        | intros Hok; exact Hok ].

Lemma browse_output_file_sink (filename : string)
  (open_error : option string) :
  preserves sink_ok (browse_output_file filename open_error).
Proof.
  intros s Hok. unfold browse_output_file.
  destruct (String.eqb filename ""); [exact Hok |].
  unfold try_except.
  match goal with |- context [let (_, _) := ?block s in _] =>
    destruct (block s) as [[[] | e] s'] eqn:Hblock
  end.
  - cbn [snd].
    match type of Hblock with context [gets is_recording ≫= ?k] =>
      set (suffix := gets is_recording ≫= k) in Hblock;
      assert (Hsuffix : preserves sink_ok suffix)
    end.
    { subst suffix. sink_steps. }
    cbv [mbind M_bind gets] in Hblock.
    destruct (match output_file s with Some o => close o | None => mret () end s)
      as [[[] | e] s1]; [| discriminate].
    unfold open_w in Hblock. destruct open_error; [discriminate |].
    cbv [mbind M_bind gets modify mret M_ret] in Hblock.
    match type of Hblock with suffix ?s3 = _ =>
      replace s' with (exec suffix s3) by (by rewrite Hblock);
      apply Hsuffix
    end.
    intros o [= <-]. split; [reflexivity |].
    exists (FileObj filename false []). split; [| reflexivity].
    cbn [objects set_file_label set_csv_writer set_output_file set_objects
         set_disk].
    rewrite lookup_app_r by done. by rewrite Nat.sub_diag.
  - cbn. apply sink_ok_none. reflexivity.
Qed.

Lemma read_sensors_sink (channels : list nat) :
  preserves sink_ok (read_sensors channels).
Proof. apply read_sensors_preserves. intros s w lines Hok. exact Hok. Qed.

Lemma step_sink_ok s (e : event) : sink_ok s → sink_ok (step s e).
Proof.
  unfold step. revert s.
  change (preserves sink_ok (handler e)).
  destruct e as [i | text | | now fn err | fn err | | now]; cbn [handler].
  - unfold click_channel, update_selected_channels, messagebox. sink_steps.
  - sink_steps.
  - unfold update_acquisition_interval, messagebox. sink_steps.
  - unfold toggle_recording, start_recording.
    preserves_steps;
      first [ apply browse_output_file_sink | apply csv_writer_writerow_sink
            | apply output_file_flush_sink | intros Hok; exact Hok ].
  - apply browse_output_file_sink.
  - unfold clear_plot_data. sink_steps.
  - unfold sensor_tick, print.
    preserves_steps;
      first [ apply read_sensors_sink | apply csv_writer_writerow_sink
            | apply output_file_flush_sink | intros Hok; exact Hok ].
Qed.

(** After any sequence of whole handlers and whole rounds of the sampler
    from the start of the application, some channel is selected and the
    sink, if there is one, is an open file with the writer bound to
    it. *)
Lemma reachable_ok (es : list event) (t0 t1 : float)
  (files : gmap string (list row)) (w : W) :
  selection_ok (run es (initial t0 t1 files w))
  ∧ sink_ok (run es (initial t0 t1 files w)).
Proof.
  unfold run.
  assert (Hinit : selection_ok (initial t0 t1 files w)
                  ∧ sink_ok (initial t0 t1 files w)).
  { split; [split; [discriminate | reflexivity] |].
    by apply sink_ok_none. }
  revert Hinit. generalize (initial t0 t1 files w).
  induction es as [| e es IH]; intros s [Hsel Hsink]; [done |].
  cbn [foldl]. apply IH.
  split; [by apply step_selection_ok | by apply step_sink_ok].
Qed.

End SensorProperties.

(** * The properties on the test bench *)

Section OnTheBench.

Import Sensor Bench.

(** C4 on the bench: unticking channel 0, the only one ticked, leaves
    [0] selected. *)
Lemma selection_never_empty_witness :
  channel_vars started ≠ []
  ∧ Forall (λ v, v ≠ 1%Z)
      (alter (λ v, if (v =? 1)%Z then 0%Z else 1%Z) 0 (channel_vars started))
  ∧ selected_channels (click_channel 0 started).2 = [0%nat].
Proof.
  assert (Hvars : channel_vars started ≠ []) by discriminate.
  assert (Hnone : Forall (λ v, v ≠ 1%Z)
            (alter (λ v, if (v =? 1)%Z then 0%Z else 1%Z) 0
               (channel_vars started)))
    by (vm_compute; repeat constructor; discriminate).
  split; [exact Hvars |]. split; [exact Hnone |].
  exact (proj1 (proj2 (proj2 (proj2
    (selection_never_empty started 0 Hvars))) Hnone)).
Defined.

(** The interval on the bench: "-1" is refused and the interval stays
    at 0.1; "0.5" is taken. *)
Lemma interval_validation_witness :
  let refused := set_interval_entry "-1" started in
  let taken := set_interval_entry "0.5" started in
  (∃ x, py_float (interval_entry refused) = inr x ∧ (x <=? 0)%float = true)
  ∧ delta_t (update_acquisition_interval refused).2 = 0.1%float
  ∧ interval_entry (update_acquisition_interval refused).2 = "0.1"
  ∧ py_float (interval_entry taken) = inr 0.5%float
  ∧ (0 <? 0.5)%float = true
  ∧ delta_t (update_acquisition_interval taken).2 = 0.5%float.
Proof.
  cbv zeta.
  set (refused := set_interval_entry "-1" started).
  set (taken := set_interval_entry "0.5" started).
  assert (Hbad : ∃ x, py_float (interval_entry refused) = inr x
                      ∧ (x <=? 0)%float = true)
    by (exists (-1)%float; split; reflexivity).
  assert (Hgood : py_float (interval_entry taken) = inr 0.5%float)
    by reflexivity.
  assert (Hpos : (0 <? 0.5)%float = true) by reflexivity.
  destruct (proj1 (proj2 (interval_validation refused)) (or_intror Hbad))
    as (Hkept & _ & Hentry).
  destruct (proj2 (proj2 (interval_validation taken)) 0.5%float Hgood Hpos)
    as (Hnew & _).
  split; [exact Hbad |]. split; [exact Hkept |]. split; [exact Hentry |].
  split; [exact Hgood |]. split; [exact Hpos | exact Hnew].
Defined.

(** C9 on the bench: "nan" is typed and the interval updated; no box is
    shown, the interval is NaN and the round at 2000, long overdue by
    the old interval, does nothing. *)
Lemma interval_nan_is_accepted_witness :
  let s := set_interval_entry "nan" started in
  py_float (interval_entry s) = inr nan
  ∧ delta_t (update_acquisition_interval s).2 = nan
  ∧ dialogs (update_acquisition_interval s).2 = dialogs s
  ∧ (delta_t s <=? 2000 - last_reading_time s)%float = true
  ∧ sensor_tick 2000 (update_acquisition_interval s).2
    = (Ok tt, (update_acquisition_interval s).2).
Proof.
  cbv zeta.
  assert (Hnan : py_float (interval_entry (set_interval_entry "nan" started))
                 = inr nan) by reflexivity.
  assert (Hdue : (delta_t (set_interval_entry "nan" started)
                  <=? 2000 - last_reading_time
                               (set_interval_entry "nan" started))%float
                 = true) by (vm_compute; reflexivity).
  destruct (interval_nan_is_accepted (set_interval_entry "nan" started) Hnan)
    as (_ & _ & _ & Hstored & Hquiet & _ & Hidle).
  split; [exact Hnan |]. split; [exact Hstored |]. split; [exact Hquiet |].
  split; [exact Hdue | exact (Hidle 2000%float)].
Defined.

(** C10 on the bench: of channels 0, 1, 2 the broken channel 1 reads
    0.0 at position 1, and channel 2, third to be converted, 1.0 at
    position 2. *)
Lemma read_sensors_positions_witness :
  [0; 1; 2]%nat !! 1%nat = Some 1%nat
  ∧ [0; 1; 2]%nat !! 2%nat = Some 2%nat
  ∧ ∃ readings,
      (read_sensors [0; 1; 2]%nat started).1 = Ok readings
      ∧ readings !! 1%nat = Some 0%float
      ∧ readings !! 2%nat = Some 1%float.
Proof.
  assert (H1 : [0; 1; 2]%nat !! 1%nat = Some 1%nat) by reflexivity.
  assert (H2 : [0; 1; 2]%nat !! 2%nat = Some 2%nat) by reflexivity.
  split; [exact H1 |]. split; [exact H2 |].
  destruct (read_sensors_positions [0; 1; 2]%nat started)
    as (readings & Hread & _ & _ & Hpos).
  exists readings. split; [exact Hread |].
  split; [exact (Hpos 1%nat 1%nat H1) | exact (Hpos 2%nat 2%nat H2)].
Defined.

(** C6 on the bench: with channels 0, 1, 2 selected and channel 1
    broken, the round at 1011 still appends three readings, 0.0 in the
    middle; channel 0 reads the 0.25 V and channel 2 the 1.0 V their
    own conversions return. *)
Lemma failed_read_is_isolated_witness :
  (voltage 1 (adc (read_sensors [0%nat] three_channels).2)).1
  = inl (DeviceError "no reply from MCP3008")
  ∧ selected_channels three_channels = [0%nat] ++ 1%nat :: [2%nat]
  ∧ (delta_t three_channels
     <=? 1011 - last_reading_time three_channels)%float = true
  ∧ ∃ before after,
      (read_sensors [0%nat] three_channels).1 = Ok before
      ∧ (read_sensors [0; 1; 2]%nat three_channels).1
        = Ok (before ++ 0%float :: after)
      ∧ sensor_data_voltages (sensor_tick 1011 three_channels).2
        = [before ++ 0%float :: after]
      ∧ (before ++ 0%float :: after) !! 0%nat = Some 0.25%float
      ∧ (before ++ 0%float :: after) !! 2%nat = Some 1%float.
Proof.
  assert (Hfail : (voltage 1 (adc (read_sensors [0%nat] three_channels).2)).1
                  = inl (DeviceError "no reply from MCP3008"))
    by (vm_compute; reflexivity).
  assert (Hsel : selected_channels three_channels
                 = [0%nat] ++ 1%nat :: [2%nat])
    by (vm_compute; reflexivity).
  assert (Hdue : (delta_t three_channels
                  <=? 1011 - last_reading_time three_channels)%float = true)
    by (vm_compute; reflexivity).
  split; [exact Hfail |]. split; [exact Hsel |]. split; [exact Hdue |].
  destruct (failed_read_is_isolated [0%nat] [2%nat] 1 three_channels
              (DeviceError "no reply from MCP3008") Hfail)
    as (before & after & Hb & _ & Hall & _ & _ & Htick & Hown).
  exists before, after. split; [exact Hb |]. split; [exact Hall |].
  split; [exact (Htick 1011%float Hsel Hdue) |].
  split; [exact (Hown 0%nat 0%nat eq_refl) | exact (Hown 2%nat 2%nat eq_refl)].
Defined.

(** C8 on the bench: the round at 1011 of a recording started at 1010
    puts its row on disk right after the header and leaves the buffer
    of run.csv empty. *)
Lemma recorded_row_is_flushed_witness :
  (delta_t recording <=? 1011 - last_reading_time recording)%float = true
  ∧ is_recording recording = true
  ∧ output_file recording = Some 0%nat
  ∧ csv_writer recording = Some 0%nat
  ∧ objects recording !! 0%nat = Some (FileObj "run.csv" false [])
  ∧ ∃ readings,
      (read_sensors (selected_channels recording) recording).1 = Ok readings
      ∧ length readings = length (selected_channels recording)
      ∧ disk (sensor_tick 1011 recording).2 !! "run.csv"
        = Some (default [] (disk recording !! "run.csv") ++ []
                ++ [CNum (py_round (1011 - start_time recording) 3)
                    :: map (λ v, CNum (py_round v 3)) readings])
      ∧ objects (sensor_tick 1011 recording).2 !! 0%nat
        = Some (FileObj "run.csv" false []).
Proof.
  assert (Hdue : (delta_t recording <=? 1011 - last_reading_time recording)%float
                 = true) by (vm_compute; reflexivity).
  assert (Hrec : is_recording recording = true) by (vm_compute; reflexivity).
  assert (Hfile : output_file recording = Some 0%nat)
    by (vm_compute; reflexivity).
  assert (Hwriter : csv_writer recording = Some 0%nat)
    by (vm_compute; reflexivity).
  assert (Hobj : objects recording !! 0%nat = Some (FileObj "run.csv" false []))
    by (vm_compute; reflexivity).
  repeat (split; [assumption |]).
  destruct (recorded_row_is_flushed 1011 recording Hdue)
    as (readings & Hread & Hlen & Hrow & _).
  destruct (Hrow 0%nat (FileObj "run.csv" false []) Hrec Hfile Hwriter Hobj
              eq_refl) as (Hdisk & Hbuffer & _).
  exists readings. split; [exact Hread |]. split; [exact Hlen |].
  split; [exact Hdisk | exact Hbuffer].
Defined.

(** C5 on the bench: stopping the recording leaves run.csv open;
    starting with no sink and the dialog cancelled changes nothing;
    starting with no sink and run.csv chosen, or again on the open
    run.csv, raises the flag and sets the time origin; with channels 0,
    1 and 2 selected the header written to run.csv reads Time (s),
    Ch0 Voltage (V), Ch1 Voltage (V), Ch2 Voltage (V). *)
Lemma recording_toggle_witness :
  let stopped := (toggle_recording 1020 "" None recording).2 in
  is_recording recording = true
  ∧ is_recording stopped = false
  ∧ objects stopped = objects recording
  ∧ output_file three_channels = None
  ∧ toggle_recording 1010 "" None three_channels = (Ok tt, three_channels)
  ∧ "run.csv" ≠ ""
  ∧ start_time (toggle_recording 1010 "run.csv" None three_channels).2
    = 1010%float
  ∧ disk (toggle_recording 1010 "run.csv" None three_channels).2 !! "run.csv"
    = Some [[CStr "Time (s)"; CStr "Ch0 Voltage (V)";
             CStr "Ch1 Voltage (V)"; CStr "Ch2 Voltage (V)"]]
  ∧ output_file stopped = Some 0%nat
  ∧ csv_writer stopped = Some 0%nat
  ∧ objects stopped !! 0%nat = Some (FileObj "run.csv" false [])
  ∧ is_recording (toggle_recording 1030 "" None stopped).2 = true.
Proof.
  cbv zeta.
  set (stopped := (toggle_recording 1020 "" None recording).2).
  assert (Hrec : is_recording recording = true) by (vm_compute; reflexivity).
  assert (Hidle : is_recording three_channels = false)
    by (vm_compute; reflexivity).
  assert (Hnone : output_file three_channels = None)
    by (vm_compute; reflexivity).
  assert (Hname : "run.csv" ≠ "") by discriminate.
  assert (Hidle' : is_recording stopped = false) by (vm_compute; reflexivity).
  assert (Hfile : output_file stopped = Some 0%nat)
    by (vm_compute; reflexivity).
  assert (Hwriter : csv_writer stopped = Some 0%nat)
    by (vm_compute; reflexivity).
  assert (Hobj : objects stopped !! 0%nat = Some (FileObj "run.csv" false []))
    by (vm_compute; reflexivity).
  destruct (proj1 (recording_toggle 1020 "" None recording) Hrec)
    as (_ & Hflag & _ & Hobjects & _).
  pose proof (proj1 (proj2 (recording_toggle 1010 "" None three_channels))
                Hidle Hnone eq_refl) as Hcancel.
  destruct (proj2 (proj2 (proj2
              (recording_toggle 1010 "run.csv" None three_channels)))
              Hidle Hnone Hname eq_refl)
    as (_ & _ & Horigin & _ & _ & Hheader & _).
  destruct (proj1 (proj2 (proj2 (recording_toggle 1030 "" None stopped)))
              0%nat (FileObj "run.csv" false [])
              Hidle' Hfile Hwriter Hobj eq_refl) as (_ & Hagain & _).
  split; [exact Hrec |]. split; [exact Hflag |]. split; [exact Hobjects |].
  split; [exact Hnone |]. split; [exact Hcancel |]. split; [exact Hname |].
  split; [exact Horigin |]. split; [exact Hheader |].
  split; [exact Hfile |]. split; [exact Hwriter |].
  split; [exact Hobj | exact Hagain].
Defined.

(** C2 on the bench: from the stopped recording into run.csv, start,
    stop and start again. *)
Lemma restart_writes_header_again_witness :
  let s := (toggle_recording 1020 "" None recording).2 in
  is_recording s = false
  ∧ output_file s = Some 0%nat
  ∧ csv_writer s = Some 0%nat
  ∧ objects s !! 0%nat = Some (FileObj "run.csv" false [])
  ∧ is_recording
      (toggle_recording 1050 "" None
         (toggle_recording 1040 "" None
            (toggle_recording 1030 "" None s).2).2).2 = true.
Proof.
  cbv zeta.
  set (s := (toggle_recording 1020 "" None recording).2).
  assert (Hrec : is_recording s = false) by (vm_compute; reflexivity).
  assert (Hfile : output_file s = Some 0%nat) by (vm_compute; reflexivity).
  assert (Hwriter : csv_writer s = Some 0%nat) by (vm_compute; reflexivity).
  assert (Hobj : objects s !! 0%nat = Some (FileObj "run.csv" false []))
    by (vm_compute; reflexivity).
  repeat (split; [assumption |]).
  exact (proj1 (proj2 (proj2
    (restart_writes_header_again 1030 1040 1050 "" None s 0
       (FileObj "run.csv" false []) Hrec Hfile Hwriter Hobj eq_refl)))).
Defined.

(** C2 does not hold as the specification states it: on the bench, after
    start, one sampled row, stop and start again with no browsing in
    between, run.csv holds the header twice. *)
Lemma restart_second_header_counterexample :
  let header := header_row [0; 1; 2]%nat in
  let s1 := run [Tick 1011] recording in
  let s3 := run [ClickRecord 1020 "" None; ClickRecord 1030 "" None] s1 in
  output_file s3 = output_file s1
  ∧ output_rows s1
    = Some [header; [CNum 1; CNum 0.25; CNum 0; CNum 1]]
  ∧ output_rows s3
    = Some [header; [CNum 1; CNum 0.25; CNum 0; CNum 1]; header]
  ∧ output_rows s3 ≠ output_rows s1.
Proof.
  vm_compute. repeat split. discriminate.
Qed.

End OnTheBench.

(** * Further properties of the motor side *)

Section MotorInvariants.

Import Motor.

Local Open Scope Z_scope.

(** ** The ring buffer *)

Lemma deque_append_length (maxlen : nat) (d : list float) (x : float) :
  length (deque_append maxlen d x) = (S (length d) `min` maxlen)%nat.
Proof.
  unfold deque_append. rewrite length_drop, length_app. cbn [length]. lia.
Qed.

Lemma deque_append_last (maxlen : nat) (d : list float) (x d0 : float) :
  (0 < maxlen)%nat → List.last (deque_append maxlen d x) d0 = x.
Proof.
  intros Hpos. unfold deque_append. rewrite length_app. cbn [length].
  destruct (decide (length d + 1 - maxlen ≤ length d)%nat) as [Hle | Hgt];
    [| lia].
  rewrite drop_app_le by done. apply last_last.
Qed.

Lemma deque_append_not_nil (maxlen : nat) (d : list float) (x : float) :
  (0 < maxlen)%nat → deque_append maxlen d x ≠ [].
Proof.
  intros Hpos Hnil. apply (f_equal length) in Hnil.
  rewrite deque_append_length in Hnil. cbn [length] in Hnil. lia.
Qed.

(** ** What every handler keeps *)

Ltac split_handler :=
  repeat match goal with
    | |- context [if ?b then _ else _] => destruct b eqn:?
    | |- context [match ?x with _ => _ end] => destruct x eqn:?
    end.

Lemma pulse_body_ok (now : float) (s s' : motor_state) :
  motor_ok s → pulse_body now s = Some s' →
  motor_ok s' ∧ stepper_running s' = stepper_running s
  ∧ enable_pin s' = enable_pin s.
Proof.
  intros (Hlen & Hpin & Hen & Hlast). unfold pulse_body.
  destruct (0 <? current_speed s)%float; [| intros [= <-]; done].
  destruct (step_interval (current_speed s)) as [p |]; [| done].
  cbn [mbind option_bind].
  destruct (p <=? now - last_step_time s)%float; intros [= <-]; [| done].
  unfold motor_ok. cbn -[deque_append]. repeat split; try done.
  - rewrite deque_append_length. lia.
  - intros _. apply deque_append_last. lia.
Qed.

Lemma step_motor_ok (s : motor_state) (e : event) :
  motor_ok s → motor_ok (step s e).
Proof.
  intros Hok. destruct e as [speed | direction speed | | t now]; cbn [step].
  - exact Hok.
  - destruct Hok as (Hlen & Hpin & Hen & Hlast).
    unfold apply_direction, stop_motor, thread_join, thread_start.
    split_handler; cbn; repeat split; done.
  - destruct Hok as (Hlen & Hpin & Hen & Hlast). unfold stop_motor. cbn.
    repeat split; done.
  - unfold pulse_step.
    destruct (threads s !! t) as [[|] |]; [| done | done].
    destruct (stepper_running s) eqn:Hrun.
    + destruct (pulse_body now s) as [s' |] eqn:Hbody.
      * by destruct (pulse_body_ok now s s' Hok Hbody).
      * destruct Hok as (Hlen & Hpin & Hen & Hlast). cbn.
        repeat split; done.
    + destruct Hok as (Hlen & Hpin & Hen & Hlast). unfold motor_ok. cbn.
      rewrite ?Hrun. repeat split; done.
Qed.

Lemma run_motor_ok (es : list event) (s : motor_state) :
  motor_ok s → motor_ok (run es s).
Proof.
  revert s. induction es as [| e es IH]; intros s Hok; [exact Hok |].
  apply IH, step_motor_ok, Hok.
Qed.

Lemma initial_motor_ok : motor_ok initial.
Proof. repeat split; cbn; try done. lia. Qed.

(** X1: whatever the widgets and the pulse threads do from the start of
    the program on, the ring buffer of pulse times never holds more than
    100 entries. *)
Theorem step_history_bounded (es : list event) :
  (length (step_history (run es initial)) ≤ 100)%nat.
Proof. apply (run_motor_ok es initial initial_motor_ok). Qed.

(** X2: between handlers the step line is low, and whenever the running
    flag is set the driver is enabled (enable line low). *)
Theorem running_implies_driver_enabled (es : list event) :
  step_pin (run es initial) = false
  ∧ (stepper_running (run es initial) = true →
     enable_pin (run es initial) = false).
Proof.
  destruct (run_motor_ok es initial initial_motor_ok)
    as (_ & Hpin & Hen & _).
  split; [exact Hpin | exact Hen].
Qed.

Lemma running_implies_driver_enabled_witness :
  let es := [MoveSlider 50; ApplyDirection "Forward" 50] in
  stepper_running (run es initial) = true
  ∧ enable_pin (run es initial) = false.
Proof.
  cbv zeta.
  assert (Hrun : stepper_running
            (run [MoveSlider 50; ApplyDirection "Forward" 50] initial) = true)
    by (vm_compute; reflexivity).
  split; [exact Hrun |].
  exact (proj2 (running_implies_driver_enabled
                  [MoveSlider 50; ApplyDirection "Forward" 50]) Hrun).
Defined.



(** ** Stopping and applying a direction *)

(** X4: [stop_motor] clears the running flag and disables the driver but
    leaves [current_direction] as it was; the next round of any pulse
    loop then ends that loop without a pulse. *)
Theorem stop_ends_loops (s : motor_state) (t : nat) (now : float) :
  let s' := stop_motor s in
  stepper_running s' = false
  ∧ enable_pin s' = true
  ∧ current_direction s' = current_direction s
  ∧ alive (pulse_step t now s') t = false
  ∧ step_history (pulse_step t now s') = step_history s
  ∧ step_pin (pulse_step t now s') = step_pin s.
Proof.
  cbv zeta. unfold stop_motor, pulse_step, alive. cbn.
  destruct (threads s !! t) as [[|] |] eqn:Ht; cbn; rewrite ?Ht;
    repeat split; try done.
  rewrite list_lookup_insert_eq; [done |].
  apply lookup_lt_is_Some. eauto.
Qed.

(** X5: a direction other than Stop always enables the driver; Forward
    sets the direction line high and Reverse low, any other text leaves
    line and direction name alone; and the running flag ends up set
    exactly when the slider is above 0. *)
Theorem apply_direction_lines (direction : string) (speed : Z)
  (s : motor_state) :
  direction ≠ "Stop" →
  let s' := apply_direction direction speed s in
  enable_pin s' = false
  ∧ stepper_running s' = (0 <? speed)
  ∧ (direction = "Forward" →
     direction_pin s' = true ∧ current_direction s' = "Forward")
  ∧ (direction = "Reverse" →
     direction_pin s' = false ∧ current_direction s' = "Reverse")
  ∧ (direction ≠ "Forward" → direction ≠ "Reverse" →
     direction_pin s' = direction_pin s
     ∧ current_direction s' = current_direction s).
Proof.
  intros Hdir. cbv zeta. unfold apply_direction.
  destruct (String.eqb_spec direction "Stop") as [| _]; [done |].
  unfold thread_join, thread_start.
  destruct (String.eqb_spec direction "Forward") as [-> | Hf];
    [| destruct (String.eqb_spec direction "Reverse") as [-> | Hr]];
    destruct (stepper_running s) eqn:Hrun; cbn;
    repeat match goal with
      | |- context [match ?x with _ => _ end] => destruct x eqn:?
      end; cbn; rewrite ?Hrun; repeat split; intros; congruence.
Qed.

Lemma apply_direction_lines_witness :
  "Reverse" ≠ "Stop"
  ∧ direction_pin (apply_direction "Reverse" 0 initial) = false
  ∧ enable_pin (apply_direction "Reverse" 0 initial) = false
  ∧ stepper_running (apply_direction "Reverse" 0 initial) = false.
Proof.
  assert (Hdir : "Reverse" ≠ "Stop") by discriminate.
  destruct (apply_direction_lines "Reverse" 0 initial Hdir)
    as (Hen & Hrun & _ & Hrev & _).
  split; [exact Hdir |]. split; [exact (proj1 (Hrev eq_refl)) |].
  split; [exact Hen | exact Hrun].
Defined.

(** ** One loop, as long as directions are applied in time *)

Lemma pulse_body_threads (now : float) (s s' : motor_state) :
  pulse_body now s = Some s' →
  threads s' = threads s ∧ pulse_thread s' = pulse_thread s.
Proof.
  unfold pulse_body.
  destruct (0 <? current_speed s)%float; [| intros [= <-]; done].
  destruct (step_interval (current_speed s)) as [p |]; [| done].
  cbn [mbind option_bind].
  destruct (p <=? now - last_step_time s)%float; intros [= <-]; done.
Qed.

Lemma alive_insert_finished (s : motor_state) (t u : nat) :
  alive (set_threads (<[t := Finished]> (threads s)) s) u = true →
  alive s u = true.
Proof.
  unfold alive. cbn [threads set_threads].
  destruct (decide (u = t)) as [-> | Hne].
  - destruct (decide (t < length (threads s))%nat) as [Hlt | Hge].
    + rewrite list_lookup_insert_eq by done. done.
    + rewrite list_insert_ge by lia. done.
  - rewrite list_lookup_insert_ne by done. done.
Qed.

(** After the first block of [apply_direction], entered in time, no
    loop is left. *)
Lemma join_block_leaves_no_loop (s : motor_state) :
  only_referenced_loop s →
  stepper_running s = true ∨ (∀ u, alive s u = false) →
  let s1 :=
    if stepper_running s then
      match pulse_thread (set_stepper_running false s) with
      | Some t => thread_join t (set_stepper_running false s)
      | None => set_stepper_running false s
      end
    else s in
  (∀ u, alive s1 u = false) ∧ length (threads s1) = length (threads s).
Proof.
  intros Hone Htime. cbv zeta.
  destruct (stepper_running s) eqn:Hrun.
  - cbn [pulse_thread set_stepper_running].
    destruct (pulse_thread s) as [t |] eqn:Ht.
    + unfold thread_join. cbn [threads stepper_running set_stepper_running].
      destruct (threads s !! t) as [[|] |] eqn:Hlook.
      * split; [| cbn; by rewrite length_insert].
        intros u. destruct (alive _ u) eqn:Hu; [| done].
        pose proof (alive_insert_finished s t u Hu) as Hu'.
        specialize (Hone u Hu'). assert (u = t) as -> by congruence.
        unfold alive in Hu. cbn [threads set_threads] in Hu.
        rewrite list_lookup_insert_eq in Hu; [done |].
        apply lookup_lt_is_Some. eauto.
      * split; [| done]. intros u.
        destruct (alive (set_stepper_running false s) u) eqn:Hu; [| done].
        specialize (Hone u Hu). cbn in Hone.
        assert (u = t) as -> by congruence.
        unfold alive in Hu. cbn in Hu. rewrite Hlook in Hu. done.
      * split; [| done]. intros u.
        destruct (alive (set_stepper_running false s) u) eqn:Hu; [| done].
        specialize (Hone u Hu). cbn in Hone.
        assert (u = t) as -> by congruence.
        unfold alive in Hu. cbn in Hu. rewrite Hlook in Hu. done.
    + split; [| done]. intros u.
      destruct (alive (set_stepper_running false s) u) eqn:Hu; [| done].
      specialize (Hone u Hu). cbn in Hone. congruence.
  - destruct Htime as [? | Hnone]; [done |]. split; [exact Hnone | done].
Qed.

Lemma step_only_referenced (s : motor_state) (e : event) :
  only_referenced_loop s → applied_in_time s e →
  only_referenced_loop (step s e).
Proof.
  intros Hone Htime.
  destruct e as [speed | direction speed | | t now]; cbn [step].
  - exact Hone.
  - unfold apply_direction.
    destruct (String.eqb_spec direction "Stop") as [| Hdir]; [exact Hone |].
    cbn [applied_in_time] in Htime. destruct Htime as [? | Htime]; [done |].
    destruct (join_block_leaves_no_loop s Hone Htime) as [Hnone Hlen].
    cbv zeta in Hnone, Hlen.
    set (s1 := if stepper_running s then _ else s) in *.
    assert (Hstart : ∀ s2 : motor_state, threads s2 = threads s1 →
              only_referenced_loop
                (if 0 <? speed
                 then thread_start (set_stepper_running true
                                      (set_enable_pin false s2))
                 else set_enable_pin false s2)).
    { intros s2 Hs2 u. destruct (0 <? speed).
      - unfold thread_start, alive. cbn. rewrite Hs2. intros Hu.
        destruct (decide (u < length (threads s1))%nat) as [Hin | Hout].
        + rewrite lookup_app_l in Hu by done.
          specialize (Hnone u). unfold alive in Hnone.
          destruct (threads s1 !! u) as [[|] |]; done.
        + destruct (decide (u = length (threads s1))) as [-> | Hne];
            [done |].
          rewrite lookup_ge_None_2 in Hu; [done |].
          rewrite length_app. cbn. lia.
      - unfold alive. cbn. rewrite Hs2. intros Hu.
        specialize (Hnone u). unfold alive in Hnone.
        destruct (threads s1 !! u) as [[|] |]; done. }
    destruct (String.eqb direction "Forward");
      [| destruct (String.eqb direction "Reverse")];
      apply Hstart; reflexivity.
  - exact Hone.
  - unfold pulse_step.
    destruct (threads s !! t) as [[|] |] eqn:Ht; [| exact Hone | exact Hone].
    destruct (stepper_running s).
    + destruct (pulse_body now s) as [s' |] eqn:Hbody.
      * destruct (pulse_body_threads now s s' Hbody) as [Hthreads Href].
        intros u Hu. rewrite Href. apply Hone.
        unfold alive in *. by rewrite <- Hthreads.
      * intros u Hu. apply (Hone u), (alive_insert_finished s t u Hu).
    + intros u Hu. apply (Hone u), (alive_insert_finished s t u Hu).
Qed.

Lemma at_most_one_selected (f : nat → bool) (a n : nat) :
  (∀ u v, f u = true → f v = true → u = v) →
  (length (List.filter f (seq a n)) ≤ 1)%nat.
Proof.
  intros Hone. revert a. induction n as [| n IH]; intros a; cbn; [lia |].
  destruct (f a) eqn:Ha; [| apply IH].
  cbn. assert (Hrest : List.filter f (seq (S a) n) = []).
  { destruct (List.filter f (seq (S a) n)) as [| v rest] eqn:Hfilter;
      [done |].
    assert (Hv : In v (List.filter f (seq (S a) n)))
      by (rewrite Hfilter; left; done).
    apply filter_In in Hv as [Hin Hfv]. apply in_seq in Hin.
    specialize (Hone a v Ha Hfv). lia. }
  rewrite Hrest. cbn. lia.
Qed.

(** X6: from the start of the program on, as long as every direction
    other than Stop is applied while the running flag is still set or
    after the loops have ended, at most one pulse loop is active, and it
    is the one [pulse_thread] refers to. *)
Theorem one_loop_when_applied_in_time (es : list event) :
  all_in_time es initial →
  (length (active_loops (run es initial)) ≤ 1)%nat
  ∧ ∀ u, alive (run es initial) u = true →
         pulse_thread (run es initial) = Some u.
Proof.
  assert (Hinit : only_referenced_loop initial) by (intros u; done).
  revert Hinit. unfold run. generalize initial.
  induction es as [| e es IH]; intros s Hone Htime.
  - split; [| exact Hone]. apply at_most_one_selected.
    intros u v Hu Hv. pose proof (Hone u Hu). pose proof (Hone v Hv).
    congruence.
  - destruct Htime as [He Hes]. cbn [foldl]. apply IH; [| exact Hes].
    by apply step_only_referenced.
Qed.

Lemma one_loop_when_applied_in_time_witness :
  let es := [MoveSlider 50; ApplyDirection "Forward" 50; EmergencyStop;
             PulseStep 0 1; ApplyDirection "Reverse" 50] in
  all_in_time es initial
  ∧ (length (active_loops (run es initial)) ≤ 1)%nat
  ∧ active_loops (run es initial) = [1%nat].
Proof.
  cbv zeta.
  set (es := [MoveSlider 50; ApplyDirection "Forward" 50; EmergencyStop;
              PulseStep 0 1; ApplyDirection "Reverse" 50]).
  assert (Htime : all_in_time es initial).
  { cbn. repeat split; right; right; intros [| [| u]]; reflexivity. }
  split; [exact Htime |].
  split; [exact (proj1 (one_loop_when_applied_in_time es Htime)) |].
  vm_compute. reflexivity.
Defined.

End MotorInvariants.

(** * Further properties of the sensor side *)

Section SensorInvariants.

Import Sensor.

Context {W : Type} `{!Builtins} `{!Adc W}.

Implicit Types s : state W.

Local Abbreviation exec m s := (snd (m s)).
Local Abbreviation preserves := (Sensor.preserves (W:=W)).
Local Abbreviation keeps_series := (Sensor.keeps_series (W:=W)).
Local Abbreviation keeps_files := (Sensor.keeps_files (W:=W)).

Ltac preserves_steps :=
  repeat match goal with
    | |- Sensor.preserves _ (mret _) => apply preserves_ret
    | |- Sensor.preserves _ (gets _) => apply preserves_gets
    | |- Sensor.preserves _ (raise _) => apply preserves_raise
    | |- Sensor.preserves _ (get_object _) => apply preserves_get_object
    | |- Sensor.preserves _ (when _ _) => apply preserves_when
    | |- Sensor.preserves _ (_ ≫= _) => apply preserves_bind; [| intros ?]
    | |- Sensor.preserves _ (try_except _ _ _) =>
        apply preserves_try_except; [| intros ?]
    | |- Sensor.preserves _ (modify _) => apply preserves_modify; intros ?
    | |- Sensor.preserves _ (if ?b then _ else _) => destruct b
    | |- Sensor.preserves _ (match ?x with _ => _ end) => destruct x
    end.

(** ** The selection lists the ticked boxes *)

Lemma ticked_from_elem (f : nat → nat) (vars : list Z) (x : nat) :
  x ∈ (List.filter (λ iv : nat * Z, (iv.2 =? 1)%Z)
         (imap (λ i v, (f i, v)) vars)).*1
  ↔ ∃ i, f i = x ∧ vars !! i = Some 1%Z.
Proof.
  revert f. induction vars as [| v vars IH]; intros f; cbn.
  - split; [intros Hin; inversion Hin | intros (i & _ & Hi); done].
  - destruct (Z.eqb_spec v 1) as [-> | Hne]; cbn.
    + rewrite elem_of_cons, (IH (f ∘ S)). split.
      * intros [-> | (i & Hi & Hlook)]; [by exists 0%nat | by exists (S i)].
      * intros ([| i] & Hi & Hlook); [by left | right; by exists i].
    + rewrite (IH (f ∘ S)). split.
      * intros (i & Hi & Hlook). by exists (S i).
      * intros ([| i] & Hi & Hlook); [cbn in Hlook; congruence |].
        by exists i.
Qed.

Lemma ticked_from_sorted (f : nat → nat) (vars : list Z) :
  (∀ i j, (i < j)%nat → (f i < f j)%nat) →
  StronglySorted lt
    (List.filter (λ iv : nat * Z, (iv.2 =? 1)%Z)
       (imap (λ i v, (f i, v)) vars)).*1.
Proof.
  revert f. induction vars as [| v vars IH]; intros f Hmono; cbn.
  - constructor.
  - assert (Hmono' : ∀ i j, (i < j)%nat → ((f ∘ S) i < (f ∘ S) j)%nat)
      by (intros i j Hij; apply Hmono; lia).
    destruct (Z.eqb_spec v 1) as [-> | Hne]; cbn; [| by apply (IH (f ∘ S))].
    constructor; [by apply (IH (f ∘ S)) |].
    apply Forall_forall. intros x Hx.
    apply ticked_from_elem in Hx as (i & <- & _). apply Hmono. lia.
Qed.

Lemma click_channel_ticked (i : nat) :
  preserves (λ s, selection_ticked s ∧ channel_vars s ≠ [])
    (click_channel i).
Proof.
  intros s [_ Hvars]. unfold selection_ticked.
  set (vars := alter (λ v, if (v =? 1)%Z then 0%Z else 1%Z) i (channel_vars s)).
  change (click_channel i s)
    with (update_selected_channels (set_channel_vars vars s)).
  assert (Hvars' : vars ≠ []).
  { subst vars. intros Hnil. apply Hvars.
    apply (f_equal length) in Hnil. rewrite length_alter in Hnil.
    destruct (channel_vars s); [done | discriminate]. }
  destruct (decide (checked vars = [])) as [Hnone | Hsome].
  - destruct vars as [| v rest] eqn:Hv; [done |].
    rewrite (update_selected_channels_none _ v rest) by done.
    cbn [fst snd selected_channels channel_vars set_selected_channels
         set_channel_vars set_dialogs].
    apply checked_nil in Hnone. inversion Hnone as [| ? ? _ Hrest]; subst.
    by rewrite (checked_first_only rest Hrest).
  - rewrite update_selected_channels_some by done. done.
Qed.

Lemma step_ticked s (e : event) :
  selection_ticked s ∧ channel_vars s ≠ [] →
  selection_ticked (step s e) ∧ channel_vars (step s e) ≠ [].
Proof.
  intros Hs. unfold step.
  destruct e as [i | text | | now fn err | fn err | | now]; cbn [handler].
  - by apply click_channel_ticked.
  - exact Hs.
  - unfold selection_ticked.
    pose proof (update_acquisition_interval_selection _ s eq_refl) as [= -> ->].
    exact Hs.
  - unfold selection_ticked.
    pose proof (toggle_recording_selection now fn err _ s eq_refl) as [= -> ->].
    exact Hs.
  - unfold selection_ticked.
    pose proof (browse_output_file_selection fn err _ s eq_refl) as [= -> ->].
    exact Hs.
  - exact Hs.
  - unfold selection_ticked.
    pose proof (sensor_tick_selection now _ s eq_refl) as [= -> ->].
    exact Hs.
Qed.

Lemma reachable_ticked (es : list event) (t0 t1 : float)
  (files : gmap string (list row)) (w : W) :
  selection_ticked (run es (initial t0 t1 files w)).
Proof.
  unfold run.
  assert (Hinit : selection_ticked (initial t0 t1 files w)
                  ∧ channel_vars (initial t0 t1 files w) ≠ [])
    by (split; [reflexivity | discriminate]).
  revert Hinit. generalize (initial t0 t1 files w).
  induction es as [| e es IH]; intros s Hs; [apply Hs |].
  cbn [foldl]. apply IH, step_ticked, Hs.
Qed.

(** X7: in every state the application can reach, the selected channels
    are exactly the ticked checkboxes, listed in strictly increasing
    order, each a channel number below 8. *)
Theorem selection_lists_ticked_boxes (es : list event) (t0 t1 : float)
  (files : gmap string (list row)) (w : W) :
  let s := run es (initial t0 t1 files w) in
  StronglySorted lt (selected_channels s)
  ∧ ∀ ch, ch ∈ selected_channels s
          ↔ (ch < 8)%nat ∧ channel_vars s !! ch = Some 1%Z.
Proof.
  cbv zeta.
  pose proof (reachable_ticked es t0 t1 files w) as Hticked.
  destruct (reachable_ok es t0 t1 files w) as [[_ Hlen] _].
  unfold selection_ticked in Hticked. split.
  - rewrite Hticked. apply (ticked_from_sorted id). intros i j Hij. exact Hij.
  - intros ch. rewrite Hticked. unfold checked.
    etransitivity; [apply (ticked_from_elem id) |]. split.
    + intros (i & <- & Hlook). split; [| exact Hlook].
      apply lookup_lt_Some in Hlook. cbn. lia.
    + intros [_ Hlook]. by exists ch.
Qed.

(** ** The series *)

Lemma exec_modify_bind {A} (f : state W → state W)
  (k : unit → M (state W) A) s :
  (modify f ≫= k) s = k tt (f s).
Proof. reflexivity. Qed.

Lemma browse_output_file_series (filename : string)
  (open_error : option string) :
  keeps_series (browse_output_file filename open_error).
Proof.
  intros b.
  unfold browse_output_file, close, flush, open_w, csv_writer_writerow,
    output_file_flush, writerow, flush, put_object, messagebox.
  preserves_steps; exact id.
Qed.

(** [start_recording] always leaves the series empty, whether the header
    can be written or not. *)
Lemma start_recording_series (now : float) s :
  sensor_data_time (exec (start_recording now) s) = []
  ∧ sensor_data_voltages (exec (start_recording now) s) = [].
Proof.
  unfold start_recording. rewrite !exec_modify_bind.
  match goal with |- context [exec ?rest ?s3] =>
    assert (Hkeep : keeps_series rest);
    [| pose proof (Hkeep _ s3 eq_refl) as [= -> ->]; done]
  end.
  intros b. unfold csv_writer_writerow, output_file_flush, writerow, flush,
    put_object.
  preserves_steps; exact id.
Qed.

Lemma sensor_tick_idle (now : float) s :
  (delta_t s <=? now - last_reading_time s)%float = false →
  sensor_tick now s = (Ok tt, s).
Proof.
  intros Hearly. unfold sensor_tick. cbv [mbind M_bind gets when].
  rewrite Hearly. reflexivity.
Qed.

(** A due round appends one time stamp and one row of readings, and
    leaves the rest of the series alone, whatever becomes of the row on
    file. *)
Lemma sensor_tick_appends (now : float) s (readings : list float) s1 :
  (delta_t s <=? now - last_reading_time s)%float = true →
  read_sensors (selected_channels s) s = (Ok readings, s1) →
  sensor_data_time (exec (sensor_tick now) s)
  = sensor_data_time s ++ [py_round (now - start_time s) 3]
  ∧ sensor_data_voltages (exec (sensor_tick now) s)
    = sensor_data_voltages s ++ [readings].
Proof.
  intros Hdue Hread. rewrite (sensor_tick_due now s readings s1 Hdue Hread).
  destruct (read_sensors_loop_frame (selected_channels s) [] s)
    as (readings' & w & lines & _ & Hread' & _).
  rewrite Hread in Hread'. injection Hread' as <- ->.
  cbv zeta.
  match goal with |- context [if ?b then _ else _] => destruct b end;
    [| done].
  match goal with |- context [(csv_writer_writerow ?r;; output_file_flush) ?s2] =>
    destruct (writerow_flush_frame r s2) as (res & objs & d & Hrow);
    rewrite Hrow
  end.
  destruct res as [[] | e]; done.
Qed.

Lemma step_series_ok s (e : event) : series_ok s → series_ok (step s e).
Proof.
  unfold step, series_ok. intros Hs.
  destruct e as [i | text | | now fn err | fn err | | now]; cbn [handler].
  - assert (Hkeep : keeps_series (click_channel i)).
    { intros b. unfold click_channel, update_selected_channels, messagebox.
      preserves_steps; exact id. }
    by pose proof (Hkeep _ s eq_refl) as [= -> ->].
  - exact Hs.
  - assert (Hkeep : keeps_series update_acquisition_interval).
    { intros b. unfold update_acquisition_interval, messagebox.
      preserves_steps; exact id. }
    by pose proof (Hkeep _ s eq_refl) as [= -> ->].
  - revert s Hs. change (preserves series_ok (toggle_recording now fn err)).
    unfold toggle_recording. preserves_steps; try (intros Hs; exact Hs).
    + intros s Hs. unfold series_ok.
      by pose proof (browse_output_file_series fn err _ s eq_refl)
        as [= -> ->].
    + intros s _. unfold series_ok.
      by destruct (start_recording_series now s) as [-> ->].
    + intros s _. unfold series_ok.
      by destruct (start_recording_series now s) as [-> ->].
  - by pose proof (browse_output_file_series fn err _ s eq_refl) as [= -> ->].
  - reflexivity.
  - destruct (delta_t s <=? now - last_reading_time s)%float eqn:Hdue.
    + destruct (read_sensors_loop_frame (selected_channels s) [] s)
        as (readings & w & lines & _ & Hread & _).
      destruct (sensor_tick_appends now s _ _ Hdue Hread) as [-> ->].
      rewrite !length_app. cbn. lia.
    + by rewrite sensor_tick_idle.
Qed.

(** X8: a handler or a round of the sampler that starts with as many
    reading rows as time stamps in the series, and runs to its end with
    no statement of the other thread in between, leaves as many reading
    rows as time stamps. *)
Theorem series_lists_go_together s (e : event) :
  length (sensor_data_time s) = length (sensor_data_voltages s) →
  length (sensor_data_time (step s e))
  = length (sensor_data_voltages (step s e)).
Proof. exact (step_series_ok s e). Qed.

(** ** Choosing the output file *)

Lemma close_open (o : nat) (f : fileobj) s :
  objects s !! o = Some f →
  f_closed f = false →
  close o s
  = (Ok tt,
     set_objects (<[o := FileObj (f_name f) true []]> (objects s))
       (set_disk
          (<[f_name f := default [] (disk s !! f_name f) ++ f_buffer f]>
             (disk s))
          s)).
Proof.
  intros Hobj Hopen.
  assert (Hlt : (o < length (objects s))%nat)
    by (apply lookup_lt_is_Some; eauto).
  unfold close, flush, get_object, put_object.
  cbv [mbind M_bind mret M_ret gets modify raise].
  rewrite Hobj, Hopen. cbn [objects set_disk]. rewrite Hobj, Hopen.
  cbn [fst snd objects set_objects set_disk].
  rewrite list_insert_insert_eq. reflexivity.
Qed.

(** What closing the old sink leaves of the globals. *)
Lemma old_sink_closed_frame s :
  sink_ok s →
  is_recording (old_sink_closed s) = is_recording s
  ∧ selected_channels (old_sink_closed s) = selected_channels s
  ∧ output_file (old_sink_closed s) = output_file s
  ∧ dialogs (old_sink_closed s) = dialogs s
  ∧ length (objects (old_sink_closed s)) = length (objects s)
  ∧ (match output_file s with
     | Some o => close o
     | None => mret tt
     end) s = (Ok tt, old_sink_closed s).
Proof.
  intros Hok. unfold old_sink_closed.
  destruct (output_file s) as [o |] eqn:Hfile; [| done].
  destruct (Hok o Hfile) as (_ & f & Hobj & Hopen).
  rewrite (close_open o f s Hobj Hopen). cbn. rewrite length_insert. done.
Qed.

Lemma browse_output_file_fails (filename msg : string) s :
  filename ≠ "" →
  sink_ok s →
  browse_output_file filename (Some msg) s
  = (Ok tt,
     set_output_file None
       (set_dialogs
          (dialogs s ++ [ErrorBox "File Error"
                           ("Could not open file: " +:+ msg)])
          (old_sink_closed s))).
Proof.
  intros Hname Hok.
  destruct (old_sink_closed_frame s Hok)
    as (_ & _ & _ & Hdialogs & _ & Hclose).
  unfold browse_output_file.
  destruct (String.eqb_spec filename "") as [| _]; [done |].
  unfold try_except, open_w, messagebox.
  cbv [mbind M_bind mret M_ret gets modify raise any_exception]
    in Hclose |- *.
  rewrite Hclose. cbn [str_exn]. rewrite Hdialogs. reflexivity.
Qed.

(** The state [browse_output_file] is to leave when the file opens: the
    old sink closed, the new file the sink, and the header in it if a
    recording is on. *)
Lemma browse_output_file_opens (filename : string) s :
  filename ≠ "" →
  sink_ok s →
  browse_output_file filename None s
  = (Ok tt,
     let s2 := browsed filename (old_sink_closed s) in
     if is_recording s then
       set_objects
         (<[length (objects (old_sink_closed s))
            := FileObj filename false []]> (objects s2))
         (set_disk
            (<[filename := [header_row (selected_channels s)]]> (disk s2))
            s2)
     else s2).
Proof.
  intros Hname Hok.
  destruct (old_sink_closed_frame s Hok)
    as (Hrec & Hsel & _ & _ & _ & Hclose).
  set (s1 := old_sink_closed s) in *.
  pose proof (writerow_flush_open
                (header_row (selected_channels (browsed filename s1)))
                (browsed filename s1) (length (objects s1))
                (FileObj filename false []) eq_refl eq_refl) as Hrow.
  unfold browse_output_file.
  destruct (String.eqb_spec filename "") as [| _]; [done |].
  unfold try_except, open_w.
  cbv [mbind M_bind mret M_ret gets modify when] in Hrow, Hclose |- *.
  rewrite Hclose.
  change (set_file_label _ (set_csv_writer _ (set_output_file _
            (set_objects _ (set_disk _ s1)))))
    with (browsed filename s1).
  change (is_recording (browsed filename s1)) with (is_recording s1).
  rewrite Hrec. destruct (is_recording s); [| reflexivity].
  rewrite Hrow; [| | reflexivity].
  - assert (Hdisk : disk (browsed filename s1) !! filename = Some [])
      by (unfold browsed; cbn; apply lookup_insert_eq).
    cbn [f_name f_buffer selected_channels set_file_label set_csv_writer
         set_output_file set_objects set_disk].
    rewrite Hdisk.
    change (selected_channels (browsed filename s1))
      with (selected_channels s1).
    rewrite Hsel. reflexivity.
  - unfold browsed.
    cbn [objects set_file_label set_csv_writer set_output_file set_objects].
    rewrite lookup_app_r by done. by rewrite Nat.sub_diag.
Qed.

(** A round of the sampler with no sink, or with no recording on, leaves
    the files alone. *)
Lemma sensor_tick_without_sink (now : float) s :
  output_file s = None ∨ is_recording s = false →
  disk (exec (sensor_tick now) s) = disk s
  ∧ objects (exec (sensor_tick now) s) = objects s
  ∧ output_file (exec (sensor_tick now) s) = output_file s.
Proof.
  intros Hoff.
  destruct (delta_t s <=? now - last_reading_time s)%float eqn:Hdue;
    [| by rewrite sensor_tick_idle].
  destruct (read_sensors_loop_frame (selected_channels s) [] s)
    as (readings & w & lines & _ & Hread & _).
  rewrite (sensor_tick_due now s readings _ Hdue Hread). cbv zeta.
  cbn [is_recording output_file csv_writer set_stdout set_adc].
  destruct Hoff as [Hoff | Hoff]; rewrite Hoff; cbn [truthy andb];
    rewrite ?andb_false_r; cbn; done.
Qed.

(** X9: choosing a file that opens makes it the sink with the writer
    bound to it, and empties it on disk; with a recording on, the header
    of the selected channels is written to it at once, otherwise
    nothing is.  The sink there was before is closed with its buffered
    rows on disk. *)
Theorem browse_opens_fresh_file (filename : string) s :
  filename ≠ "" →
  sink_ok s →
  let s' := exec (browse_output_file filename None) s in
  let n := length (objects s) in
  output_file s' = Some n
  ∧ csv_writer s' = Some n
  ∧ objects s' !! n = Some (FileObj filename false [])
  ∧ disk s' !! filename
    = Some (if is_recording s then [header_row (selected_channels s)]
            else [])
  ∧ is_recording s' = is_recording s
  ∧ ∀ o f, output_file s = Some o → objects s !! o = Some f →
      objects s' !! o = Some (FileObj (f_name f) true [])
      ∧ (f_name f ≠ filename →
         disk s' !! f_name f
         = Some (default [] (disk s !! f_name f) ++ f_buffer f)).
Proof.
  intros Hname Hok. cbv zeta.
  rewrite (browse_output_file_opens filename s Hname Hok). cbn [snd].
  destruct (old_sink_closed_frame s Hok) as (Hrec & _ & _ & _ & Hlen & _).
  assert (Hold : ∀ o f, output_file s = Some o → objects s !! o = Some f →
            objects (old_sink_closed s) !! o
            = Some (FileObj (f_name f) true [])
            ∧ disk (old_sink_closed s) !! f_name f
              = Some (default [] (disk s !! f_name f) ++ f_buffer f)).
  { intros o f Hfile Hobj. unfold old_sink_closed. rewrite Hfile.
    destruct (Hok o Hfile) as (_ & f' & Hobj' & Hopen).
    assert (f' = f) as -> by congruence.
    rewrite (close_open o f s Hobj Hopen). cbn.
    rewrite lookup_insert_eq.
    rewrite list_lookup_insert_eq by (apply lookup_lt_is_Some; eauto).
    done. }
  set (s1 := old_sink_closed s) in *.
  assert (Hnew : (objects s1 ++ [FileObj filename false []]) !! length (objects s)
                 = Some (FileObj filename false [])).
  { rewrite lookup_app_r by lia. by rewrite Hlen, Nat.sub_diag. }
  destruct (is_recording s); unfold browsed;
    cbn [output_file csv_writer objects disk is_recording set_file_label
         set_csv_writer set_output_file set_objects set_disk];
    rewrite ?Hlen, ?lookup_insert_eq.
  - repeat (split; [done |]).
    split; [apply list_lookup_insert_eq; rewrite length_app; cbn; lia |].
    repeat (split; [done |]).
    intros o f Hfile Hobj. destruct (Hold o f Hfile Hobj) as [Hclosed Hdisk].
    assert (Hlt : (o < length (objects s))%nat)
      by (apply lookup_lt_is_Some; eauto).
    split.
    + rewrite list_lookup_insert_ne by lia.
      rewrite lookup_app_l by lia. exact Hclosed.
    + intros Hother. rewrite !lookup_insert_ne by done. exact Hdisk.
  - repeat (split; [done |]).
    intros o f Hfile Hobj. destruct (Hold o f Hfile Hobj) as [Hclosed Hdisk].
    assert (Hlt : (o < length (objects s))%nat)
      by (apply lookup_lt_is_Some; eauto).
    split.
    + rewrite lookup_app_l by lia. exact Hclosed.
    + intros Hother. rewrite lookup_insert_ne by done. exact Hdisk.
Qed.

(** X10: when the chosen file cannot be opened, an error box is shown
    and no sink is left: the one there was before is closed, and the
    recording flag stays as it was, so that a recording that was on goes
    on appending to the series while its rounds write nothing more to
    disk. *)
Theorem browse_failure_leaves_no_sink (filename msg : string) s :
  filename ≠ "" →
  sink_ok s →
  let s' := exec (browse_output_file filename (Some msg)) s in
  output_file s' = None
  ∧ is_recording s' = is_recording s
  ∧ dialogs s'
    = dialogs s ++ [ErrorBox "File Error" ("Could not open file: " +:+ msg)]
  ∧ (∀ o f, output_file s = Some o → objects s !! o = Some f →
       objects s' !! o = Some (FileObj (f_name f) true []))
  ∧ ∀ now, disk (exec (sensor_tick now) s') = disk s'
           ∧ objects (exec (sensor_tick now) s') = objects s'.
Proof.
  intros Hname Hok. cbv zeta.
  rewrite (browse_output_file_fails filename msg s Hname Hok). cbn [snd].
  destruct (old_sink_closed_frame s Hok) as (Hrec & _ & _ & _ & _ & _).
  split; [done |]. split; [exact Hrec |]. split; [done |]. split.
  - intros o f Hfile Hobj. cbn. unfold old_sink_closed. rewrite Hfile.
    destruct (Hok o Hfile) as (_ & f' & Hobj' & Hopen).
    assert (f' = f) as -> by congruence.
    rewrite (close_open o f s Hobj Hopen). cbn.
    apply list_lookup_insert_eq, lookup_lt_is_Some. eauto.
  - intros now.
    match goal with |- context [exec (sensor_tick now) ?s'] =>
      destruct (sensor_tick_without_sink now s' (or_introl eq_refl))
        as (Hdisk & Hobjects & _)
    end.
    split; [exact Hdisk | exact Hobjects].
Qed.


(** ** Rows on disk *)

Lemma on_disk_flush (name : string) (rows : list row) (f : fileobj) s :
  on_disk name rows s →
  on_disk name rows
    (set_disk
       (<[f_name f := default [] (disk s !! f_name f) ++ f_buffer f]>
          (disk s)) s).
Proof.
  intros [more Hrows]. unfold on_disk. cbn.
  destruct (decide (f_name f = name)) as [-> | Hother].
  - rewrite lookup_insert_eq, Hrows. cbn.
    exists (more ++ f_buffer f). by rewrite app_assoc.
  - rewrite lookup_insert_ne by done. by exists more.
Qed.

Lemma on_disk_open (name filename : string) (rows : list row) s :
  filename ≠ name →
  on_disk name rows s →
  on_disk name rows (set_disk (<[filename := []]> (disk s)) s).
Proof.
  intros Hother [more Hrows]. unfold on_disk. cbn.
  rewrite lookup_insert_ne by done. by exists more.
Qed.

Lemma browse_output_file_on_disk (name filename : string)
  (rows : list row) (open_error : option string) :
  filename ≠ name →
  preserves (on_disk name rows) (browse_output_file filename open_error).
Proof.
  intros Hother.
  unfold browse_output_file, close, flush, open_w, csv_writer_writerow,
    output_file_flush, writerow, flush, put_object, messagebox.
  preserves_steps;
    try exact id; try apply on_disk_flush; by apply on_disk_open.
Qed.

Lemma toggle_recording_on_disk (name filename : string) (rows : list row)
  (now : float) (open_error : option string) :
  filename ≠ name →
  preserves (on_disk name rows) (toggle_recording now filename open_error).
Proof.
  intros Hother.
  unfold toggle_recording, start_recording, csv_writer_writerow,
    output_file_flush, writerow, flush, put_object.
  preserves_steps;
    try exact id; try apply on_disk_flush;
    by apply browse_output_file_on_disk.
Qed.

Lemma sensor_tick_on_disk (name : string) (rows : list row) (now : float) :
  preserves (on_disk name rows) (sensor_tick now).
Proof.
  unfold sensor_tick, csv_writer_writerow, output_file_flush, writerow,
    flush, put_object, print.
  preserves_steps; try exact id; try apply on_disk_flush.
  by apply read_sensors_preserves.
Qed.

Lemma step_on_disk (name : string) (rows : list row) s (e : event) :
  ¬ asks_for name e → on_disk name rows s → on_disk name rows (step s e).
Proof.
  intros Hother. revert s.
  change (preserves (on_disk name rows) (handler e)).
  destruct e as [i | text | | now filename open_error
                 | filename open_error | | now]; cbn [handler].
  - unfold click_channel, update_selected_channels, messagebox.
    preserves_steps; exact id.
  - preserves_steps; exact id.
  - unfold update_acquisition_interval, messagebox.
    preserves_steps; exact id.
  - apply toggle_recording_on_disk. intros ->. by apply Hother.
  - apply browse_output_file_on_disk. intros ->. by apply Hother.
  - unfold clear_plot_data. preserves_steps; exact id.
  - apply sensor_tick_on_disk.
Qed.

(** X11: the rows a file has on disk are never lost, changed or
    reordered, only added to, whatever is clicked and however many
    rounds the sampler makes, as long as no save dialog is answered
    with the name of that file. *)
Theorem rows_on_disk_are_kept (name : string) (rows : list row)
  (es : list event) s :
  Forall (λ e, ¬ asks_for name e) es →
  disk s !! name = Some rows →
  ∃ more, disk (run es s) !! name = Some (rows ++ more).
Proof.
  intros Hes Hrows.
  assert (Hstart : on_disk name rows s)
    by (exists []; by rewrite app_nil_r).
  clear Hrows. revert s Hstart.
  induction Hes as [| e es He _ IH]; intros s Hs; [exact Hs |].
  apply IH. by apply step_on_disk.
Qed.

(** ** The files are settled between events *)

Lemma files_ok_frame s s' :
  output_file s' = output_file s →
  csv_writer s' = csv_writer s →
  objects s' = objects s →
  files_ok s → files_ok s'.
Proof.
  unfold files_ok, sink_ok. intros -> -> ->. done.
Qed.

Lemma keeps_files_ok {A} (m : M (state W) A) :
  keeps_files m → preserves files_ok m.
Proof.
  intros Hkeeps s Hs.
  specialize (Hkeeps (output_file s, csv_writer s, objects s) s eq_refl).
  injection Hkeeps as Hfile Hwriter Hobjects.
  by apply (files_ok_frame s).
Qed.

(** Writing to the sink and flushing it leaves the files settled. *)
Lemma files_ok_written s (o : nat) (name : string) s' :
  output_file s = Some o →
  output_file s' = output_file s →
  csv_writer s' = csv_writer s →
  objects s' = <[o := FileObj name false []]> (objects s) →
  files_ok s → files_ok s'.
Proof.
  intros Hfile Hfile' Hwriter' Hobjects' [Hsink Hrest].
  destruct (Hsink o Hfile) as (Hwriter & f & Hobj & Hopen).
  assert (Hlt : (o < length (objects s))%nat)
    by (apply lookup_lt_is_Some; eauto).
  split.
  - intros o' Ho'. rewrite Hfile', Hfile in Ho'. injection Ho' as <-.
    rewrite Hwriter', Hobjects'. split; [done |].
    exists (FileObj name false []).
    by rewrite list_lookup_insert_eq.
  - intros o' f'. rewrite Hobjects', Hfile'.
    destruct (decide (o' = o)) as [-> | Hne].
    + rewrite list_lookup_insert_eq by done. intros [= <-]. done.
    + rewrite list_lookup_insert_ne by done. apply Hrest.
Qed.

(** Once the sink is closed every file object is, with nothing left in
    a buffer. *)
Lemma old_sink_closed_shut s :
  files_ok s →
  ∀ o f, objects (old_sink_closed s) !! o = Some f →
         f_buffer f = [] ∧ f_closed f = true.
Proof.
  intros [Hsink Hrest] o f. unfold old_sink_closed.
  destruct (output_file s) as [o' |] eqn:Hfile.
  - destruct (Hsink o' Hfile) as (_ & f' & Hobj & Hopen).
    rewrite (close_open o' f' s Hobj Hopen). cbn.
    destruct (decide (o = o')) as [-> | Hne].
    + rewrite list_lookup_insert_eq
        by (apply lookup_lt_is_Some; eauto).
      intros [= <-]. done.
    + rewrite list_lookup_insert_ne by done. intros Hobj'.
      destruct (Hrest o f Hobj') as [Hbuffer Hshut]. split; [done |].
      destruct (f_closed f); [done |].
      specialize (Hshut eq_refl). congruence.
  - intros Hobj. destruct (Hrest o f Hobj) as [Hbuffer Hshut].
    split; [done |].
    destruct (f_closed f); [done |]. by specialize (Hshut eq_refl).
Qed.

(** A file opened past file objects that are all closed is the one open
    file. *)
Lemma files_ok_browsed (filename : string) s s' :
  (∀ o f, objects s !! o = Some f → f_buffer f = [] ∧ f_closed f = true) →
  output_file s' = Some (length (objects s)) →
  csv_writer s' = Some (length (objects s)) →
  objects s' = objects s ++ [FileObj filename false []] →
  files_ok s'.
Proof.
  intros Hshut Hfile Hwriter Hobjects. split.
  - intros o. rewrite Hfile, Hwriter, Hobjects. intros [= <-].
    split; [done |]. exists (FileObj filename false []).
    rewrite lookup_app_r by done. by rewrite Nat.sub_diag.
  - intros o f. rewrite Hobjects, Hfile. intros Hobj.
    apply lookup_app_Some in Hobj as [Hold | [Hge Hnew]].
    + destruct (Hshut o f Hold) as [Hbuffer Hclosed].
      split; [done |]. congruence.
    + destruct (o - length (objects s))%nat as [| k] eqn:Hk;
        [| by destruct k].
      injection Hnew as <-. split; [done |].
      intros _. f_equal. lia.
Qed.

Lemma files_ok_no_sink s s' :
  (∀ o f, objects s !! o = Some f → f_buffer f = [] ∧ f_closed f = true) →
  output_file s' = None →
  objects s' = objects s →
  files_ok s'.
Proof.
  intros Hshut Hfile Hobjects. split.
  - intros o. by rewrite Hfile.
  - intros o f. rewrite Hobjects. intros Hobj.
    destruct (Hshut o f Hobj) as [Hbuffer Hclosed].
    split; [done |]. congruence.
Qed.

Lemma browse_output_file_cancelled (open_error : option string) s :
  browse_output_file "" open_error s = (Ok tt, s).
Proof. reflexivity. Qed.

Lemma browse_output_file_files_ok (filename : string)
  (open_error : option string) :
  preserves files_ok (browse_output_file filename open_error).
Proof.
  intros s Hs. pose proof Hs as [Hsink _].
  destruct (decide (filename = "")) as [-> | Hname]; [done |].
  pose proof (old_sink_closed_shut s Hs) as Hshut.
  destruct (old_sink_closed_frame s Hsink) as (_ & _ & _ & _ & Hlen & _).
  destruct open_error as [msg |].
  - rewrite (browse_output_file_fails filename msg s Hname Hsink).
    by apply (files_ok_no_sink (old_sink_closed s)).
  - rewrite (browse_output_file_opens filename s Hname Hsink). cbn [snd].
    cbv zeta.
    assert (Hbrowsed : files_ok (browsed filename (old_sink_closed s)))
      by by apply (files_ok_browsed filename (old_sink_closed s)).
    destruct (is_recording s); [| exact Hbrowsed].
    eapply (files_ok_written (browsed filename (old_sink_closed s))
              (length (objects (old_sink_closed s))) filename);
      [done .. | exact Hbrowsed].
Qed.

Lemma started_on_files_ok (now : float) (o : nat) (f : fileobj) s :
  output_file s = Some o →
  files_ok s → files_ok (started_on now o f s).
Proof.
  intros Hfile. by apply (files_ok_written s o (f_name f)).
Qed.

(** The closed form of a start that prompts for a file and is refused
    it. *)
Lemma toggle_recording_refused (now : float) (filename msg : string) s :
  filename ≠ "" →
  is_recording s = false →
  output_file s = None →
  toggle_recording now filename (Some msg) s
  = (Ok tt,
     set_output_file None
       (set_dialogs
          (dialogs s ++ [ErrorBox "File Error"
                           ("Could not open file: " +:+ msg)])
          s)).
Proof.
  intros Hname Hrec Hfile.
  pose proof (browse_output_file_fails filename msg s Hname
                (sink_ok_none s Hfile)) as Hbrowse.
  unfold old_sink_closed in Hbrowse. rewrite Hfile in Hbrowse.
  unfold toggle_recording. cbv [mbind M_bind mret M_ret gets].
  rewrite Hrec. cbn [negb]. rewrite Hfile. cbn [negb truthy].
  rewrite Hbrowse. reflexivity.
Qed.

(** X12: starting a recording with no sink, when the file chosen at the
    prompt cannot be opened, starts nothing: the flag stays clear and
    the button unchanged, the time origin and the series are untouched,
    no header is written, no sink is set and the error box is shown. *)
Theorem start_fails_without_file (now : float) (filename msg : string) s :
  filename ≠ "" →
  is_recording s = false →
  output_file s = None →
  let s' := exec (toggle_recording now filename (Some msg)) s in
  is_recording s' = false
  ∧ record_button s' = record_button s
  ∧ start_time s' = start_time s
  ∧ sensor_data_time s' = sensor_data_time s
  ∧ sensor_data_voltages s' = sensor_data_voltages s
  ∧ disk s' = disk s
  ∧ objects s' = objects s
  ∧ output_file s' = None
  ∧ dialogs s'
    = dialogs s ++ [ErrorBox "File Error" ("Could not open file: " +:+ msg)].
Proof.
  intros Hname Hrec Hfile. cbv zeta.
  rewrite (toggle_recording_refused now filename msg s Hname Hrec Hfile).
  cbn. by rewrite Hrec.
Qed.

Lemma toggle_recording_files_ok (now : float) (filename : string)
  (open_error : option string) :
  preserves files_ok (toggle_recording now filename open_error).
Proof.
  intros s Hs. pose proof Hs as [Hsink _].
  destruct (is_recording s) eqn:Hrec.
  { rewrite (toggle_recording_stop now filename open_error s Hrec).
    by apply (files_ok_frame s). }
  destruct (output_file s) as [o |] eqn:Hfile.
  { destruct (Hsink o Hfile) as (Hwriter & f & Hobj & Hopen).
    rewrite (toggle_recording_start now filename open_error s o f
               Hrec Hfile Hwriter Hobj Hopen).
    by apply started_on_files_ok. }
  destruct (decide (filename = "")) as [-> | Hname].
  { by rewrite (toggle_recording_cancelled now open_error s Hrec Hfile). }
  destruct open_error as [msg |].
  - rewrite (toggle_recording_refused now filename msg s Hname Hrec Hfile).
    apply (files_ok_no_sink s); [| done ..].
    intros o f Hobj. destruct Hs as [_ Hrest].
    destruct (Hrest o f Hobj) as [Hbuffer Hshut]. split; [done |].
    destruct (f_closed f); [done |].
    specialize (Hshut eq_refl). congruence.
  - rewrite (toggle_recording_prompt now filename s Hname Hrec Hfile).
    apply started_on_files_ok; [done |].
    apply (files_ok_browsed filename s); [| done ..].
    intros o f Hobj. destruct Hs as [_ Hrest].
    destruct (Hrest o f Hobj) as [Hbuffer Hshut]. split; [done |].
    destruct (f_closed f); [done |].
    specialize (Hshut eq_refl). congruence.
Qed.

Lemma sensor_tick_files_ok (now : float) :
  preserves files_ok (sensor_tick now).
Proof.
  intros s Hs.
  destruct (delta_t s <=? now - last_reading_time s)%float eqn:Hdue;
    [| by rewrite sensor_tick_idle].
  destruct (read_sensors_loop_frame (selected_channels s) [] s)
    as (readings & w & lines & _ & Hread & _).
  rewrite (sensor_tick_due now s readings _ Hdue Hread). cbv zeta.
  cbn [is_recording output_file csv_writer set_stdout set_adc start_time
       sensor_data_time sensor_data_voltages].
  destruct (is_recording s && truthy (output_file s)
            && truthy (csv_writer s)) eqn:Hon;
    [| by apply (files_ok_frame s)].
  apply andb_prop in Hon as [Hon _]. apply andb_prop in Hon as [_ Hon].
  destruct (output_file s) as [o |] eqn:Hfile; [| done].
  pose proof Hs as [Hsink _].
  destruct (Hsink o Hfile) as (Hwriter & f & Hobj & Hopen).
  match goal with
  | |- context [(csv_writer_writerow ?r;; output_file_flush) ?s2] =>
      rewrite (writerow_flush_open r s2 o f Hwriter Hfile Hobj Hopen)
  end.
  by apply (files_ok_written s o (f_name f)).
Qed.

Lemma step_files_ok s (e : event) : files_ok s → files_ok (step s e).
Proof.
  revert s. change (preserves files_ok (handler e)).
  destruct e as [i | text | | now filename open_error
                 | filename open_error | | now]; cbn [handler].
  - apply keeps_files_ok. intros b.
    unfold click_channel, update_selected_channels, messagebox.
    preserves_steps; exact id.
  - apply keeps_files_ok. intros b. preserves_steps; exact id.
  - apply keeps_files_ok. intros b.
    unfold update_acquisition_interval, messagebox.
    preserves_steps; exact id.
  - apply toggle_recording_files_ok.
  - apply browse_output_file_files_ok.
  - apply keeps_files_ok. intros b.
    unfold clear_plot_data. preserves_steps; exact id.
  - apply sensor_tick_files_ok.
Qed.

(** X13: a handler or a round of the sampler that finds the files
    settled, and runs to its end with no statement of the other thread
    in between, leaves them settled, however the file system answers
    the save dialog (an open file is taken to accept every row): no row
    waits in a buffer, so that every row written is on disk, and the
    only file left open, if any, is the one [output_file] refers to,
    with the writer bound to it. *)
Theorem files_settled_between_events s (e : event) :
  files_ok s →
  let s' := step s e in
  (∀ o f, objects s' !! o = Some f →
          f_buffer f = []
          ∧ (f_closed f = false → output_file s' = Some o))
  ∧ (∀ o, output_file s' = Some o →
          csv_writer s' = Some o
          ∧ ∃ f, objects s' !! o = Some f ∧ f_closed f = false).
Proof.
  intros Hs. cbv zeta.
  destruct (step_files_ok s e Hs) as [Hsink Hrest].
  split; [exact Hrest | exact Hsink].
Qed.

(** ** The plot *)

Lemma py_index_elem (i : nat) (channels : list nat) :
  i ∈ channels →
  ∃ k, py_index i channels = inr k ∧ channels !! k = Some i.
Proof.
  intros Hin. unfold py_index.
  destruct (list_find (λ ch, ch = i) channels) as [[k ch] |] eqn:Hfind.
  - apply list_find_Some in Hfind as (Hk & -> & _). by exists k.
  - apply list_find_None in Hfind.
    rewrite Forall_forall in Hfind. by destruct (Hfind i Hin).
Qed.

Lemma py_index_NoDup (i k : nat) (channels : list nat) :
  NoDup channels → channels !! k = Some i → py_index i channels = inr k.
Proof.
  intros Hnodup Hk.
  destruct (py_index_elem i channels) as (k' & Hindex & Hk').
  { by apply list_elem_of_lookup_2 in Hk. }
  rewrite Hindex. f_equal. by apply (NoDup_lookup channels k' k i).
Qed.


Lemma column_short (k : nat) (voltages : list (list float))
  (readings : list float) :
  readings ∈ voltages → (length readings ≤ k)%nat →
  column k voltages = inl index_error.
Proof.
  intros Hin Hshort. unfold column.
  destruct (mapM (λ v : list float, v !! k) voltages) as [ys |] eqn:Hcol;
    [| done].
  apply mapM_Some in Hcol.
  apply list_elem_of_lookup in Hin as [j Hj].
  destruct (Forall2_lookup_l _ _ _ _ _ Hcol Hj) as (y & _ & Hy).
  apply lookup_lt_Some in Hy. lia.
Qed.


Lemma plot_line_selected s (i k : nat) (lines : list line2d) :
  NoDup (selected_channels s) →
  selected_channels s !! k = Some i →
  plot_line s i lines
  = match column k (sensor_data_voltages s) with
    | inr ys => (Ok tt, <[i := Line2D (sensor_data_time s) ys]> lines)
    | inl e => (Raise e, lines)
    end.
Proof.
  intros Hnodup Hk. unfold plot_line.
  rewrite bool_decide_eq_true_2 by by apply list_elem_of_lookup_2 in Hk.
  cbn [when]. cbv [mbind M_bind].
  rewrite (py_index_NoDup i k _ Hnodup Hk). cbn [of_sum].
  cbv [mret M_ret].
  by destruct (column k (sensor_data_voltages s)).
Qed.

(** The loop body raises nothing but [IndexError], and leaves the lines
    as they are when it does. *)
Lemma plot_line_cases s (i : nat) (lines : list line2d) :
  (∃ lines', plot_line s i lines = (Ok tt, lines')
             ∧ length lines' = length lines)
  ∨ plot_line s i lines = (Raise index_error, lines).
Proof.
  unfold plot_line. case_bool_decide as Hin; [| left; by exists lines].
  destruct (py_index_elem i _ Hin) as (k & Hindex & _).
  cbn [when]. cbv [mbind M_bind]. rewrite Hindex. cbn [of_sum].
  cbv [mret M_ret]. unfold column.
  destruct (mapM _ _) as [ys |]; cbn [of_sum].
  - left. eexists. split; [reflexivity |]. apply length_insert.
  - by right.
Qed.

Lemma for_each_plot_raises s (ch : nat) (indices : list nat) :
  ch ∈ indices →
  (∀ lines, plot_line s ch lines = (Raise index_error, lines)) →
  ∀ lines, (for_each (plot_line s) indices lines).1 = Raise index_error.
Proof.
  intros Hin Hfails.
  induction indices as [| i indices IH]; intros lines;
    [by apply elem_of_nil in Hin |].
  cbn [for_each]. cbv [mbind M_bind].
  destruct (plot_line_cases s i lines) as [(lines' & Hok & _) | ->];
    [| done].
  rewrite Hok.
  apply elem_of_cons in Hin as [-> | Hin]; [| by apply IH].
  rewrite Hfails in Hok. discriminate.
Qed.

Lemma update_plot_short_row s (lines : list line2d)
  (readings : list float) :
  sensor_data_time s ≠ [] →
  NoDup (selected_channels s) →
  (∀ ch, ch ∈ selected_channels s → (ch < length lines)%nat) →
  readings ∈ sensor_data_voltages s →
  (length readings < length (selected_channels s))%nat →
  (update_plot s lines).1 = Raise index_error.
Proof.
  intros Htime Hnodup Hrange Hin Hshort. unfold update_plot.
  destruct (sensor_data_time s) as [| t times]; [done |].
  cbn [length Nat.ltb Nat.leb when]. cbv [mbind M_bind gets].
  apply lookup_lt_is_Some in Hshort as [ch Hch].
  apply (for_each_plot_raises s ch).
  - apply elem_of_seq. split; [lia |].
    apply Hrange. by apply list_elem_of_lookup_2 in Hch.
  - intros lines'. rewrite (plot_line_selected s ch _ lines' Hnodup Hch).
    by rewrite (column_short _ _ readings Hin).
Qed.




(** X15: when data is there and some stored row is shorter than the
    selection, [update_plot] raises [IndexError]. *)
Theorem plot_raises_on_short_row s (lines : list line2d)
  (readings : list float) :
  sensor_data_time s ≠ [] →
  NoDup (selected_channels s) →
  (∀ ch, ch ∈ selected_channels s → (ch < length lines)%nat) →
  readings ∈ sensor_data_voltages s →
  (length readings < length (selected_channels s))%nat →
  (update_plot s lines).1 = Raise (IndexError "list index out of range").
Proof. apply update_plot_short_row. Qed.

(** ** A channel added while data is there *)

Lemma checked_elem (vars : list Z) (ch : nat) :
  ch ∈ checked vars ↔ vars !! ch = Some 1%Z.
Proof.
  unfold checked. etransitivity; [apply (ticked_from_elem id) |]. split.
  - by intros (i & <- & Hlook).
  - intros Hlook. by exists ch.
Qed.

Lemma sorted_NoDup (l : list nat) : StronglySorted lt l → NoDup l.
Proof.
  induction 1 as [| x l _ IH Hall]; constructor; [| exact IH].
  intros Hin. rewrite List.Forall_forall in Hall.
  apply list_elem_of_In in Hin. specialize (Hall x Hin). lia.
Qed.

Lemma checked_NoDup (vars : list Z) : NoDup (checked vars).
Proof.
  apply sorted_NoDup. unfold checked.
  apply (ticked_from_sorted id). intros i j Hij. exact Hij.
Qed.

(** Ticking a box that was not ticked selects its channel on top of the
    others and touches nothing of the series. *)
Lemma click_channel_adds (i : nat) s :
  selection_ticked s →
  (i < length (channel_vars s))%nat →
  i ∉ selected_channels s →
  let s' := exec (click_channel i) s in
  NoDup (selected_channels s')
  ∧ (∀ ch, ch ∈ selected_channels s' → (ch < length (channel_vars s))%nat)
  ∧ (length (selected_channels s) < length (selected_channels s'))%nat
  ∧ sensor_data_time s' = sensor_data_time s
  ∧ sensor_data_voltages s' = sensor_data_voltages s.
Proof.
  intros Hticked Hi Hout. cbv zeta. unfold selection_ticked in Hticked.
  set (flip := λ v : Z, if (v =? 1)%Z then 0%Z else 1%Z).
  set (vars := alter flip i (channel_vars s)).
  change (click_channel i s)
    with (update_selected_channels (set_channel_vars vars s)).
  assert (Hnew : vars !! i = Some 1%Z).
  { subst vars. rewrite list_lookup_alter_eq.
    apply lookup_lt_is_Some in Hi as [v Hv]. rewrite Hv. cbn. f_equal.
    subst flip. cbn. destruct (Z.eqb_spec v 1) as [-> | _]; [| done].
    destruct Hout. rewrite Hticked. by apply checked_elem. }
  assert (Hold : ∀ ch, ch ∈ selected_channels s → vars !! ch = Some 1%Z).
  { intros ch Hch. subst vars.
    rewrite list_lookup_alter_ne by (intros ->; by apply Hout).
    apply checked_elem. by rewrite <- Hticked. }
  assert (Hsome : checked vars ≠ []).
  { intros Hnil. apply checked_elem in Hnew. rewrite Hnil in Hnew.
    by apply elem_of_nil in Hnew. }
  rewrite update_selected_channels_some by exact Hsome.
  cbn [snd selected_channels set_selected_channels set_channel_vars
       sensor_data_time sensor_data_voltages channel_vars].
  split; [apply checked_NoDup |]. split; [| split; [| done]].
  - intros ch Hch. apply checked_elem, lookup_lt_Some in Hch.
    subst vars. by rewrite length_alter in Hch.
  - change (length (i :: selected_channels s) ≤ length (checked vars))%nat.
    apply submseteq_length, NoDup_submseteq.
    + constructor; [exact Hout |]. rewrite Hticked. apply checked_NoDup.
    + intros ch Hch. apply checked_elem.
      apply elem_of_cons in Hch as [-> | Hch]; [exact Hnew | by apply Hold].
Qed.

(** X16: once a round of the sampler has stored a row, ticking the box
    of a channel that was not selected makes [update_plot] raise
    [IndexError]: the stored row has no reading for the last of the
    channels now selected. *)
Theorem adding_channel_breaks_plot (es : list event) (t0 t1 : float)
  (files : gmap string (list row)) (w : W) (now : float) (i : nat)
  (lines : list line2d) :
  let s := run es (initial t0 t1 files w) in
  (delta_t s <=? now - last_reading_time s)%float = true →
  (i < 8)%nat →
  i ∉ selected_channels s →
  length lines = 8%nat →
  (update_plot (run [Tick now; ClickChannel i] s) lines).1
  = Raise (IndexError "list index out of range").
Proof.
  cbv zeta. intros Hdue Hi Hout Hlines.
  pose proof (reachable_ticked es t0 t1 files w) as Hticked.
  destruct (reachable_ok es t0 t1 files w) as [[_ Hlen] _].
  set (s := run es (initial t0 t1 files w)) in *.
  destruct (read_sensors_loop_frame (selected_channels s) [] s)
    as (readings & w' & printed & _ & Hread & Hwidth).
  destruct (sensor_tick_appends now s readings _ Hdue Hread)
    as [Htime Hvoltages].
  pose proof (sensor_tick_selection now _ s eq_refl) as [= Hsel Hvars].
  unfold run at 1. cbn [foldl]. unfold step at 1 2. cbn [handler].
  set (s1 := exec (sensor_tick now) s) in *.
  destruct (click_channel_adds i s1) as (Hnodup & Hrange & Hmore & Ht & Hv).
  { unfold selection_ticked. by rewrite Hsel, Hvars. }
  { rewrite Hvars. lia. }
  { by rewrite Hsel. }
  apply (update_plot_short_row _ lines readings).
  - rewrite Ht, Htime. by destruct (sensor_data_time s).
  - exact Hnodup.
  - intros ch Hch. specialize (Hrange ch Hch). rewrite Hvars in Hrange. lia.
  - rewrite Hv, Hvoltages. apply elem_of_app. right. by left.
  - rewrite Hsel in Hmore. lia.
Qed.

(** ** The pace of the sampler *)

(** With a sound sink a due round goes through: the clock reading
    becomes the time of the last reading. *)
Lemma sensor_tick_completes (now : float) s :
  sink_ok s →
  (delta_t s <=? now - last_reading_time s)%float = true →
  last_reading_time (exec (sensor_tick now) s) = now
  ∧ delta_t (exec (sensor_tick now) s) = delta_t s.
Proof.
  intros Hsink Hdue.
  destruct (read_sensors_loop_frame (selected_channels s) [] s)
    as (readings & w & lines & _ & Hread & _).
  rewrite (sensor_tick_due now s readings _ Hdue Hread). cbv zeta.
  cbn [is_recording output_file csv_writer set_stdout set_adc start_time
       sensor_data_time sensor_data_voltages].
  destruct (is_recording s && truthy (output_file s)
            && truthy (csv_writer s)) eqn:Hon; [| done].
  apply andb_prop in Hon as [Hon _]. apply andb_prop in Hon as [_ Hon].
  destruct (output_file s) as [o |] eqn:Hfile; [| done].
  destruct (Hsink o Hfile) as (Hwriter & f & Hobj & Hopen).
  match goal with
  | |- context [(csv_writer_writerow ?r;; output_file_flush) ?s2] =>
      rewrite (writerow_flush_open r s2 o f Hwriter Hfile Hobj Hopen)
  end.
  done.
Qed.

(** X17: a round of the sampler that is due and finds the sink sound
    (no output file, or [output_file] and the writer on the same open
    file, which is taken to accept every row) goes through to the end
    when no statement of the other thread comes in between: it stores
    one point, and the clock reading becomes the time of the last
    reading, so that a round coming less than the interval later does
    nothing at all. *)
Theorem due_round_sets_the_pace (now : float) s :
  sink_ok s →
  (delta_t s <=? now - last_reading_time s)%float = true →
  let s' := step s (Tick now) in
  last_reading_time s' = now
  ∧ length (sensor_data_time s') = S (length (sensor_data_time s))
  ∧ ∀ now', (delta_t s <=? now' - now)%float = false →
            step s' (Tick now') = s'.
Proof.
  cbv zeta. intros Hsink Hdue.
  unfold step. cbn [handler].
  destruct (sensor_tick_completes now s Hsink Hdue) as [Hlast Hdelta].
  destruct (read_sensors_loop_frame (selected_channels s) [] s)
    as (readings & w' & lines & _ & Hread & _).
  destruct (sensor_tick_appends now s readings _ Hdue Hread) as [Htime _].
  split; [exact Hlast |]. split.
  - rewrite Htime, length_app. cbn. lia.
  - intros now' Hearly. rewrite sensor_tick_idle; [done |].
    by rewrite Hdelta, Hlast.
Qed.

(** ** Where the other thread comes in *)

(** The two halves of a round make the round. *)
Lemma sensor_tick_in_two (now : float) s :
  sensor_tick now s
  = (locals ← sensor_tick_to_time now;
     match locals with
     | Some (readings, current_time_relative) =>
         sensor_tick_from_time now readings current_time_relative
     | None => mret tt
     end) s.
Proof.
  unfold sensor_tick, sensor_tick_to_time, sensor_tick_from_time.
  cbv [mbind M_bind gets when].
  destruct (delta_t s <=? now - last_reading_time s)%float; [| reflexivity].
  destruct (read_sensors_loop_frame (selected_channels s) [] s)
    as (readings & w & lines & _ & Hread & _).
  unfold try_except. cbv [mbind M_bind gets modify mret M_ret].
  rewrite Hread. reflexivity.
Qed.

(** A due round gets as far as the time stamp, with a reading for each
    selected channel in hand. *)
Lemma sensor_tick_to_time_due (now : float) s :
  (delta_t s <=? now - last_reading_time s)%float = true →
  ∃ readings w lines,
    length readings = length (selected_channels s)
    ∧ sensor_tick_to_time now s
      = (Ok (Some (readings, (now - start_time s)%float)),
         set_sensor_data_time
           (sensor_data_time s ++ [py_round (now - start_time s) 3])
           (set_stdout lines (set_adc w s))).
Proof.
  intros Hdue.
  destruct (read_sensors_loop_frame (selected_channels s) [] s)
    as (readings & w & lines & _ & Hread & Hlen).
  exists readings, w, lines. split; [exact Hlen |].
  unfold sensor_tick_to_time. cbv [mbind M_bind gets].
  rewrite Hdue. unfold try_except. cbv [mbind M_bind gets modify mret M_ret].
  rewrite Hread. reflexivity.
Qed.

(** The second half of a round appends the readings and leaves the time
    stamps alone, whatever becomes of the row on file. *)
Lemma sensor_tick_from_time_series (now rel : float)
  (readings : list float) s :
  sensor_data_time (exec (sensor_tick_from_time now readings rel) s)
  = sensor_data_time s
  ∧ sensor_data_voltages (exec (sensor_tick_from_time now readings rel) s)
    = sensor_data_voltages s ++ [readings].
Proof.
  unfold sensor_tick_from_time, try_except.
  cbv [mbind M_bind gets modify mret M_ret when print].
  cbn [is_recording output_file csv_writer set_sensor_data_voltages].
  match goal with |- context [if ?b then _ else _] => destruct b end;
    [| done].
  match goal with
  | |- context [csv_writer_writerow ?r ?s2] =>
      destruct (writerow_flush_frame r s2) as (res & objs & d & Hrow)
  end.
  cbv [mbind M_bind] in Hrow. rewrite Hrow.
  destruct res as [[] | e]; done.
Qed.

Lemma step_series_lag (n : nat) s (e : event) :
  ¬ clears_series e →
  length (sensor_data_voltages s) = (n + length (sensor_data_time s))%nat →
  length (sensor_data_voltages (step s e))
  = (n + length (sensor_data_time (step s e)))%nat.
Proof.
  unfold step. intros Hkeeps Hs.
  destruct e as [i | text | | now fn err | fn err | | now]; cbn [handler].
  - assert (Hkeep : keeps_series (click_channel i)).
    { intros b. unfold click_channel, update_selected_channels, messagebox.
      preserves_steps; exact id. }
    by pose proof (Hkeep _ s eq_refl) as [= -> ->].
  - exact Hs.
  - assert (Hkeep : keeps_series update_acquisition_interval).
    { intros b. unfold update_acquisition_interval, messagebox.
      preserves_steps; exact id. }
    by pose proof (Hkeep _ s eq_refl) as [= -> ->].
  - by destruct Hkeeps.
  - by pose proof (browse_output_file_series fn err _ s eq_refl) as [= -> ->].
  - by destruct Hkeeps.
  - destruct (delta_t s <=? now - last_reading_time s)%float eqn:Hdue.
    + destruct (read_sensors_loop_frame (selected_channels s) [] s)
        as (readings & w & lines & _ & Hread & _).
      destruct (sensor_tick_appends now s _ _ Hdue Hread) as [-> ->].
      rewrite !length_app. cbn. lia.
    + by rewrite sensor_tick_idle.
Qed.

(** X20: the two lists of the series do not go together in every state
    the program reaches.  When Clear Plot Data runs between the two
    appends of a round of the sampler, the round leaves its row of
    readings in a series without time stamps, and through any handlers
    and rounds that follow the series holds one row more than time
    stamps, until it is cleared again or a recording is started. *)
Theorem clear_between_the_appends (now : float) s :
  (delta_t s <=? now - last_reading_time s)%float = true →
  ∃ readings rel,
    (sensor_tick_to_time now s).1 = Ok (Some (readings, rel))
    ∧ length readings = length (selected_channels s)
    ∧ let s1 := exec (sensor_tick_to_time now) s in
      let s2 := exec clear_plot_data s1 in
      let s3 := exec (sensor_tick_from_time now readings rel) s2 in
      sensor_data_time s3 = []
      ∧ sensor_data_voltages s3 = [readings]
      ∧ ∀ es, Forall (λ e, ¬ clears_series e) es →
              length (sensor_data_voltages (run es s3))
              = S (length (sensor_data_time (run es s3))).
Proof.
  intros Hdue.
  destruct (sensor_tick_to_time_due now s Hdue)
    as (readings & w & lines & Hlen & Hfirst).
  exists readings, (now - start_time s)%float. rewrite Hfirst.
  split; [done |]. split; [exact Hlen |]. cbv zeta. cbn [snd].
  match goal with
  | |- context [exec (sensor_tick_from_time now readings ?rel) ?s2] =>
      destruct (sensor_tick_from_time_series now rel readings s2)
        as [Htime Hvoltages];
      set (s3 := exec (sensor_tick_from_time now readings rel) s2) in *
  end.
  split; [by rewrite Htime |]. split; [by rewrite Hvoltages |].
  intros es Hes.
  assert (Hlag : length (sensor_data_voltages s3)
                 = (1 + length (sensor_data_time s3))%nat)
    by by rewrite Htime, Hvoltages.
  clearbody s3. clear Htime Hvoltages. revert s3 Hlag.
  induction Hes as [| e es He _ IH]; intros s3 Hlag; [exact Hlag |].
  apply IH. by apply step_series_lag.
Qed.

(** The two halves of [browse_output_file] make the handler. *)
Lemma browse_output_file_in_two (filename : string)
  (open_error : option string) s :
  browse_output_file filename open_error s
  = (up ← browse_output_file_to_box filename open_error;
     when up browse_output_file_from_box) s.
Proof.
  unfold browse_output_file, browse_output_file_to_box,
    browse_output_file_from_box.
  destruct (String.eqb filename ""); [reflexivity |].
  unfold try_except, messagebox.
  cbv [mbind M_bind gets modify mret M_ret when any_exception].
  destruct (match output_file s with
            | Some o => close o
            | None => λ s0, (Ok tt, s0)
            end s) as [[[] | e] s1]; [| reflexivity].
  destruct (open_w filename open_error s1) as [[o | e] s2]; [| reflexivity].
  cbn [is_recording selected_channels set_file_label set_csv_writer
       set_output_file].
  destruct (is_recording s2); [| reflexivity].
  match goal with
  | |- context [csv_writer_writerow ?r ?s3] =>
      destruct (csv_writer_writerow r s3) as [[[] | e] s4]; [| reflexivity]
  end.
  by destruct (output_file_flush s4) as [[[] | e] s5].
Qed.

(** The state with the error box up: the old sink is closed and
    [output_file] still refers to it. *)
Lemma browse_output_file_to_box_fails (filename msg : string) s :
  filename ≠ "" →
  sink_ok s →
  browse_output_file_to_box filename (Some msg) s
  = (Ok true,
     set_dialogs
       (dialogs s ++ [ErrorBox "File Error"
                        ("Could not open file: " +:+ msg)])
       (old_sink_closed s)).
Proof.
  intros Hname Hok.
  destruct (old_sink_closed_frame s Hok)
    as (_ & _ & _ & Hdialogs & _ & Hclose).
  unfold browse_output_file_to_box.
  destruct (String.eqb_spec filename "") as [| _]; [done |].
  unfold try_except, open_w, messagebox.
  cbv [mbind M_bind mret M_ret gets modify raise any_exception]
    in Hclose |- *.
  rewrite Hclose. cbn [str_exn]. rewrite Hdialogs. reflexivity.
Qed.

(** A row for a writer on a closed file raises and leaves everything as
    it is. *)
Lemma writerow_flush_closed (r : row) s (o : nat) (f : fileobj) :
  csv_writer s = Some o →
  objects s !! o = Some f →
  f_closed f = true →
  (csv_writer_writerow r;; output_file_flush) s = (Raise closed_file, s).
Proof.
  intros Hwriter Hobj Hshut.
  unfold csv_writer_writerow, writerow, get_object.
  cbv [mbind M_bind gets raise]. by rewrite Hwriter, Hobj, Hshut.
Qed.

(** X21: while the File Error box of [browse_output_file] is up,
    [output_file] still refers to the file the handler has just closed.
    With a recording on, every due round of the sampler then stores its
    point, fails to write its row, prints the error of the closed file
    and leaves the time of the last reading where it was, so that the
    same clock reading is due again at once; nothing reaches the disk.
    Dismissing the box completes the handler. *)
Theorem round_while_error_box_is_up (filename msg : string) s (o : nat)
  (f : fileobj) :
  filename ≠ "" →
  is_recording s = true →
  output_file s = Some o →
  csv_writer s = Some o →
  objects s !! o = Some f →
  f_closed f = false →
  let box := browse_output_file_to_box filename (Some msg) s in
  box.1 = Ok true
  ∧ output_file box.2 = Some o
  ∧ objects box.2 !! o = Some (FileObj (f_name f) true [])
  ∧ exec browse_output_file_from_box box.2
    = exec (browse_output_file filename (Some msg)) s
  ∧ ∀ now,
      (delta_t box.2 <=? now - last_reading_time box.2)%float = true →
      let s' := exec (sensor_tick now) box.2 in
      length (sensor_data_time s') = S (length (sensor_data_time s))
      ∧ length (sensor_data_voltages s')
        = S (length (sensor_data_voltages s))
      ∧ disk s' = disk box.2
      ∧ objects s' = objects box.2
      ∧ last (stdout s')
        = Some "Error in acquisition loop: I/O operation on closed file."
      ∧ last_reading_time s' = last_reading_time s
      ∧ (delta_t s' <=? now - last_reading_time s')%float = true.
Proof.
  intros Hname Hrec Hfile Hwriter Hobj Hopen. cbv zeta.
  assert (Hok : sink_ok s).
  { intros o' Ho'. rewrite Hfile in Ho'. injection Ho' as <-. eauto. }
  pose proof (browse_output_file_in_two filename (Some msg) s) as Htwo.
  cbv [mbind M_bind] in Htwo.
  rewrite (browse_output_file_to_box_fails filename msg s Hname Hok)
    in Htwo |- *.
  cbn [when] in Htwo.
  cbn [fst snd].
  assert (Hclosed : old_sink_closed s
                    = set_objects
                        (<[o := FileObj (f_name f) true []]> (objects s))
                        (set_disk
                           (<[f_name f := default [] (disk s !! f_name f)
                                           ++ f_buffer f]> (disk s)) s)).
  { unfold old_sink_closed. rewrite Hfile.
    by rewrite (close_open o f s Hobj Hopen). }
  assert (Hlt : (o < length (objects s))%nat)
    by (apply lookup_lt_is_Some; eauto).
  set (s1 := set_dialogs _ (old_sink_closed s)) in *.
  assert (Hfile1 : output_file s1 = Some o)
    by (subst s1; rewrite Hclosed; exact Hfile).
  assert (Hwriter1 : csv_writer s1 = Some o)
    by (subst s1; rewrite Hclosed; exact Hwriter).
  assert (Hrec1 : is_recording s1 = true)
    by (subst s1; rewrite Hclosed; exact Hrec).
  assert (Hobj1 : objects s1 !! o = Some (FileObj (f_name f) true [])).
  { subst s1. rewrite Hclosed. cbn. by apply list_lookup_insert_eq. }
  assert (Hseries : sensor_data_time s1 = sensor_data_time s
                    ∧ sensor_data_voltages s1 = sensor_data_voltages s
                    ∧ last_reading_time s1 = last_reading_time s).
  { subst s1. by rewrite Hclosed. }
  destruct Hseries as (Htime1 & Hvoltages1 & Hlast1).
  split; [done |]. split; [exact Hfile1 |]. split; [exact Hobj1 |]. split.
  { rewrite Htwo. reflexivity. }
  intros now Hdue.
  destruct (read_sensors_loop_frame (selected_channels s1) [] s1)
    as (readings & w & lines & _ & Hread & _).
  rewrite (sensor_tick_due now s1 readings _ Hdue Hread). cbv zeta.
  cbn [is_recording output_file csv_writer set_stdout set_adc start_time
       sensor_data_time sensor_data_voltages].
  rewrite Hrec1, Hfile1, Hwriter1. cbn [truthy andb].
  match goal with
  | |- context [(csv_writer_writerow ?r;; output_file_flush) ?s2] =>
      rewrite (writerow_flush_closed r s2 o (FileObj (f_name f) true []))
        by done
  end.
  cbn [snd sensor_data_time sensor_data_voltages disk objects stdout
       last_reading_time delta_t set_stdout set_adc
       set_sensor_data_voltages set_sensor_data_time str_exn closed_file].
  rewrite !length_app, Htime1, Hvoltages1, Hlast1, last_snoc.
  cbn [length]. rewrite <- Hlast1.
  repeat (split; [done || lia |]). exact Hdue.
Qed.

(** The two halves of a click on a checkbox make the handler. *)
Lemma click_channel_in_two (i : nat) s :
  click_channel i s
  = (up ← click_channel_to_box i;
     when up update_selected_channels_from_box) s.
Proof.
  unfold click_channel, click_channel_to_box, update_selected_channels,
    update_selected_channels_to_box, update_selected_channels_from_box,
    messagebox.
  cbv [mbind M_bind gets modify mret M_ret when raise].
  cbn [channel_vars selected_channels set_channel_vars
       set_selected_channels set_dialogs].
  case_bool_decide; [| reflexivity].
  cbn [channel_vars selected_channels set_channel_vars
       set_selected_channels set_dialogs].
  by destruct (alter _ i (channel_vars s)).
Qed.

(** The state with the warning box up: nothing is selected. *)
Lemma click_channel_to_box_none (i : nat) s :
  Forall (λ v, v ≠ 1%Z)
    (alter (λ v, if (v =? 1)%Z then 0%Z else 1%Z) i (channel_vars s)) →
  click_channel_to_box i s
  = (Ok true,
     set_dialogs
       (dialogs s ++ [WarningBox "Channel Selection"
                        "At least one channel must be selected"])
       (set_selected_channels []
          (set_channel_vars
             (alter (λ v, if (v =? 1)%Z then 0%Z else 1%Z) i
                (channel_vars s)) s))).
Proof.
  intros Hnone. apply checked_nil in Hnone.
  unfold click_channel_to_box, update_selected_channels_to_box, messagebox.
  cbv [mbind M_bind gets modify mret M_ret].
  cbn [channel_vars selected_channels set_channel_vars
       set_selected_channels].
  rewrite Hnone. reflexivity.
Qed.

(** X22: while the warning box of [update_selected_channels] is up no
    channel is selected.  A due round of the sampler then stores a row
    with no reading in it, and once the box is dismissed and channel 0
    is selected again, that row makes [update_plot] raise
    [IndexError].  Dismissing the box completes the handler. *)
Theorem round_while_warning_box_is_up (i : nat) s (lines : list line2d) :
  channel_vars s ≠ [] →
  Forall (λ v, v ≠ 1%Z)
    (alter (λ v, if (v =? 1)%Z then 0%Z else 1%Z) i (channel_vars s)) →
  let box := click_channel_to_box i s in
  box.1 = Ok true
  ∧ selected_channels box.2 = []
  ∧ exec update_selected_channels_from_box box.2 = exec (click_channel i) s
  ∧ ∀ now,
      (delta_t box.2 <=? now - last_reading_time box.2)%float = true →
      let s' := exec (sensor_tick now) box.2 in
      sensor_data_voltages s' = sensor_data_voltages s ++ [[]]
      ∧ length (sensor_data_time s') = S (length (sensor_data_time s))
      ∧ let s'' := exec update_selected_channels_from_box s' in
        selected_channels s'' = [0%nat]
        ∧ sensor_data_voltages s'' = sensor_data_voltages s ++ [[]]
        ∧ ((0 < length lines)%nat →
           (update_plot s'' lines).1
           = Raise (IndexError "list index out of range")).
Proof.
  intros Hvars Hnone. cbv zeta.
  pose proof (click_channel_in_two i s) as Htwo.
  cbv [mbind M_bind] in Htwo.
  rewrite (click_channel_to_box_none i s Hnone) in Htwo |- *.
  cbn [when] in Htwo. cbn [fst snd].
  set (vars := alter (λ v, if (v =? 1)%Z then 0%Z else 1%Z) i
                 (channel_vars s)) in *.
  assert (Hvars' : vars ≠ []).
  { subst vars. intros Hnil. apply Hvars.
    apply (f_equal length) in Hnil. rewrite length_alter in Hnil.
    destruct (channel_vars s); [done | discriminate]. }
  set (s1 := set_dialogs _ _) in *.
  split; [done |]. split; [done |]. split; [by rewrite Htwo |].
  intros now Hdue.
  pose proof (sensor_tick_appends now s1 [] s1 Hdue (read_sensors_nil s1))
    as [Htime Hvoltages].
  pose proof (sensor_tick_selection now _ s1 eq_refl) as [= Hsel Hcv].
  set (s' := exec (sensor_tick now) s1) in *.
  split; [exact Hvoltages |]. split.
  { rewrite Htime, length_app. cbn. lia. }
  assert (Hfrom : update_selected_channels_from_box s'
                  = (Ok tt,
                     set_selected_channels [0%nat]
                       (set_channel_vars (<[0%nat := 1%Z]> vars) s'))).
  { unfold update_selected_channels_from_box.
    cbv [mbind M_bind gets modify raise]. rewrite Hcv.
    subst s1. cbn [channel_vars set_dialogs set_selected_channels
                   set_channel_vars].
    by destruct vars. }
  rewrite Hfrom. cbn [snd selected_channels sensor_data_voltages
                      set_selected_channels set_channel_vars].
  split; [done |]. split; [exact Hvoltages |].
  intros Hlines.
  apply (update_plot_short_row _ lines []).
  - cbn. rewrite Htime. by destruct (sensor_data_time s1).
  - cbn. apply NoDup_singleton.
  - cbn. intros ch Hch. apply list_elem_of_singleton in Hch as ->. exact Hlines.
  - cbn. rewrite Hvoltages. apply elem_of_app. right. by left.
  - cbn. lia.
Qed.

End SensorInvariants.

(** * Properties of the window *)

Section AppProperties.

Import Sensor App.

Context {W : Type} `{!Builtins} `{!Adc W}.

Implicit Types a : app W.

Lemma py_last_cons {A} (l : list A) :
  l ≠ [] → ∃ x, py_last l = inr x ∧ last l = Some x.
Proof.
  intros Hl. unfold py_last. destruct (last l) as [x |] eqn:Hlast.
  - by exists x.
  - by apply last_None in Hlast.
Qed.

(** The part of [update_status] before the plot, when data is there. *)
Lemma update_status_with_data a (t : float) (readings : list float) :
  last (sensor_data_time (sensor a)) = Some t →
  last (sensor_data_voltages (sensor a)) = Some readings →
  update_status a
  = let a1 :=
      set_sensor_status_label
        (LastReading (is_recording (sensor a)) t
           (zip (selected_channels (sensor a)) readings))
        (set_motor_status_label (Motor.update_status (motor a)) a) in
    match update_plot (sensor a) (lines a) with
    | (Ok _, ls) =>
        (Ok tt, set_scheduled (S (scheduled a)) (set_lines ls a1))
    | (Raise e, ls) => (Raise e, set_lines ls a1)
    end.
Proof.
  intros Htime Hvoltages. unfold update_status.
  cbv [mbind M_bind gets modify mret M_ret on_lines].
  cbn [sensor set_motor_status_label set_sensor_status_label motor lines].
  destruct (sensor_data_time (sensor a)) as [| t0 times] eqn:Htimes;
    [done |].
  cbn [length Nat.ltb Nat.leb]. unfold py_last.
  rewrite Htime, Hvoltages. cbn [of_sum]. cbv [mret M_ret].
  cbn [sensor set_motor_status_label set_sensor_status_label motor lines].
  by destruct (update_plot (sensor a) (lines a)) as [[[] | e] ls].
Qed.

(** With nothing scheduled, nothing runs [update_status] again. *)
Lemma step_unscheduled a (e : App.event) :
  scheduled a = 0%nat →
  scheduled (App.step a e) = 0%nat
  ∧ motor_status_label (App.step a e) = motor_status_label a
  ∧ sensor_status_label (App.step a e) = sensor_status_label a.
Proof.
  intros Hnone. destruct e as [e | e |]; cbn [App.step].
  - done.
  - by destruct e.
  - by rewrite Hnone.
Qed.

Lemma run_unscheduled (es : list App.event) a :
  scheduled a = 0%nat →
  scheduled (App.run es a) = 0%nat
  ∧ motor_status_label (App.run es a) = motor_status_label a
  ∧ sensor_status_label (App.run es a) = sensor_status_label a.
Proof.
  revert a. induction es as [| e es IH]; intros a Hnone; [done |].
  destruct (step_unscheduled a e Hnone) as (Hnone' & Hmotor & Hsensor).
  destruct (IH (App.step a e) Hnone') as (Hn & Hm & Hs).
  unfold App.run in *. cbn [foldl]. by rewrite Hn, Hm, Hs.
Qed.

(** X18: a status refresh that finds a stored row shorter than the
    selection is the last one.  It still updates the two status labels,
    but the exception of [update_plot] keeps it from scheduling the
    next refresh, and from then on, whatever happens, nothing is
    scheduled and the labels stay as they are. *)
Theorem refresh_stops_for_good a (readings : list float)
  (es : list App.event) :
  scheduled a = 1%nat →
  sensor_data_time (sensor a) ≠ [] →
  NoDup (selected_channels (sensor a)) →
  Forall (λ ch, (ch < length (lines a))%nat)
    (selected_channels (sensor a)) →
  readings ∈ sensor_data_voltages (sensor a) →
  (length readings < length (selected_channels (sensor a)))%nat →
  let a' := App.step a Refresh in
  motor_status_label a' = Motor.update_status (motor a)
  ∧ (∃ t last_readings,
       sensor_status_label a'
       = LastReading (is_recording (sensor a)) t
           (zip (selected_channels (sensor a)) last_readings))
  ∧ scheduled (App.run es a') = 0%nat
  ∧ motor_status_label (App.run es a') = motor_status_label a'
  ∧ sensor_status_label (App.run es a') = sensor_status_label a'.
Proof.
  intros Hone Htime Hnodup Hrange Hin Hshort. cbv zeta.
  cbn [App.step]. rewrite Hone.
  destruct (py_last_cons (sensor_data_time (sensor a)) Htime)
    as (t & _ & Ht).
  destruct (py_last_cons (sensor_data_voltages (sensor a)))
    as (last_readings & _ & Hlast).
  { intros Hnil. rewrite Hnil in Hin. by apply elem_of_nil in Hin. }
  rewrite (update_status_with_data _ t last_readings) by done.
  cbv zeta. cbn [sensor lines set_scheduled motor scheduled].
  rewrite Forall_forall in Hrange.
  pose proof (update_plot_short_row (sensor a) (lines a) readings
                Htime Hnodup Hrange Hin Hshort) as Hraise.
  destruct (update_plot (sensor a) (lines a)) as [r ls].
  cbn [fst] in Hraise. subst r. cbn [snd].
  split; [done |]. split; [by exists t, last_readings |].
  by apply run_unscheduled.
Qed.


End AppProperties.

(** * The sensor invariants on the bench *)

Section InvariantsOnTheBench.

Import Sensor Bench.

Ltac by_running :=
  match goal with
  | |- ?P => refine (@bool_decide_unpack P _ _); vm_compute; exact I
  end.

Lemma recording_sink_ok : sink_ok recording.
Proof.
  intros o Ho.
  assert (Hfile : output_file recording = Some 0%nat)
    by (vm_compute; reflexivity).
  rewrite Hfile in Ho. injection Ho as <-.
  split; [vm_compute; reflexivity |].
  exists (FileObj "run.csv" false []).
  split; vm_compute; reflexivity.
Defined.

(** X9 on the bench: choosing next.csv while recording into run.csv
    makes file object 1 the sink, with the header of channels 0, 1, 2 as
    its only row, and closes run.csv. *)
Lemma browse_opens_fresh_file_witness :
  "next.csv" ≠ ""
  ∧ sink_ok recording
  ∧ let s' := (browse_output_file "next.csv" None recording).2 in
    output_file s' = Some 1%nat
    ∧ disk s' !! "next.csv" = Some [header_row [0; 1; 2]%nat]
    ∧ objects s' !! 0%nat = Some (FileObj "run.csv" true []).
Proof.
  assert (Hname : "next.csv" ≠ "") by discriminate.
  split; [exact Hname |]. split; [exact recording_sink_ok |].
  destruct (browse_opens_fresh_file "next.csv" recording Hname
              recording_sink_ok)
    as (Hfile & _ & _ & Hdisk & _ & Hold).
  destruct (Hold 0%nat (FileObj "run.csv" false []))
    as [Hclosed _]; [vm_compute; reflexivity .. |].
  cbv zeta. split; [exact Hfile |]. split; [exact Hdisk | exact Hclosed].
Defined.

(** X10 on the bench: next.csv is refused while recording into run.csv;
    the recording stays on with no sink and the round at 1011 writes
    nothing. *)
Lemma browse_failure_leaves_no_sink_witness :
  "next.csv" ≠ ""
  ∧ sink_ok recording
  ∧ let s' := (browse_output_file "next.csv" (Some "Permission denied")
                 recording).2 in
    output_file s' = None
    ∧ is_recording s' = true
    ∧ disk (sensor_tick 1011 s').2 = disk s'.
Proof.
  assert (Hname : "next.csv" ≠ "") by discriminate.
  split; [exact Hname |]. split; [exact recording_sink_ok |].
  destruct (browse_failure_leaves_no_sink "next.csv" "Permission denied"
              recording Hname recording_sink_ok)
    as (Hfile & Hrec & _ & _ & Htick).
  cbv zeta. split; [exact Hfile |]. split; [exact Hrec |].
  exact (proj1 (Htick 1011%float)).
Defined.

(** X12 on the bench: the first click on the record button, with
    run.csv refused, leaves the recording off and the time origin at
    1000. *)
Lemma start_fails_without_file_witness :
  "run.csv" ≠ ""
  ∧ is_recording three_channels = false
  ∧ output_file three_channels = None
  ∧ let s' := (toggle_recording 1010 "run.csv" (Some "Permission denied")
                 three_channels).2 in
    is_recording s' = false
    ∧ start_time s' = 1000%float
    ∧ output_file s' = None.
Proof.
  assert (Hname : "run.csv" ≠ "") by discriminate.
  assert (Hrec : is_recording three_channels = false)
    by (vm_compute; reflexivity).
  assert (Hfile : output_file three_channels = None)
    by (vm_compute; reflexivity).
  split; [exact Hname |]. split; [exact Hrec |]. split; [exact Hfile |].
  destruct (start_fails_without_file 1010 "run.csv" "Permission denied"
              three_channels Hname Hrec Hfile)
    as (Hoff & _ & Hstart & _ & _ & _ & _ & Hnone & _).
  cbv zeta. split; [exact Hoff |]. split; [exact Hstart | exact Hnone].
Defined.

(** X11 on the bench: the header of run.csv stays its first row through
    a round, the choice of next.csv and another round. *)
Lemma rows_on_disk_are_kept_witness :
  let es := [Tick 1011; ClickBrowse "next.csv" None; Tick 1012] in
  Forall (λ e, ¬ asks_for "run.csv" e) es
  ∧ disk recording !! "run.csv" = Some [header_row [0; 1; 2]%nat]
  ∧ ∃ more, disk (run es recording) !! "run.csv"
            = Some ([header_row [0; 1; 2]%nat] ++ more).
Proof.
  cbv zeta.
  assert (Hes : Forall (λ e, ¬ asks_for "run.csv" e)
                  [Tick 1011; ClickBrowse "next.csv" None; Tick 1012])
    by (repeat constructor; cbn; first [tauto | discriminate]).
  assert (Hrows : disk recording !! "run.csv"
                  = Some [header_row [0; 1; 2]%nat])
    by (vm_compute; reflexivity).
  split; [exact Hes |]. split; [exact Hrows |].
  exact (rows_on_disk_are_kept "run.csv" _ _ recording Hes Hrows).
Defined.


(** X15 on the bench: with one stored row of a single reading and
    channels 0 and 2 selected, the plot raises. *)
Lemma plot_raises_on_short_row_witness :
  sensor_data_time widened ≠ []
  ∧ NoDup (selected_channels widened)
  ∧ (∀ ch, ch ∈ selected_channels widened → (ch < length lines0)%nat)
  ∧ [0.25%float] ∈ sensor_data_voltages widened
  ∧ (length [0.25%float] < length (selected_channels widened))%nat
  ∧ (update_plot widened lines0).1
    = Raise (IndexError "list index out of range").
Proof.
  assert (Htime : sensor_data_time widened ≠ [])
    by (vm_compute; discriminate).
  assert (Hnodup : NoDup (selected_channels widened))
    by (by_running).
  assert (Hrange : ∀ ch, ch ∈ selected_channels widened
                         → (ch < length lines0)%nat).
  { apply Forall_forall. by_running. }
  assert (Hin : [0.25%float] ∈ sensor_data_voltages widened)
    by (vm_compute; constructor).
  assert (Hshort : (length [0.25%float]
                    < length (selected_channels widened))%nat)
    by (vm_compute; lia).
  repeat (split; [assumption |]).
  exact (plot_raises_on_short_row widened lines0 [0.25%float]
           Htime Hnodup Hrange Hin Hshort).
Defined.

(** X16 on the bench: the round at 1011 and then the box of channel 2
    make the plot raise. *)
Lemma adding_channel_breaks_plot_witness :
  let s := run [] started in
  (delta_t s <=? 1011 - last_reading_time s)%float = true
  ∧ (2 < 8)%nat
  ∧ (2%nat ∉ selected_channels s)
  ∧ length lines0 = 8%nat
  ∧ (update_plot (run [Tick 1011; ClickChannel 2] s) lines0).1
    = Raise (IndexError "list index out of range").
Proof.
  cbv zeta.
  assert (Hdue : (delta_t (run [] started)
                  <=? 1011 - last_reading_time (run [] started))%float
                 = true) by (vm_compute; reflexivity).
  assert (Hlt : (2 < 8)%nat) by lia.
  assert (Hout : 2%nat ∉ selected_channels (run [] started))
    by (by_running).
  assert (Hlines : length lines0 = 8%nat) by reflexivity.
  repeat (split; [assumption |]).
  exact (adding_channel_breaks_plot [] 1000 1000.5 ∅ 0%nat 1011 2 lines0
           Hdue Hlt Hout Hlines).
Defined.

(** X18 on the bench: the refresh after channel 2 was added is the last;
    clearing the plot and waiting does not bring the refresh back. *)
Lemma refresh_stops_for_good_witness :
  let a := window widened in
  let es := [App.OnSensor ClickClear; App.Refresh; App.Refresh] in
  App.scheduled a = 1%nat
  ∧ sensor_data_time (App.sensor a) ≠ []
  ∧ NoDup (selected_channels (App.sensor a))
  ∧ Forall (λ ch, (ch < length (App.lines a))%nat)
      (selected_channels (App.sensor a))
  ∧ [0.25%float] ∈ sensor_data_voltages (App.sensor a)
  ∧ (length [0.25%float] < length (selected_channels (App.sensor a)))%nat
  ∧ App.scheduled (App.run es (App.step a App.Refresh)) = 0%nat.
Proof.
  cbv zeta.
  assert (Hone : App.scheduled (window widened) = 1%nat) by reflexivity.
  assert (Htime : sensor_data_time (App.sensor (window widened)) ≠ [])
    by (vm_compute; discriminate).
  assert (Hnodup : NoDup (selected_channels (App.sensor (window widened))))
    by (by_running).
  assert (Hrange : Forall (λ ch, (ch < length (App.lines (window widened)))%nat)
                     (selected_channels (App.sensor (window widened))))
    by (by_running).
  assert (Hin : [0.25%float]
                ∈ sensor_data_voltages (App.sensor (window widened)))
    by (vm_compute; constructor).
  assert (Hshort : (length [0.25%float]
                    < length (selected_channels
                                (App.sensor (window widened))))%nat)
    by (vm_compute; lia).
  repeat (split; [assumption |]).
  exact (proj1 (proj2 (proj2
    (refresh_stops_for_good (window widened) [0.25%float]
       [App.OnSensor ClickClear; App.Refresh; App.Refresh]
       Hone Htime Hnodup Hrange Hin Hshort)))).
Defined.


(** X17 on the bench: the round at 1011 of the recording into run.csv is
    due and sets the time of the last reading; the round at 1011.05,
    with the interval at 0.1, does nothing. *)
Lemma due_round_sets_the_pace_witness :
  sink_ok recording
  ∧ (delta_t recording <=? 1011 - last_reading_time recording)%float = true
  ∧ (delta_t recording <=? 1011.05 - 1011)%float = false
  ∧ last_reading_time (step recording (Tick 1011)) = 1011%float
  ∧ step (step recording (Tick 1011)) (Tick 1011.05)
    = step recording (Tick 1011).
Proof.
  assert (Hdue : (delta_t recording
                  <=? 1011 - last_reading_time recording)%float = true)
    by (vm_compute; reflexivity).
  assert (Hearly : (delta_t recording <=? 1011.05 - 1011)%float = false)
    by (vm_compute; reflexivity).
  destruct (due_round_sets_the_pace 1011 recording recording_sink_ok Hdue)
    as (Hlast & _ & Hidle).
  split; [exact recording_sink_ok |].
  split; [exact Hdue |]. split; [exact Hearly |].
  split; [exact Hlast | exact (Hidle 1011.05%float Hearly)].
Defined.

(** X8 on the bench: the round at 1011 adds one time stamp and one row. *)
Lemma series_lists_go_together_witness :
  length (sensor_data_time three_channels)
  = length (sensor_data_voltages three_channels)
  ∧ length (sensor_data_time (step three_channels (Tick 1011))) = 1%nat
  ∧ length (sensor_data_voltages (step three_channels (Tick 1011))) = 1%nat.
Proof.
  assert (Hlevel : length (sensor_data_time three_channels)
                   = length (sensor_data_voltages three_channels))
    by (vm_compute; reflexivity).
  pose proof (series_lists_go_together three_channels (Tick 1011) Hlevel)
    as Hafter.
  assert (Hone : length (sensor_data_time (step three_channels (Tick 1011)))
                 = 1%nat) by (vm_compute; reflexivity).
  split; [exact Hlevel |]. split; [exact Hone |].
  rewrite <- Hafter. exact Hone.
Defined.

Lemma recording_files_ok : files_ok recording.
Proof.
  split; [exact recording_sink_ok |].
  intros o f Hobj.
  assert (Hobjects : objects recording = [FileObj "run.csv" false []])
    by (vm_compute; reflexivity).
  rewrite Hobjects in Hobj. destruct o as [| o]; [| by destruct o].
  injection Hobj as <-. split; [reflexivity |].
  intros _. vm_compute. reflexivity.
Defined.

(** X13 on the bench: next.csv is refused while recording into run.csv;
    run.csv is left closed with nothing in its buffer and no file is the
    sink. *)
Lemma files_settled_between_events_witness :
  let s' := step recording
              (ClickBrowse "next.csv" (Some "Permission denied")) in
  files_ok recording
  ∧ output_file s' = None
  ∧ ∀ f, objects s' !! 0%nat = Some f →
         f_buffer f = [] ∧ f_closed f = true.
Proof.
  cbv zeta.
  destruct (files_settled_between_events recording
              (ClickBrowse "next.csv" (Some "Permission denied"))
              recording_files_ok) as [Hrest _].
  assert (Hnone : output_file
                    (step recording
                       (ClickBrowse "next.csv" (Some "Permission denied")))
                  = None) by (vm_compute; reflexivity).
  split; [exact recording_files_ok |]. split; [exact Hnone |].
  intros f Hobj. destruct (Hrest 0%nat f Hobj) as [Hbuffer Hshut].
  split; [exact Hbuffer |].
  destruct (f_closed f); [reflexivity |].
  specialize (Hshut eq_refl). rewrite Hnone in Hshut. discriminate.
Defined.

(** X20 on the bench: the plot is cleared between the two appends of
    the round at 1011; the row of that round stays without a time
    stamp, and after the round at 1012 there are two rows for one time
    stamp. *)
Lemma clear_between_the_appends_witness :
  (delta_t started <=? 1011 - last_reading_time started)%float = true
  ∧ ∃ readings rel,
      (sensor_tick_to_time 1011 started).1 = Ok (Some (readings, rel))
      ∧ let s3 := (sensor_tick_from_time 1011 readings rel
                     (clear_plot_data
                        (sensor_tick_to_time 1011 started).2).2).2 in
        sensor_data_time s3 = []
        ∧ sensor_data_voltages s3 = [readings]
        ∧ length (sensor_data_voltages (run [Tick 1012] s3))
          = S (length (sensor_data_time (run [Tick 1012] s3))).
Proof.
  assert (Hdue : (delta_t started
                  <=? 1011 - last_reading_time started)%float = true)
    by (vm_compute; reflexivity).
  split; [exact Hdue |].
  destruct (clear_between_the_appends 1011 started Hdue)
    as (readings & rel & Hfirst & _ & Htime & Hvoltages & Hlag).
  exists readings, rel. split; [exact Hfirst |]. cbv zeta.
  split; [exact Htime |]. split; [exact Hvoltages |].
  apply Hlag. repeat constructor. cbn. tauto.
Defined.

(** X21 on the bench: next.csv is refused while recording into run.csv;
    with the box up the round at 1011 stores its point, writes nothing
    and is due again. *)
Lemma round_while_error_box_is_up_witness :
  let box := browse_output_file_to_box "next.csv"
               (Some "Permission denied") recording in
  "next.csv" ≠ ""
  ∧ is_recording recording = true
  ∧ output_file recording = Some 0%nat
  ∧ csv_writer recording = Some 0%nat
  ∧ objects recording !! 0%nat = Some (FileObj "run.csv" false [])
  ∧ (delta_t box.2 <=? 1011 - last_reading_time box.2)%float = true
  ∧ output_file box.2 = Some 0%nat
  ∧ objects box.2 !! 0%nat = Some (FileObj "run.csv" true [])
  ∧ length (sensor_data_time (sensor_tick 1011 box.2).2) = 1%nat
  ∧ disk (sensor_tick 1011 box.2).2 = disk box.2
  ∧ (delta_t (sensor_tick 1011 box.2).2
     <=? 1011 - last_reading_time (sensor_tick 1011 box.2).2)%float = true.
Proof.
  cbv zeta.
  assert (Hname : "next.csv" ≠ "") by discriminate.
  assert (Hrec : is_recording recording = true) by (vm_compute; reflexivity).
  assert (Hfile : output_file recording = Some 0%nat)
    by (vm_compute; reflexivity).
  assert (Hwriter : csv_writer recording = Some 0%nat)
    by (vm_compute; reflexivity).
  assert (Hobj : objects recording !! 0%nat
                 = Some (FileObj "run.csv" false []))
    by (vm_compute; reflexivity).
  assert (Hdue : (delta_t (browse_output_file_to_box "next.csv"
                             (Some "Permission denied") recording).2
                  <=? 1011 - last_reading_time
                               (browse_output_file_to_box "next.csv"
                                  (Some "Permission denied") recording).2)%float
                 = true) by (vm_compute; reflexivity).
  destruct (round_while_error_box_is_up "next.csv" "Permission denied"
              recording 0 (FileObj "run.csv" false [])
              Hname Hrec Hfile Hwriter Hobj eq_refl)
    as (_ & Hstill & Hclosed & _ & Hround).
  destruct (Hround 1011%float Hdue)
    as (Hpoint & _ & Hdisk & _ & _ & _ & Hagain).
  split; [exact Hname |]. split; [exact Hrec |]. split; [exact Hfile |].
  split; [exact Hwriter |]. split; [exact Hobj |]. split; [exact Hdue |].
  split; [exact Hstill |]. split; [exact Hclosed |].
  split; [exact Hpoint |]. split; [exact Hdisk | exact Hagain].
Defined.

(** X22 on the bench: channel 0, the only one ticked, is unticked; with
    the box up the round at 1011 stores an empty row, and with the box
    dismissed the plot raises. *)
Lemma round_while_warning_box_is_up_witness :
  let box := click_channel_to_box 0 started in
  let s' := (sensor_tick 1011 box.2).2 in
  let s'' := (update_selected_channels_from_box s').2 in
  channel_vars started ≠ []
  ∧ Forall (λ v, v ≠ 1%Z)
      (alter (λ v, if (v =? 1)%Z then 0%Z else 1%Z) 0 (channel_vars started))
  ∧ (delta_t box.2 <=? 1011 - last_reading_time box.2)%float = true
  ∧ (0 < length lines0)%nat
  ∧ selected_channels box.2 = []
  ∧ sensor_data_voltages s' = [[]]
  ∧ selected_channels s'' = [0%nat]
  ∧ (update_plot s'' lines0).1
    = Raise (IndexError "list index out of range").
Proof.
  cbv zeta.
  assert (Hvars : channel_vars started ≠ []) by discriminate.
  assert (Hnone : Forall (λ v, v ≠ 1%Z)
            (alter (λ v, if (v =? 1)%Z then 0%Z else 1%Z) 0
               (channel_vars started)))
    by (vm_compute; repeat constructor; discriminate).
  assert (Hdue : (delta_t (click_channel_to_box 0 started).2
                  <=? 1011 - last_reading_time
                               (click_channel_to_box 0 started).2)%float
                 = true) by (vm_compute; reflexivity).
  assert (Hlines : (0 < length lines0)%nat) by (vm_compute; lia).
  destruct (round_while_warning_box_is_up 0 started lines0 Hvars Hnone)
    as (_ & Hempty & _ & Hround).
  destruct (Hround 1011%float Hdue) as (Hrow & _ & Hback & _ & Hplot).
  split; [exact Hvars |]. split; [exact Hnone |]. split; [exact Hdue |].
  split; [exact Hlines |]. split; [exact Hempty |]. split; [exact Hrow |].
  split; [exact Hback | exact (Hplot Hlines)].
Defined.

End InvariantsOnTheBench.
